(** * modelviewer: the crop and resize engine of [ModelViewer.jsx]

    A shallow embedding of the geometric core of the viewer component
    (the destructive crop effect, [clipMeshKeepInside] with its closures
    [makeV], [clipByPlane] and [intersect], and the real-world sizing
    effect), followed by the properties of the specification that
    concern it.

    - JavaScript numbers are IEEE 754 binary64 values; they are modelled
      by Rocq's primitive floats, which are the same format with the
      same rounding, so every definition below evaluates to the number
      the component computes.  NaN, the infinities and the two zeros
      behave as in JavaScript.
    - Arrays are lists; a typed [Float32Array] is a list of numbers, and
      storing into one rounds with [Math.fround].
    - The closures of [clipMeshKeepInside] are definitions of a section
      whose variables are the values they capture.
    - The effects are functions from the state they read to the state
      they leave, together with the list of calls and callbacks they
      make, in program order.
    - [CSG.intersect], [mergeVertices] and the [BoxGeometry] constructor
      are parameters of the crop effect; the first two may throw.
    - Objects that several meshes may share (the geometries in
      [pruneGeometryAttributesForExport], the materials in the texture
      effect) live in a store and are named by their place in it;
      textures are compared by identity.
    - The pixel loops of [textureUtils.js] run over the bytes of a
      [Uint8ClampedArray]; a store into one rounds with
      [ToUint8Clamp].
    - The listeners of the pointer-based rotation are the steps of a
      transition system over the variables they share. *)

From Stdlib Require Import Floats List Bool Arith ZArith Lia.
From Stdlib Require String Uint63.
Import ListNotations.

Set Warnings "-inexact-float".

(* ================================================================== *)
(** * Part I: the embedding                                            *)
(* ================================================================== *)

(** ** JavaScript numbers *)

Module JS.
Local Open Scope float_scope.

(** [Number.isFinite]: neither NaN nor an infinity. *)
Definition Number_isFinite (t : float) : bool := is_finite t.

Definition Math_abs (t : float) : float := abs t.

Definition Math_sqrt (t : float) : float := sqrt t.

Definition is_neg_zero (t : float) : bool := (t =? 0) && get_sign t.

(** One step of [Math.max]: NaN is contagious, and [+0] is larger
    than [-0]. *)
Definition max2 (a b : float) : float :=
  if is_nan a || is_nan b then nan
  else if a <? b then b
  else if b <? a then a
  else if is_neg_zero a then b else a.

(** [Math.max(a, b, ...)]; with no argument the result is [-Infinity]. *)
Definition Math_max (args : list float) : float :=
  fold_left max2 args neg_infinity.

(** One step of [Math.min]: NaN is contagious, and [-0] is smaller
    than [+0]. *)
Definition min2 (a b : float) : float :=
  if is_nan a || is_nan b then nan
  else if a <? b then a
  else if b <? a then b
  else if is_neg_zero a then a else b.

(** [Math.fround]: rounding to the nearest binary32 value (ties to
    even).  This is what storing a number into a [Float32Array] does. *)
Definition Math_fround (t : float) : float :=
  SF2Prim match Prim2SF t with
          | S754_finite sg m e => binary_round 24 128 sg m e
          | sf => sf
          end.

(** The result of an operation that may throw. *)
Inductive completion (A : Type) : Type :=
| Normal (a : A)
| Throw.
Arguments Normal {A} a.
Arguments Throw {A}.
End JS.

(** ** The parts of three.js the component calls

    three.js is a dependency, not part of the repository.  The small
    vector and matrix methods below are written out as the library
    defines them (one float operation per JavaScript operation, in the
    same order). *)

Module Vector2.
Local Open Scope float_scope.

Record t : Type := mk { x : float; y : float }.

(** [new Vector2().copy(a).lerp(b, alpha)]:
    [this.x += (v.x - this.x) * alpha]. *)
Definition lerp (a b : t) (alpha : float) : t :=
  {| x := x a + (x b - x a) * alpha;
     y := y a + (y b - y a) * alpha |}.
End Vector2.

Module Matrix4.
Local Open Scope float_scope.

(** The sixteen [elements], named by row and column as in three.js
    ([elements] is column-major: [te[0] = n11], [te[1] = n21], ...,
    [te[12] = n14], ..., [te[15] = n44]). *)
Record t : Type := mk {
  n11 : float; n21 : float; n31 : float; n41 : float;
  n12 : float; n22 : float; n32 : float; n42 : float;
  n13 : float; n23 : float; n33 : float; n43 : float;
  n14 : float; n24 : float; n34 : float; n44 : float
}.

Definition identity : t :=
  mk 1 0 0 0
     0 1 0 0
     0 0 1 0
     0 0 0 1.

Definition zeroMatrix : t :=
  mk 0 0 0 0  0 0 0 0  0 0 0 0  0 0 0 0.

(** [new Matrix4().multiplyMatrices(a, b)]. *)
Definition multiplyMatrices (a b : t) : t :=
  mk (n11 a * n11 b + n12 a * n21 b + n13 a * n31 b + n14 a * n41 b)
     (n21 a * n11 b + n22 a * n21 b + n23 a * n31 b + n24 a * n41 b)
     (n31 a * n11 b + n32 a * n21 b + n33 a * n31 b + n34 a * n41 b)
     (n41 a * n11 b + n42 a * n21 b + n43 a * n31 b + n44 a * n41 b)
     (n11 a * n12 b + n12 a * n22 b + n13 a * n32 b + n14 a * n42 b)
     (n21 a * n12 b + n22 a * n22 b + n23 a * n32 b + n24 a * n42 b)
     (n31 a * n12 b + n32 a * n22 b + n33 a * n32 b + n34 a * n42 b)
     (n41 a * n12 b + n42 a * n22 b + n43 a * n32 b + n44 a * n42 b)
     (n11 a * n13 b + n12 a * n23 b + n13 a * n33 b + n14 a * n43 b)
     (n21 a * n13 b + n22 a * n23 b + n23 a * n33 b + n24 a * n43 b)
     (n31 a * n13 b + n32 a * n23 b + n33 a * n33 b + n34 a * n43 b)
     (n41 a * n13 b + n42 a * n23 b + n43 a * n33 b + n44 a * n43 b)
     (n11 a * n14 b + n12 a * n24 b + n13 a * n34 b + n14 a * n44 b)
     (n21 a * n14 b + n22 a * n24 b + n23 a * n34 b + n24 a * n44 b)
     (n31 a * n14 b + n32 a * n24 b + n33 a * n34 b + n34 a * n44 b)
     (n41 a * n14 b + n42 a * n24 b + n43 a * n34 b + n44 a * n44 b).

(** [Matrix4.invert]: cofactor expansion; a singular matrix inverts to
    the zero matrix. *)
Definition invert (m : t) : t :=
  let n11 := n11 m in let n21 := n21 m in let n31 := n31 m in let n41 := n41 m in
  let n12 := n12 m in let n22 := n22 m in let n32 := n32 m in let n42 := n42 m in
  let n13 := n13 m in let n23 := n23 m in let n33 := n33 m in let n43 := n43 m in
  let n14 := n14 m in let n24 := n24 m in let n34 := n34 m in let n44 := n44 m in
  let t11 := n23 * n34 * n42 - n24 * n33 * n42 + n24 * n32 * n43
             - n22 * n34 * n43 - n23 * n32 * n44 + n22 * n33 * n44 in
  let t12 := n14 * n33 * n42 - n13 * n34 * n42 - n14 * n32 * n43
             + n12 * n34 * n43 + n13 * n32 * n44 - n12 * n33 * n44 in
  let t13 := n13 * n24 * n42 - n14 * n23 * n42 + n14 * n22 * n43
             - n12 * n24 * n43 - n13 * n22 * n44 + n12 * n23 * n44 in
  let t14 := n14 * n23 * n32 - n13 * n24 * n32 - n14 * n22 * n33
             + n12 * n24 * n33 + n13 * n22 * n34 - n12 * n23 * n34 in
  let det := n11 * t11 + n21 * t12 + n31 * t13 + n41 * t14 in
  if det =? 0 then zeroMatrix else
  let detInv := 1 / det in
  mk (t11 * detInv)
     ((n24 * n33 * n41 - n23 * n34 * n41 - n24 * n31 * n43
       + n21 * n34 * n43 + n23 * n31 * n44 - n21 * n33 * n44) * detInv)
     ((n22 * n34 * n41 - n24 * n32 * n41 + n24 * n31 * n42
       - n21 * n34 * n42 - n22 * n31 * n44 + n21 * n32 * n44) * detInv)
     ((n23 * n32 * n41 - n22 * n33 * n41 - n23 * n31 * n42
       + n21 * n33 * n42 + n22 * n31 * n43 - n21 * n32 * n43) * detInv)
     (t12 * detInv)
     ((n13 * n34 * n41 - n14 * n33 * n41 + n14 * n31 * n43
       - n11 * n34 * n43 - n13 * n31 * n44 + n11 * n33 * n44) * detInv)
     ((n14 * n32 * n41 - n12 * n34 * n41 - n14 * n31 * n42
       + n11 * n34 * n42 + n12 * n31 * n44 - n11 * n32 * n44) * detInv)
     ((n12 * n33 * n41 - n13 * n32 * n41 + n13 * n31 * n42
       - n11 * n33 * n42 - n12 * n31 * n43 + n11 * n32 * n43) * detInv)
     (t13 * detInv)
     ((n14 * n23 * n41 - n13 * n24 * n41 - n14 * n21 * n43
       + n11 * n24 * n43 + n13 * n21 * n44 - n11 * n23 * n44) * detInv)
     ((n12 * n24 * n41 - n14 * n22 * n41 + n14 * n21 * n42
       - n11 * n24 * n42 - n12 * n21 * n44 + n11 * n22 * n44) * detInv)
     ((n13 * n22 * n41 - n12 * n23 * n41 - n13 * n21 * n42
       + n11 * n23 * n42 + n12 * n21 * n43 - n11 * n22 * n43) * detInv)
     (t14 * detInv)
     ((n13 * n24 * n31 - n14 * n23 * n31 + n14 * n21 * n33
       - n11 * n24 * n33 - n13 * n21 * n34 + n11 * n23 * n34) * detInv)
     ((n14 * n22 * n31 - n12 * n24 * n31 - n14 * n21 * n32
       + n11 * n24 * n32 + n12 * n21 * n34 - n11 * n22 * n34) * detInv)
     ((n12 * n23 * n31 - n13 * n22 * n31 + n13 * n21 * n32
       - n11 * n23 * n32 - n12 * n21 * n33 + n11 * n22 * n33) * detInv).
End Matrix4.

Module Vector3.
Local Open Scope float_scope.

Record t : Type := mk { x : float; y : float; z : float }.

(** [new Vector3(x, y, z)] when a component may be [undefined]: the
    constructor's default parameter value [0] is used for it. *)
Definition ofOptions (ox oy oz : option float) : t :=
  {| x := match ox with Some a => a | None => 0 end;
     y := match oy with Some a => a | None => 0 end;
     z := match oz with Some a => a | None => 0 end |}.

Definition sub (a b : t) : t :=
  {| x := x a - x b; y := y a - y b; z := z a - z b |}.

Definition add (a b : t) : t :=
  {| x := x a + x b; y := y a + y b; z := z a + z b |}.

Definition multiply (a b : t) : t :=
  {| x := x a * x b; y := y a * y b; z := z a * z b |}.

(** [a.min(b)] and [a.max(b)]: componentwise [Math.min], [Math.max]. *)
Definition min (a b : t) : t :=
  {| x := JS.min2 (x a) (x b); y := JS.min2 (y a) (y b); z := JS.min2 (z a) (z b) |}.

Definition max (a b : t) : t :=
  {| x := JS.max2 (x a) (x b); y := JS.max2 (y a) (y b); z := JS.max2 (z a) (z b) |}.

Definition multiplyScalar (a : t) (k : float) : t :=
  {| x := x a * k; y := y a * k; z := z a * k |}.

(** [new Vector3().subVectors(a, b)]. *)
Definition subVectors (a b : t) : t := sub a b.

(** [new Vector3().crossVectors(a, b)]. *)
Definition crossVectors (a b : t) : t :=
  {| x := y a * z b - z a * y b;
     y := z a * x b - x a * z b;
     z := x a * y b - y a * x b |}.

(** [length()]: [Math.sqrt(x*x + y*y + z*z)]. *)
Definition length (a : t) : float :=
  JS.Math_sqrt (x a * x a + y a * y a + z a * z a).

(** [new Vector3().copy(a).lerp(b, alpha)]:
    [this.x += (v.x - this.x) * alpha]. *)
Definition lerp (a b : t) (alpha : float) : t :=
  {| x := x a + (x b - x a) * alpha;
     y := y a + (y b - y a) * alpha;
     z := z a + (z b - z a) * alpha |}.

(** [p.clone().applyMatrix4(m)], with the perspective divide. *)
Definition applyMatrix4 (p : t) (m : Matrix4.t) : t :=
  let w := 1 / (Matrix4.n41 m * x p + Matrix4.n42 m * y p
                + Matrix4.n43 m * z p + Matrix4.n44 m) in
  {| x := (Matrix4.n11 m * x p + Matrix4.n12 m * y p
           + Matrix4.n13 m * z p + Matrix4.n14 m) * w;
     y := (Matrix4.n21 m * x p + Matrix4.n22 m * y p
           + Matrix4.n23 m * z p + Matrix4.n24 m) * w;
     z := (Matrix4.n31 m * x p + Matrix4.n32 m * y p
           + Matrix4.n33 m * z p + Matrix4.n34 m) * w |}.
End Vector3.

(** ** Buffer geometries *)

Module BufferGeometry.
Local Open Scope float_scope.

(** A geometry is its optional index, the flat array of its [position]
    attribute (item size 3) and the flat array of its optional [uv]
    attribute (item size 2). *)
Record t : Type := mk {
  index : option (list nat);
  position : list float;
  uv : option (list float)
}.

(** [BufferAttribute.count] is [array.length / itemSize]; [i < count]
    is therefore [i * itemSize < array.length]. *)
Definition below_count (itemSize : nat) (array : list float) (i : nat) : bool :=
  (i * itemSize <? List.length array)%nat.

(** [attr.getX(i)], [getY], [getZ]: [array[i * itemSize + k]], which is
    [undefined] past the end of the array. *)
Definition getX (itemSize : nat) (array : list float) (i : nat) : option float :=
  nth_error array (i * itemSize).
Definition getY (itemSize : nat) (array : list float) (i : nat) : option float :=
  nth_error array (i * itemSize + 1).
Definition getZ (itemSize : nat) (array : list float) (i : nat) : option float :=
  nth_error array (i * itemSize + 2).

(** Copying an attribute through the index, as [toNonIndexed] does
    into a fresh typed array: a missing source entry is stored as NaN. *)
Definition expand (itemSize : nat) (array : list float) (idx : list nat) : list float :=
  flat_map (fun i =>
              map (fun k => nth (i * itemSize + k) array nan) (seq 0 itemSize))
           idx.

Definition toNonIndexed (g : t) : t :=
  match index g with
  | Some idx =>
      {| index := None;
         position := expand 3 (position g) idx;
         uv := option_map (fun a => expand 2 a idx) (uv g) |}
  | None => g
  end.

Definition clone (g : t) : t := g.

(** [geometry.applyMatrix4(m)] on the position attribute: every vertex
    is transformed and stored back into the [Float32Array]; a trailing
    incomplete vertex reads [undefined] components and becomes NaN. *)
Fixpoint applyToPositions (m : Matrix4.t) (a : list float) : list float :=
  match a with
  | px :: py :: pz :: rest =>
      let q := Vector3.applyMatrix4 (Vector3.mk px py pz) m in
      JS.Math_fround (Vector3.x q) :: JS.Math_fround (Vector3.y q)
        :: JS.Math_fround (Vector3.z q) :: applyToPositions m rest
  | rest => map (fun _ => nan) rest
  end.

Definition applyMatrix4 (g : t) (m : Matrix4.t) : t :=
  {| index := index g;
     position := applyToPositions m (position g);
     uv := uv g |}.

(** The vertices read by [fromBufferAttribute(position, i)] for
    [i < count]; a trailing incomplete vertex has [undefined]
    components, which behave as NaN in [Math.min] and [Math.max]. *)
Fixpoint vertices (a : list float) : list Vector3.t :=
  match a with
  | px :: py :: pz :: rest => Vector3.mk px py pz :: vertices rest
  | [] => []
  | px :: rest => [Vector3.mk px (hd nan rest) nan]
  end.

(** [g.attributes.position.count > 0]. *)
Definition hasVertices (g : t) : bool := (0 <? List.length (position g))%nat.
End BufferGeometry.

Module Quaternion.
Record t : Type := mk { x : float; y : float; z : float; w : float }.

Definition identity : t := mk 0 0 0 1.
End Quaternion.

Module Object3D.
Local Open Scope float_scope.

(** [new Matrix4().compose(position, quaternion, scale)], the local
    matrix of an object. *)
Definition compose (position : Vector3.t) (quaternion : Quaternion.t)
           (scale : Vector3.t) : Matrix4.t :=
  let x := Quaternion.x quaternion in
  let y := Quaternion.y quaternion in
  let z := Quaternion.z quaternion in
  let w := Quaternion.w quaternion in
  let x2 := x + x in let y2 := y + y in let z2 := z + z in
  let xx := x * x2 in let xy := x * y2 in let xz := x * z2 in
  let yy := y * y2 in let yz := y * z2 in let zz := z * z2 in
  let wx := w * x2 in let wy := w * y2 in let wz := w * z2 in
  let sx := Vector3.x scale in
  let sy := Vector3.y scale in
  let sz := Vector3.z scale in
  Matrix4.mk ((1 - (yy + zz)) * sx) ((xy + wz) * sx) ((xz - wy) * sx) 0
             ((xy - wz) * sy) ((1 - (xx + zz)) * sy) ((yz + wx) * sy) 0
             ((xz + wy) * sz) ((yz - wx) * sz) ((1 - (xx + yy)) * sz) 0
             (Vector3.x position) (Vector3.y position) (Vector3.z position) 1.
End Object3D.

(** ** The polygon clipper: [clipMeshKeepInside] and its closures *)

Module Clipper.
Local Open Scope float_scope.

Definition EPS : float := 1e-7.

(** The three property names used as plane axes. *)
Inductive Axis : Type := AxisX | AxisY | AxisZ.

(** [p[axis]] for a vector [p]. *)
Definition component (axis : Axis) (p : Vector3.t) : float :=
  match axis with
  | AxisX => Vector3.x p
  | AxisY => Vector3.y p
  | AxisZ => Vector3.z p
  end.

Record Plane : Type := mkPlane { axis : Axis; s : float; limit : float }.

(** The vertex struct built by [makeV] and [intersect]: world position
    [pw], box-local position [pb], and [uv], a property that exists
    only when the geometry has UVs. *)
Record Vertex : Type := mkVertex {
  pw : Vector3.t;
  pb : Vector3.t;
  uv : option Vector2.t
}.

Definition Polygon : Type := list Vertex.

Section Closures.
(** [hasUV] is captured by [makeV] and [intersect]. *)
Variable hasUV : bool.

(** The interpolation parameter of [intersect], from the two
    coordinates along the plane axis. *)
Definition intersect_t (a b limit : float) : float :=
  let denom := b - a in
  let t := if JS.Math_abs denom <? EPS then 0.5 else (limit - a) / denom in
  let t := if negb (JS.Number_isFinite t) then 0.5 else t in
  if t <? 0 then 0 else if 1 <? t then 1 else t.

(** [intersect(A, B, axis, limit)].  Every vertex of a run carries
    [uv] exactly when [hasUV] holds (see [clippedPolygon_uv]), so the two
    reads [A.uv], [B.uv] succeed whenever they are made. *)
Definition intersect (A B : Vertex) (axis : Axis) (limit : float) : Vertex :=
  let t := intersect_t (component axis (pb A)) (component axis (pb B)) limit in
  {| pw := Vector3.lerp (pw A) (pw B) t;
     pb := Vector3.lerp (pb A) (pb B) t;
     uv := if hasUV
           then match uv A, uv B with
                | Some ua, Some ub => Some (Vector2.lerp ua ub t)
                | _, _ => None
                end
           else None |}.

(** [getCoord] and [isInside] of [clipByPlane]. *)
Definition getCoord (plane : Plane) (p : Vertex) : float :=
  component (axis plane) (pb p).

Definition isInside (plane : Plane) (p : Vertex) : bool :=
  s plane * getCoord plane p <=? limit plane + EPS.

(** The body of the [for] loop of [clipByPlane] at index [i], as a
    function of the array [res] built so far.  The two reads
    [poly[i]] and [poly[(i + n - 1) % n]] are in range for every
    index the loop visits. *)
Definition clipStep (poly : Polygon) (plane : Plane)
           (res : Polygon) (i : nat) : Polygon :=
  match nth_error poly i,
        nth_error poly ((i + List.length poly - 1) mod List.length poly) with
  | Some cur, Some prev =>
      let curIn := isInside plane cur in
      let prevIn := isInside plane prev in
      if curIn && prevIn then res ++ [cur]
      else if prevIn && negb curIn
           then res ++ [intersect prev cur (axis plane) (limit plane)]
      else if negb prevIn && curIn
           then (res ++ [intersect prev cur (axis plane) (limit plane)]) ++ [cur]
      else res
  | _, _ => res
  end.

(** [clipByPlane(poly, plane)]. *)
Definition clipByPlane (poly : Polygon) (plane : Plane) : Polygon :=
  if (List.length poly =? 0)%nat then []
  else fold_left (clipStep poly plane) (seq 0 (List.length poly)) [].
End Closures.

(** A fan triangle that passed the area filter. *)
Definition Triangle : Type := (Vertex * Vertex * Vertex)%type.

Section clipMeshKeepInside.
(** [child.geometry], [child.matrixWorld] and the two arguments
    [invBoxMatrixWorld] and [half]. *)
Variable geom : BufferGeometry.t.
Variable localToWorld : Matrix4.t.
Variable invBoxMatrixWorld : Matrix4.t.
Variable half : Vector3.t.

Definition src : BufferGeometry.t :=
  match BufferGeometry.index geom with
  | Some _ => BufferGeometry.toNonIndexed geom
  | None => BufferGeometry.clone geom
  end.

Definition pos : list float := BufferGeometry.position src.
Definition uvAttr : option (list float) := BufferGeometry.uv src.
Definition hasUV : bool :=
  match uvAttr with Some _ => true | None => false end.
Definition worldToLocal : Matrix4.t := Matrix4.invert localToWorld.

Definition toBox (p : Vector3.t) : Vector3.t :=
  Vector3.applyMatrix4 p invBoxMatrixWorld.

Definition insideX (v : Vector3.t) : bool :=
  (Vector3.x v <=? Vector3.x half + EPS)
  && (- Vector3.x half - EPS <=? Vector3.x v).
Definition insideY (v : Vector3.t) : bool :=
  (Vector3.y v <=? Vector3.y half + EPS)
  && (- Vector3.y half - EPS <=? Vector3.y v).
Definition insideZ (v : Vector3.t) : bool :=
  (Vector3.z v <=? Vector3.z half + EPS)
  && (- Vector3.z half - EPS <=? Vector3.z v).

Definition planes : list Plane :=
  [ mkPlane AxisX 1 (Vector3.x half);
    mkPlane AxisX (-1) (Vector3.x half);
    mkPlane AxisY 1 (Vector3.y half);
    mkPlane AxisY (-1) (Vector3.y half);
    mkPlane AxisZ 1 (Vector3.z half);
    mkPlane AxisZ (-1) (Vector3.z half) ].

(** [makeV(i)].  Reading an attribute past its end gives
    [undefined], which the vector constructors replace by [0]. *)
Definition makeV (i : nat) : Vertex :=
  let pw := Vector3.applyMatrix4
              (Vector3.ofOptions (BufferGeometry.getX 3 pos i)
                                 (BufferGeometry.getY 3 pos i)
                                 (BufferGeometry.getZ 3 pos i))
              localToWorld in
  let pb := Vector3.applyMatrix4 pw invBoxMatrixWorld in
  {| pw := pw;
     pb := pb;
     uv := match uvAttr with
           | Some a =>
               Some (Vector2.mk
                       (match BufferGeometry.getX 2 a i with
                        | Some c => c | None => 0 end)
                       (match BufferGeometry.getY 2 a i with
                        | Some c => c | None => 0 end))
           | None => None
           end |}.

(** The quick test: all three vertices within the box on every axis. *)
Definition allInside (poly : Polygon) : bool :=
  forallb (fun p => insideX (pb p) && insideY (pb p) && insideZ (pb p)) poly.

(** [for (const plane of planes) { poly = clipByPlane(poly, plane);
    if (poly.length === 0) break }]. *)
Fixpoint clipAll (poly : Polygon) (ps : list Plane) : Polygon :=
  match ps with
  | [] => poly
  | plane :: rest =>
      let poly' := clipByPlane hasUV poly plane in
      if (List.length poly' =? 0)%nat then poly' else clipAll poly' rest
  end.

(** The polygon that reaches the triangulation for the triangle
    starting at vertex [i]. *)
Definition clippedPolygon (i : nat) : Polygon :=
  let poly := [makeV i; makeV (i + 1); makeV (i + 2)] in
  if allInside poly then poly else clipAll poly planes.

(** The area test of the fan. *)
Definition area2 (v0 v1 v2 : Vertex) : float :=
  let e1 := Vector3.subVectors (pw v1) (pw v0) in
  let e2 := Vector3.subVectors (pw v2) (pw v0) in
  Vector3.length (Vector3.crossVectors e1 e2).

Definition scale : float :=
  JS.Math_max [Vector3.x half; Vector3.y half; Vector3.z half].

(** The condition of the [continue] inside the fan loop. *)
Definition rejected (v0 v1 v2 : Vertex) : bool :=
  negb (JS.Number_isFinite (area2 v0 v1 v2))
  || (area2 v0 v1 v2 <=? scale * 1e-7).

(** The body of the fan loop at index [k]: the triangle it pushes,
    if any. *)
Definition fanStep (poly : Polygon) (v0 : Vertex) (k : nat) : list Triangle :=
  match nth_error poly k, nth_error poly (k + 1) with
  | Some v1, Some v2 => if rejected v0 v1 v2 then [] else [(v0, v1, v2)]
  | _, _ => []
  end.

(** [for (let k = 1; k < poly.length - 1; k++)] from [v0 = poly[0]]. *)
Definition fan (poly : Polygon) : list Triangle :=
  match poly with
  | [] => []
  | v0 :: _ => flat_map (fanStep poly v0) (seq 1 (List.length poly - 2))
  end.

(** One iteration of the outer loop: the triangles pushed for the
    source triangle starting at vertex [i]. *)
Definition processTriangle (i : nat) : list Triangle :=
  let poly := clippedPolygon i in
  if (List.length poly <? 3)%nat then [] else fan poly.

(** The values of [i] visited by
    [for (let i = 0; i < pos.count; i += 3)]: [i = 3k] with
    [3k < pos.length / 3]. *)
Definition triangleStarts : list nat :=
  map (fun k => 3 * k)%nat (seq 0 ((List.length pos + 8) / 9)).

Definition emitted : list Triangle := flat_map processTriangle triangleStarts.

(** The nine numbers pushed to [outPos] for a triangle. *)
Definition pushPos (tri : Triangle) : list float :=
  let '(v0, v1, v2) := tri in
  let p0 := Vector3.applyMatrix4 (pw v0) worldToLocal in
  let p1 := Vector3.applyMatrix4 (pw v1) worldToLocal in
  let p2 := Vector3.applyMatrix4 (pw v2) worldToLocal in
  [ Vector3.x p0; Vector3.y p0; Vector3.z p0;
    Vector3.x p1; Vector3.y p1; Vector3.z p1;
    Vector3.x p2; Vector3.y p2; Vector3.z p2 ].

(** The numbers pushed to [outUV] for a triangle (under [hasUV]). *)
Definition uvPair (v : Vertex) : list float :=
  match uv v with
  | Some c => [Vector2.x c; Vector2.y c]
  | None => []
  end.

Definition pushUV (tri : Triangle) : list float :=
  let '(v0, v1, v2) := tri in
  if hasUV then uvPair v0 ++ uvPair v1 ++ uvPair v2 else [].

Definition outPos : list float := flat_map pushPos emitted.
Definition outUV : list float := flat_map pushUV emitted.

(** [clipMeshKeepInside(child, invBoxMatrixWorld, half)]; [None] is
    [null]. *)
Definition clipMeshKeepInside : option BufferGeometry.t :=
  if (List.length outPos =? 0)%nat then None
  else Some {| BufferGeometry.index := None;
               BufferGeometry.position := map JS.Math_fround outPos;
               BufferGeometry.uv :=
                 if hasUV then Some (map JS.Math_fround outUV) else None |}.
End clipMeshKeepInside.
End Clipper.

(** ** Bounding boxes *)

Module Box3.
Local Open Scope float_scope.

Record t : Type := mk { min : Vector3.t; max : Vector3.t }.

(** [new Box3()], the empty box. *)
Definition empty : t :=
  mk (Vector3.mk infinity infinity infinity)
     (Vector3.mk neg_infinity neg_infinity neg_infinity).

Definition isEmpty (b : t) : bool :=
  (Vector3.x (max b) <? Vector3.x (min b))
  || (Vector3.y (max b) <? Vector3.y (min b))
  || (Vector3.z (max b) <? Vector3.z (min b)).

Definition expandByPoint (b : t) (p : Vector3.t) : t :=
  mk (Vector3.min (min b) p) (Vector3.max (max b) p).

Definition setFromPoints (ps : list Vector3.t) : t :=
  fold_left expandByPoint ps empty.

(** [geometry.computeBoundingBox()]. *)
Definition ofGeometry (g : BufferGeometry.t) : t :=
  setFromPoints (BufferGeometry.vertices (BufferGeometry.position g)).

(** [box.applyMatrix4(m)]: the box of the eight transformed corners. *)
Definition applyMatrix4 (b : t) (m : Matrix4.t) : t :=
  if isEmpty b then b else
  let lo := min b in
  let hi := max b in
  setFromPoints
    (map (fun p => Vector3.applyMatrix4 p m)
       [ Vector3.mk (Vector3.x lo) (Vector3.y lo) (Vector3.z lo);
         Vector3.mk (Vector3.x lo) (Vector3.y lo) (Vector3.z hi);
         Vector3.mk (Vector3.x lo) (Vector3.y hi) (Vector3.z lo);
         Vector3.mk (Vector3.x lo) (Vector3.y hi) (Vector3.z hi);
         Vector3.mk (Vector3.x hi) (Vector3.y lo) (Vector3.z lo);
         Vector3.mk (Vector3.x hi) (Vector3.y lo) (Vector3.z hi);
         Vector3.mk (Vector3.x hi) (Vector3.y hi) (Vector3.z lo);
         Vector3.mk (Vector3.x hi) (Vector3.y hi) (Vector3.z hi) ]).

Definition union (a b : t) : t :=
  mk (Vector3.min (min a) (min b)) (Vector3.max (max a) (max b)).

Definition getCenter (b : t) : Vector3.t :=
  if isEmpty b then Vector3.mk 0 0 0
  else Vector3.multiplyScalar (Vector3.add (min b) (max b)) 0.5.

Definition getSize (b : t) : Vector3.t :=
  if isEmpty b then Vector3.mk 0 0 0
  else Vector3.subVectors (max b) (min b).

(** [new Box3().setFromObject(root)] over the objects reached from
    [root], each given by its geometry (if it has one) and its world
    matrix. *)
Definition setFromObject (objs : list (option BufferGeometry.t * Matrix4.t)) : t :=
  fold_left (fun acc o =>
               match fst o with
               | Some g => union acc (applyMatrix4 (ofGeometry g) (snd o))
               | None => acc
               end)
            objs empty.

(** The record [{ minX, maxX, minY, maxY, minZ, maxZ }] handed to the
    callbacks. *)
Record Bounds : Type := mkBounds {
  minX : float; maxX : float;
  minY : float; maxY : float;
  minZ : float; maxZ : float
}.

Definition bounds (b : t) : Bounds :=
  {| minX := Vector3.x (min b); maxX := Vector3.x (max b);
     minY := Vector3.y (min b); maxY := Vector3.y (max b);
     minZ := Vector3.z (min b); maxZ := Vector3.z (max b) |}.
End Box3.

(** ** The destructive crop effect ([useEffect] on [applyCropToken]) *)

Module Crop.
Local Open Scope float_scope.

(** A node visited by [sceneObject.traverse], with the fields the
    effect reads and writes.  [matrixWorld] is the value after
    [sceneObject.updateMatrixWorld(true)]. *)
Record Node : Type := mkNode {
  isMesh : bool;
  isSkinnedMesh : bool;
  geometry : option BufferGeometry.t;
  matrixWorld : Matrix4.t;
  visible : bool
}.

(** What the effect does besides updating nodes, in program order. *)
Inductive Event : Type :=
| OnApplyStart
| CallCSG (a b : BufferGeometry.t)
| CallClipper (g : BufferGeometry.t)
| CallMergeVertices (g : BufferGeometry.t)
| Dispose (g : BufferGeometry.t)
| ConsoleWarn
| OnError
| OnCropBounds (b : Box3.Bounds)
| OnApplied (b : Box3.Bounds).

(** The component state the effect closes over. *)
Record Viewer : Type := mkViewer {
  sceneObject : option (list Node);
  boxHelper : option Quaternion.t;
  group : option Quaternion.t
}.

Record Props : Type := mkProps {
  applyCropToken : nat;
  cropEnabled : bool;
  crop : option Box3.Bounds;
  pairedRotation : bool
}.

Section Effect.
(** The two library entry points that may throw, and the box
    constructor. *)
Variable CSG_intersect :
  BufferGeometry.t -> BufferGeometry.t -> JS.completion BufferGeometry.t.
Variable mergeVertices :
  BufferGeometry.t -> float -> JS.completion BufferGeometry.t.
Variable BoxGeometry : float -> float -> float -> BufferGeometry.t.

(** [let cleaned = g; try { cleaned = mergeVertices(cleaned, 1e-5) }
    catch {}], followed by the recomputation of normals and bounds,
    which touch neither index, positions nor UVs. *)
Definition cleanup (g : BufferGeometry.t) : BufferGeometry.t :=
  match mergeVertices g 1e-5 with
  | JS.Normal merged => merged
  | JS.Throw => g
  end.

(** [child.geometry.dispose(); child.geometry = cleaned;
    child.visible = true]. *)
Definition commit (child : Node) (cleaned : BufferGeometry.t) : Node :=
  {| isMesh := isMesh child;
     isSkinnedMesh := isSkinnedMesh child;
     geometry := Some cleaned;
     matrixWorld := matrixWorld child;
     visible := true |}.

Definition hide (child : Node) : Node :=
  {| isMesh := isMesh child;
     isSkinnedMesh := isSkinnedMesh child;
     geometry := geometry child;
     matrixWorld := matrixWorld child;
     visible := false |}.

(** The value of [resultMesh] after the inner [try]: [null] when
    [CSG.intersect] threw. *)
Definition csgResult (a b : BufferGeometry.t) : option BufferGeometry.t :=
  match CSG_intersect a b with
  | JS.Normal r => Some r
  | JS.Throw => None
  end.

Definition halfExtent (size : Vector3.t) (eps : float) : Vector3.t :=
  Vector3.mk (Vector3.x size * 0.5 + eps)
             (Vector3.y size * 0.5 + eps)
             (Vector3.z size * 0.5 + eps).

(** The [else] branch: the polygon clipper. *)
Definition fallback (boxMatrixWorld : Matrix4.t) (size : Vector3.t)
           (eps : float) (child : Node) (g : BufferGeometry.t)
  : Node * list Event :=
  let invBox := Matrix4.invert boxMatrixWorld in
  let half := halfExtent size eps in
  match Clipper.clipMeshKeepInside g (matrixWorld child) invBox half with
  | Some newGeom =>
      (commit child (cleanup newGeom),
       [CallClipper g; CallMergeVertices newGeom; Dispose g])
  | None => (hide child, [CallClipper g])
  end.

(** The callback passed to [traverse], for one node. *)
Definition cropChild (boxGeo : BufferGeometry.t) (boxMatrixWorld : Matrix4.t)
           (size : Vector3.t) (eps : float) (child : Node)
  : Node * list Event :=
  match geometry child with
  | None => (child, [])
  | Some g =>
      if negb (isMesh child) then (child, [])
      else if isSkinnedMesh child then (child, [])
      else
        let aGeoWorld :=
          BufferGeometry.applyMatrix4 (BufferGeometry.clone g) (matrixWorld child) in
        let bGeoWorld :=
          BufferGeometry.applyMatrix4 (BufferGeometry.clone boxGeo) boxMatrixWorld in
        let resultMesh := csgResult aGeoWorld bGeoWorld in
        (* [resultMesh && resultMesh.geometry &&
           resultMesh.geometry.attributes?.position?.count > 0] *)
        match resultMesh with
        | Some r =>
            if BufferGeometry.hasVertices r then
              let invChildWorld := Matrix4.invert (matrixWorld child) in
              let resLocal :=
                BufferGeometry.applyMatrix4 (BufferGeometry.clone r) invChildWorld in
              (commit child (cleanup resLocal),
               [CallCSG aGeoWorld bGeoWorld; CallMergeVertices resLocal; Dispose g])
            else
              let '(child', evs) := fallback boxMatrixWorld size eps child g in
              (child', CallCSG aGeoWorld bGeoWorld :: evs)
        | None =>
            let '(child', evs) := fallback boxMatrixWorld size eps child g in
            (child', CallCSG aGeoWorld bGeoWorld :: evs)
        end
  end.

(** [sceneObject.traverse(...)]: the callback on every node in
    order, collecting the events. *)
Fixpoint traverse (f : Node -> Node * list Event) (nodes : list Node)
  : list Node * list Event :=
  match nodes with
  | [] => ([], [])
  | n :: rest =>
      let '(n', ev) := f n in
      let '(rest', evs) := traverse f rest in
      (n' :: rest', ev ++ evs)
  end.

Definition cropSize (c : Box3.Bounds) : Vector3.t :=
  Vector3.mk (Box3.maxX c - Box3.minX c)
             (Box3.maxY c - Box3.minY c)
             (Box3.maxZ c - Box3.minZ c).

Definition cropCenter (c : Box3.Bounds) : Vector3.t :=
  Vector3.mk ((Box3.minX c + Box3.maxX c) / 2)
             ((Box3.minY c + Box3.maxY c) / 2)
             ((Box3.minZ c + Box3.maxZ c) / 2).

(** The guard [size.x <= 0 || size.y <= 0 || size.z <= 0]. *)
Definition invalidSize (size : Vector3.t) : bool :=
  (Vector3.x size <=? 0) || (Vector3.y size <=? 0) || (Vector3.z size <=? 0).

(** The quaternion copied into [boxMesh]. *)
Definition boxQuaternion (p : Props) (v : Viewer) : Quaternion.t :=
  match pairedRotation p, group v with
  | true, Some q => q
  | _, _ => match boxHelper v with
            | Some q => q
            | None => Quaternion.identity
            end
  end.

(** The effect: the viewer state afterwards and the events, in
    order.  Clipping planes of materials and the renderer flag are
    outside the model. *)
Definition applyCrop (p : Props) (v : Viewer) : Viewer * list Event :=
  if (applyCropToken p =? 0)%nat then (v, [])
  else
    match sceneObject v, cropEnabled p, crop p with
    | Some nodes, true, Some c =>
        let size := cropSize c in
        if invalidSize size then (v, [OnApplyStart])
        else
          let center := cropCenter c in
          let eps :=
            JS.Math_max [Vector3.x size; Vector3.y size; Vector3.z size] * 1e-5 in
          let boxGeo := BoxGeometry (Vector3.x size + eps) (Vector3.y size + eps)
                                    (Vector3.z size + eps) in
          let boxMatrixWorld :=
            Object3D.compose center (boxQuaternion p v) (Vector3.mk 1 1 1) in
          let '(nodes', evs) :=
            traverse (cropChild boxGeo boxMatrixWorld size eps) nodes in
          let newBox :=
            Box3.setFromObject (map (fun n => (geometry n, matrixWorld n)) nodes') in
          let b := Box3.bounds newBox in
          ({| sceneObject := Some nodes'; boxHelper := None; group := group v |},
           [OnApplyStart] ++ evs ++ [OnCropBounds b; OnApplied b])
    | _, _, _ => (v, [])
    end.
End Effect.
End Crop.

(** ** The real-world sizing effect ([useEffect] on [sizeRequest]) *)

Module Size.
Local Open Scope float_scope.

(** A mesh below [sceneObject], by its matrix relative to
    [sceneObject] and its geometry. *)
Record Child : Type := mkChild {
  matrix : Matrix4.t;
  geometry : option BufferGeometry.t
}.

(** [group.current] (its position and its world matrix as last
    updated) and [sceneObject] (position, quaternion, scale and the
    meshes below it). *)
Record Scene : Type := mkScene {
  groupPosition : Vector3.t;
  groupMatrixWorld : Matrix4.t;
  position : Vector3.t;
  quaternion : Quaternion.t;
  scale : Vector3.t;
  children : list Child
}.

(** [sizeRequest.anchor] is one of the strings ['x'], ['y'], ['z'];
    the component treats anything that is neither ['x'] nor ['y'] as
    ['z']. *)
Inductive Anchor : Type := AnchorX | AnchorY | AnchorZ.

Record SizeRequest : Type := mkSizeRequest {
  targetCm : option Vector3.t;
  lockAspect : bool;
  anchor : Anchor
}.

(** [sceneObject.matrixWorld] once updated from its position,
    quaternion and scale. *)
Definition matrixWorld (sc : Scene) : Matrix4.t :=
  Matrix4.multiplyMatrices (groupMatrixWorld sc)
    (Object3D.compose (position sc) (quaternion sc) (scale sc)).

(** [new THREE.Box3().setFromObject(sceneObject)]. *)
Definition worldBox (sc : Scene) : Box3.t :=
  Box3.setFromObject
    (map (fun c => (geometry c, Matrix4.multiplyMatrices (matrixWorld sc) (matrix c)))
         (children sc)).

(** The guard [targetCm.x > 0 && targetCm.y > 0 && targetCm.z > 0]. *)
Definition positiveTarget (t : Vector3.t) : bool :=
  (0 <? Vector3.x t) && (0 <? Vector3.y t) && (0 <? Vector3.z t).

(** The factors [sx], [sy], [sz] after the [lockAspect] replacement. *)
Definition factors (t : Vector3.t) (lock : bool) (a : Anchor) (size : Vector3.t)
  : Vector3.t :=
  let curCm := Vector3.mk (Vector3.x size * 100) (Vector3.y size * 100)
                          (Vector3.z size * 100) in
  let sx := Vector3.x t / Vector3.x curCm in
  let sy := Vector3.y t / Vector3.y curCm in
  let sz := Vector3.z t / Vector3.z curCm in
  if lock then
    let r := match a with AnchorX => sx | AnchorY => sy | AnchorZ => sz end in
    Vector3.mk r r r
  else Vector3.mk sx sy sz.

(** The five statements that move and scale the objects. *)
Definition scaleAboutCenter (sc : Scene) (center f : Vector3.t) : Scene :=
  let gp1 := Vector3.sub (groupPosition sc) center in
  let op1 := Vector3.sub (position sc) center in
  let s1 := Vector3.multiply (scale sc) f in
  let gp2 := Vector3.add gp1 center in
  let op2 := Vector3.add op1 center in
  {| groupPosition := gp2;
     groupMatrixWorld := groupMatrixWorld sc;
     position := op2;
     quaternion := quaternion sc;
     scale := s1;
     children := children sc |}.

(** The effect.  [None] is an early [return]: nothing is changed and
    [onAppliedSize] is not called.  Otherwise the scene afterwards and
    the bounds passed to [onAppliedSize]. *)
Definition applySize (sceneObject : option Scene) (sizeRequest : option SizeRequest)
  : option (Scene * Box3.Bounds) :=
  match sceneObject, sizeRequest with
  | Some sc, Some req =>
      match targetCm req with
      | None => None
      | Some t =>
          if negb (positiveTarget t) then None
          else
            let box := worldBox sc in
            let size := Box3.getSize box in
            if (Vector3.x size =? 0) || (Vector3.y size =? 0) || (Vector3.z size =? 0)
            then None
            else
              let f := factors t (lockAspect req) (anchor req) size in
              if negb (JS.Number_isFinite (Vector3.x f))
                 || negb (JS.Number_isFinite (Vector3.y f))
                 || negb (JS.Number_isFinite (Vector3.z f))
              then None
              else
                let center := Box3.getCenter box in
                let sc' := scaleAboutCenter sc center f in
                Some (sc', Box3.bounds (worldBox sc'))
      end
  | _, _ => None
  end.

(** [centerAndFit(object3d, camera)], as far as the object is concerned:
    [object3d.position.sub(center)]. *)
Definition centerAndFit (sc : Scene) : Scene :=
  let center := Box3.getCenter (worldBox sc) in
  {| groupPosition := groupPosition sc;
     groupMatrixWorld := groupMatrixWorld sc;
     position := Vector3.sub (position sc) center;
     quaternion := quaternion sc;
     scale := scale sc;
     children := children sc |}.

(** The dimensions in centimetres that [App.jsx] derives from bounds. *)
Definition dimsCm (b : Box3.Bounds) : Vector3.t :=
  Vector3.mk ((Box3.maxX b - Box3.minX b) * 100)
             ((Box3.maxY b - Box3.minY b) * 100)
             ((Box3.maxZ b - Box3.minZ b) * 100).

(** [onTargetCm] of [App.jsx]: what an edit [v] of the target fields
    becomes, given the measured dimensions [dimsCm]. *)
Definition onTargetCm (lock : bool) (a : Anchor) (dimsCm : option Vector3.t)
           (v : Vector3.t) : Vector3.t :=
  match lock, dimsCm with
  | true, Some d =>
      let r := match a with
               | AnchorX => Vector3.x v / Vector3.x d
               | AnchorY => Vector3.y v / Vector3.y d
               | AnchorZ => Vector3.z v / Vector3.z d
               end in
      if JS.Number_isFinite r && (0 <? r)
      then Vector3.mk (Vector3.x d * r) (Vector3.y d * r) (Vector3.z d * r)
      else v
  | _, _ => v
  end.
End Size.

(* ------------------------------------------------------------------ *)
(** ** Shared objects *)

(** Geometries and materials are objects that several meshes of a
    scene may share.  Such objects are kept in a store, a list, and a
    mesh names them by their place in it.  [modify st i f] assigns to
    the object at place [i]; a place outside the store names nothing. *)
Module Heap.
Fixpoint modify {A : Type} (st : list A) (i : nat) (f : A -> A) : list A :=
  match st, i with
  | [], _ => []
  | a :: rest, O => f a :: rest
  | a :: rest, S k => a :: modify rest k f
  end.
End Heap.

(* ------------------------------------------------------------------ *)
(** ** Materials and textures *)

(** A texture is an object: the component compares textures by
    identity ([mat.map !== original]) and hands them on.  A texture is
    modelled by its identity. *)
Module Texture.
Definition t : Type := nat.

(** [a === b]. *)
Definition same (a b : t) : bool := (a =? b)%nat.
End Texture.

(** The fields of a material that the component reads or writes.  The
    maps other than [map] are only tested for being set. *)
Module Material.
Record UserData : Type := mkUserData {
  originalMap : option Texture.t
}.

Record t : Type := mk {
  map : option Texture.t;
  userData : option UserData;
  needsUpdate : bool;
  vertexColors : bool;
  normalMap : bool;
  aoMap : bool;
  lightMap : bool
}.

(** [child.material]: missing, one material, or an array of
    materials.  [A] is what stands for a material: the material
    itself, or its place in a store of shared materials. *)
Inductive slot (A : Type) : Type :=
| Missing
| Single (m : A)
| Multi (ms : list A).
Arguments Missing {A}.
Arguments Single {A} m.
Arguments Multi {A} ms.

(** [Array.isArray(child.material) ? child.material : [child.material]]
    after the test that [child.material] is set. *)
Definition mats {A : Type} (s : slot A) : list A :=
  match s with
  | Missing => []
  | Single m => [m]
  | Multi ms => ms
  end.
End Material.

(* ------------------------------------------------------------------ *)
(** ** [pruneGeometryAttributesForExport] *)

Module Prune.
Import String.
Local Open Scope string_scope.

(** [geometry.attributes]: the attributes by name.  What an attribute
    holds plays no part here. *)
Section Attributes.
Variable A : Type.

Definition Attributes : Type := list (string * A).

(** [geom.getAttribute(name)]. *)
Fixpoint getAttribute (geom : Attributes) (name : string) : option A :=
  match geom with
  | [] => None
  | (k, a) :: rest => if String.eqb k name then Some a else getAttribute rest name
  end.

(** [geom.deleteAttribute(name)]. *)
Definition deleteAttribute (geom : Attributes) (name : string) : Attributes :=
  filter (fun ka => negb (String.eqb (fst ka) name)) geom.

Definition has (geom : Attributes) (name : string) : bool :=
  match getAttribute geom name with Some _ => true | None => false end.

(** A node of the scene.  Geometries are shared objects: [geometry]
    is the place of the node's geometry in the store of geometries. *)
Record Node : Type := mkNode {
  isMesh : bool;
  isSkinnedMesh : bool;
  geometry : option nat;
  material : Material.slot Material.t
}.

(** [mat && mat.<field>]: a property read off an array of materials
    is [undefined]. *)
Definition matField (field : Material.t -> bool) (mat : Material.slot Material.t)
  : bool :=
  match mat with
  | Material.Single m => field m
  | _ => false
  end.

(** What the callback of [root.traverse] does to the geometry [geom]
    of the mesh [child]. *)
Definition pruneGeometry (child : Node) (geom : Attributes) : Attributes :=
  let mat := material child in
  let geom :=
    if has geom "color" && negb (matField Material.vertexColors mat)
    then deleteAttribute geom "color" else geom in
  let geom :=
    if has geom "tangent" && negb (matField Material.normalMap mat)
    then deleteAttribute geom "tangent" else geom in
  let geom :=
    if has geom "uv2"
       && negb (matField (fun m => Material.aoMap m || Material.lightMap m) mat)
    then deleteAttribute geom "uv2" else geom in
  if negb (isSkinnedMesh child) then
    let geom :=
      if has geom "skinIndex" then deleteAttribute geom "skinIndex" else geom in
    if has geom "skinWeight" then deleteAttribute geom "skinWeight" else geom
  else geom.

(** The callback of [root.traverse], on the store of geometries. *)
Definition pruneChild (geoms : list Attributes) (child : Node) : list Attributes :=
  if negb (isMesh child) then geoms
  else
    match geometry child with
    | None => geoms
    | Some i => Heap.modify geoms i (pruneGeometry child)
    end.

(** [pruneGeometryAttributesForExport(root)]: [root] lists the nodes
    that [root.traverse] visits, in its order. *)
Definition pruneGeometryAttributesForExport (geoms : list Attributes)
           (root : list Node) : list Attributes :=
  fold_left pruneChild root geoms.
End Attributes.

Arguments getAttribute {A} geom name.
Arguments deleteAttribute {A} geom name.
Arguments has {A} geom name.
Arguments pruneGeometry {A} child geom.
Arguments pruneChild {A} geoms child.
Arguments pruneGeometryAttributesForExport {A} geoms root.

(** The names that the function may delete. *)
Definition prunable : list string :=
  ["color"; "tangent"; "uv2"; "skinIndex"; "skinWeight"].
End Prune.

(* ------------------------------------------------------------------ *)
(** ** The texture cache and the texture effect *)

Module TextureEffect.
Import Material.

(** Materials are shared objects: [Store] holds the materials of the
    scene, and a mesh names its materials by their place in it. *)
Definition Store : Type := list Material.t.

Record Mesh : Type := mkMesh {
  isMesh : bool;
  material : Material.slot nat
}.

(** The materials that [root.traverse] reaches behind the guard
    [child.isMesh && child.material], in the order of the visit. *)
Definition visited (root : list Mesh) : list nat :=
  flat_map (fun child => if isMesh child then Material.mats (material child) else [])
           root.

(** [mat.userData] after [if (!mat.userData) mat.userData = {}]. *)
Definition userDataOf (mat : Material.t) : UserData :=
  match userData mat with
  | Some u => u
  | None => mkUserData None
  end.

Definition setUserData (mat : Material.t) (u : UserData) : Material.t :=
  Material.mk (map mat) (Some u) (needsUpdate mat) (vertexColors mat)
              (normalMap mat) (aoMap mat) (lightMap mat).

(** [mat.map = t; mat.needsUpdate = true]. *)
Definition setMap (mat : Material.t) (t : Texture.t) : Material.t :=
  Material.mk (Some t) (userData mat) true (vertexColors mat)
              (normalMap mat) (aoMap mat) (lightMap mat).

(** [cacheOriginalTextures(root)].  [image t] tells whether the
    texture [t] has its [image] set. *)
Section Cache.
Variable image : Texture.t -> bool.

(** The body of [mats.forEach]. *)
Definition cacheMaterial (mat : Material.t) : Material.t :=
  match map mat with
  | Some t =>
      if image t then
        let u := userDataOf mat in
        match originalMap u with
        | Some _ => setUserData mat u
        | None => setUserData mat (mkUserData (Some t))
        end
      else mat
  | None => mat
  end.

Definition cacheOriginalTextures (st : Store) (root : list Mesh) : Store :=
  fold_left (fun st i => Heap.modify st i cacheMaterial) (visited root) st.
End Cache.

(** [mat.userData.originalMap || mat.map], where [mat.map] is [t]. *)
Definition original (mat : Material.t) (t : Texture.t) : Texture.t :=
  match originalMap (userDataOf mat) with
  | Some o => o
  | None => t
  end.

(** The first three statements of the effect for a material with a
    map [t]: they make sure [userData.originalMap] is set. *)
Definition prepare (mat : Material.t) (t : Texture.t) : Material.t :=
  let u := userDataOf mat in
  match originalMap u with
  | Some _ => setUserData mat u
  | None => setUserData mat (mkUserData (Some (original mat t)))
  end.

(** The effect on one material when all four controls are zero: the
    material afterwards and the textures disposed of. *)
Definition resetMaterial (mat : Material.t) : Material.t * list Texture.t :=
  match map mat with
  | None => (mat, [])
  | Some t =>
      let o := original mat t in
      let mat' := prepare mat t in
      if negb (Texture.same t o) then (setMap mat' o, [t]) else (mat', [])
  end.

(** One call of the [forEach] callback on the material at place [i]:
    the store and the textures disposed of so far. *)
Definition visit (f : Material.t -> Material.t * list Texture.t)
           (s : Store * list Texture.t) (i : nat) : Store * list Texture.t :=
  match nth_error (fst s) i with
  | Some mat => (Heap.modify (fst s) i (fun m => fst (f m)), snd s ++ snd (f mat))
  | None => s
  end.

(** The effect with all controls at zero. *)
Definition zeroRun (st : Store) (root : list Mesh) : Store * list Texture.t :=
  fold_left (visit resetMaterial) (visited root) (st, []).

(** With a control away from zero the traversal prepares every
    material that has a map and starts one task for it; a task keeps
    the place of its material and the [original] it read. *)
Definition Task : Type := (nat * Texture.t)%type.

Definition startTask (s : Store * list Task) (i : nat) : Store * list Task :=
  match nth_error (fst s) i with
  | Some mat =>
      match map mat with
      | Some t =>
          (Heap.modify (fst s) i (fun m => match map m with
                                      | Some t' => prepare m t'
                                      | None => m
                                      end),
           snd s ++ [(i, original mat t)])
      | None => s
      end
  | None => s
  end.

Definition startTasks (st : Store) (root : list Mesh) : Store * list Task :=
  fold_left startTask (visited root) (st, []).

(** What a task does once [processTexture] has given it [newTex] and
    the run has not been cancelled. *)
Definition install (o newTex : Texture.t) (mat : Material.t)
  : Material.t * list Texture.t :=
  (setMap mat newTex,
   match map mat with
   | Some t => if negb (Texture.same t o) then [t] else []
   | None => []
   end).

(** A task that came back with a texture. *)
Record Completion : Type := mkCompletion {
  task : Task;
  newTex : Texture.t
}.

Definition resume (s : Store * list Texture.t) (c : Completion)
  : Store * list Texture.t :=
  visit (install (snd (task c)) (newTex c)) s (fst (task c)).

(** A run of the effect with a control away from zero.
    [completions] lists the tasks that came back with a texture before
    the run was cancelled, in the order in which they resumed. *)
Definition adjustRun (st : Store) (root : list Mesh) (completions : list Completion)
  : Store * list Texture.t :=
  fold_left resume completions (fst (startTasks st root), []).
End TextureEffect.

(* ------------------------------------------------------------------ *)
(** ** [textureUtils.js] *)

Module TextureUtils.
Local Open Scope float_scope.

(** [Math.min(a, b, ...)]; with no argument the result is [+Infinity]. *)
Definition Math_min (args : list float) : float :=
  fold_left JS.min2 args infinity.

(** An integer as a number.  Every integer met here is far below
    [2^53], so the conversion is exact. *)
Definition ofZ (z : Z) : float :=
  if (z <? 0)%Z then - of_uint63 (Uint63.of_Z (- z))
  else of_uint63 (Uint63.of_Z z).

(** [Math.round]: the nearest integer, a tie going towards
    [+Infinity]; NaN, the infinities and the zeros are returned as they
    are, and a result of zero keeps the sign of the argument.  A finite
    number is [m * 2^e] with the sign [sg]; when [e] is negative the
    nearest integer is [floor ((2 m + 2^k) / 2^(k+1))] for [k = -e]. *)
Definition Math_round (x : float) : float :=
  match Prim2SF x with
  | S754_finite sg m e =>
      if (0 <=? e)%Z then x
      else
        let k := (- e)%Z in
        let sm := if sg then Z.neg m else Z.pos m in
        let n := ((2 * sm + 2 ^ k) / 2 ^ (k + 1))%Z in
        if (n =? 0)%Z then (if sg then -0 else 0) else ofZ n
  | _ => x
  end.

(** Storing a number into a [Uint8ClampedArray] ([ToUint8Clamp]): NaN
    becomes [0], the number is clamped to [0, 255] and rounded to the
    nearest integer, a tie going to the even one. *)
Definition ToUint8Clamp (x : float) : Z :=
  if is_nan x then 0%Z
  else if x <=? 0 then 0%Z
  else if 255 <=? x then 255%Z
  else match Prim2SF x with
       | S754_finite _ m e =>
           if (0 <=? e)%Z then (Z.pos m * 2 ^ e)%Z
           else
             let k := (- e)%Z in
             let f := (Z.pos m / 2 ^ k)%Z in
             let twice := (2 * (Z.pos m mod 2 ^ k))%Z in
             if (twice <? 2 ^ k)%Z then f
             else if (2 ^ k <? twice)%Z then (f + 1)%Z
             else if Z.even f then f else (f + 1)%Z
       | _ => 0%Z
       end.

(** [ImageData.data], a [Uint8ClampedArray]: its elements are integers
    from [0] to [255]. *)
Definition Pixels : Type := list Z.

(** [data[idx]] where a number is expected: an element, or
    [undefined], which arithmetic turns into NaN. *)
Definition get (data : Pixels) (idx : Z) : float :=
  if (idx <? 0)%Z then nan
  else match nth_error data (Z.to_nat idx) with
       | Some v => ofZ v
       | None => nan
       end.

Fixpoint update (data : Pixels) (i : nat) (v : Z) : Pixels :=
  match data, i with
  | [], _ => []
  | _ :: rest, O => v :: rest
  | d :: rest, S k => d :: update rest k v
  end.

(** [data[idx] = v]; a store outside the array is ignored. *)
Definition set (data : Pixels) (idx : Z) (v : float) : Pixels :=
  if (idx <? 0)%Z then data else update data (Z.to_nat idx) (ToUint8Clamp v).

(** [for (let i = 0; i < n; i++)]. *)
Definition range (n : Z) : list Z := List.map Z.of_nat (seq 0 (Z.to_nat n)).

(** [for (let i = 0; i < length; i += 4)]. *)
Definition byFour (length : nat) : list Z :=
  List.map (fun j => (4 * Z.of_nat j)%Z) (seq 0 ((length + 3) / 4)).

(** [const clamp = (v, min=0, max=255) => Math.max(min, Math.min(max, v))]. *)
Definition clamp (v min max : float) : float :=
  JS.Math_max [min; Math_min [max; v]].

(** Every call in the file leaves [min] and [max] at their defaults. *)
Definition clamp255 (v : float) : float := clamp v 0 255.

Record HSL : Type := mkHSL { h : float; s : float; l : float }.
Record RGB : Type := mkRGB { r : float; g : float; b : float }.

(** [rgbToHsl(r, g, b)].  When no [case] of the [switch] matches, [h]
    stays [undefined] and [h /= 6] makes it NaN. *)
Definition rgbToHsl (r g b : float) : HSL :=
  let r := r / 255 in
  let g := g / 255 in
  let b := b / 255 in
  let max := JS.Math_max [r; g; b] in
  let min := Math_min [r; g; b] in
  let l := (max + min) / 2 in
  if max =? min then mkHSL 0 0 l
  else
    let d := max - min in
    let s := if 0.5 <? l then d / (2 - max - min) else d / (max + min) in
    let h := if max =? r then (g - b) / d + (if g <? b then 6 else 0)
             else if max =? g then (b - r) / d + 2
             else if max =? b then (r - g) / d + 4
             else nan in
    mkHSL (h / 6) s l.

Definition hue2rgb (p q t : float) : float :=
  let t := if t <? 0 then t + 1 else t in
  let t := if 1 <? t then t - 1 else t in
  if t <? 1 / 6 then p + (q - p) * 6 * t
  else if t <? 1 / 2 then q
  else if t <? 2 / 3 then p + (q - p) * (2 / 3 - t) * 6
  else p.

(** [hslToRgb(h, s, l)]. *)
Definition hslToRgb (h s l : float) : RGB :=
  let rgb :=
    if s =? 0 then mkRGB l l l
    else
      let q := if l <? 0.5 then l * (1 + s) else l + s - l * s in
      let p := 2 * l - q in
      mkRGB (hue2rgb p q (h + 1 / 3)) (hue2rgb p q h) (hue2rgb p q (h - 1 / 3)) in
  mkRGB (Math_round (r rgb * 255)) (Math_round (g rgb * 255))
        (Math_round (b rgb * 255)).

(** The body of the loop of [adjustBCS] on the three colour values of
    one pixel: the values [rr], [gg], [bb] that it stores. *)
Definition adjustPixel (brightness contrast saturation : float) (r0 g0 b0 : float)
  : RGB :=
  let c := contrast + 1 in
  let b := brightness * 255 in
  let r := clamp255 ((r0 - 128) * c + 128 + b) in
  let g := clamp255 ((g0 - 128) * c + 128 + b) in
  let bl := clamp255 ((b0 - 128) * c + 128 + b) in
  let hsl := rgbToHsl r g bl in
  let s2 := JS.Math_max [0; Math_min [1; s hsl * (1 + saturation)]] in
  hslToRgb (h hsl) s2 (l hsl).

(** The loop of [adjustBCS] over [imgData.data]; it leaves the alpha
    values alone. *)
Definition adjustStep (brightness contrast saturation : float)
           (data : Pixels) (i : Z) : Pixels :=
  let rgb := adjustPixel brightness contrast saturation
                         (get data i) (get data (i + 1)) (get data (i + 2)) in
  let data := set data i (r rgb) in
  let data := set data (i + 1) (g rgb) in
  set data (i + 2) (b rgb).

Definition adjustBCS (data : Pixels) (brightness contrast saturation : float)
  : Pixels :=
  fold_left (adjustStep brightness contrast saturation)
            (byFour (List.length data)) data.


(** [gaussianBlur5(imgData, w, h)]. *)
Definition k : list float := [1; 4; 6; 4; 1].
Definition ks : float := 16.

(** The values of [i] in [for (let i = -2; i <= 2; i++)]. *)
Definition taps : list Z := [-2; -1; 0; 1; 2]%Z.

(** [k[i+2]]. *)
Definition kv (i : Z) : float := nth (Z.to_nat (i + 2)) k nan.

(** One of the sums [r], [g], [b], [a] of the inner loop: [c] is the
    offset of the channel and [idx i] the index of the pixel read at
    tap [i]. *)
Definition accumulate (data : Pixels) (idx : Z -> Z) (c : Z) : float :=
  fold_left (fun acc i => acc + get data (idx i + c)%Z * kv i) taps 0.

(** The four stores that end the body of the loops. *)
Definition store4 (out : Pixels) (o : Z) (data : Pixels) (idx : Z -> Z) : Pixels :=
  let out := set out o (accumulate data idx 0 / ks) in
  let out := set out (o + 1) (accumulate data idx 1 / ks) in
  let out := set out (o + 2) (accumulate data idx 2 / ks) in
  set out (o + 3) (accumulate data idx 3 / ks).

Definition horizontalPixel (src : Pixels) (w : Z) (tmp : Pixels) (y x : Z) : Pixels :=
  store4 tmp ((y * w + x) * 4)%Z src
         (fun i => ((y * w + Z.min (w - 1) (Z.max 0 (x + i))) * 4)%Z).

Definition verticalPixel (tmp : Pixels) (w h : Z) (dst : Pixels) (y x : Z) : Pixels :=
  store4 dst ((y * w + x) * 4)%Z tmp
         (fun i => ((Z.min (h - 1) (Z.max 0 (y + i)) * w + x) * 4)%Z).

(** [for (let y = 0; y < h; y++) for (let x = 0; x < w; x++)]. *)
Definition raster (pixel : Pixels -> Z -> Z -> Pixels) (w h : Z) (out : Pixels)
  : Pixels :=
  fold_left (fun out y => fold_left (fun out x => pixel out y x) (range w) out)
            (range h) out.

Definition gaussianBlur5 (src : Pixels) (w h : Z) : Pixels :=
  let tmp := raster (horizontalPixel src w) w h (repeat 0%Z (List.length src)) in
  raster (verticalPixel tmp w h) w h (repeat 0%Z (List.length src)).

(** The loop of [sharpen] over [base.data], with [bd] the data of the
    blurred image; it leaves the alpha values alone. *)
Definition sharpenValue (amount : float) (d bd : Pixels) (i : Z) : float :=
  clamp255 (get d i + amount * (get d i - get bd i)).

Definition sharpenStep (amount : float) (bd : Pixels) (d : Pixels) (i : Z) : Pixels :=
  let d := set d i (sharpenValue amount d bd i) in
  let d := set d (i + 1) (sharpenValue amount d bd (i + 1)) in
  set d (i + 2) (sharpenValue amount d bd (i + 2)).

(** [sharpen(image, amount)] on the pixels [base] of the image. *)
Definition sharpen (base : Pixels) (w h : Z) (amount : float) : Pixels :=
  fold_left (sharpenStep amount (gaussianBlur5 base w h))
            (byFour (List.length base)) base.
End TextureUtils.

(* ------------------------------------------------------------------ *)
(** ** Pointer-based paired rotation (Shift + drag) *)

Module PairedRotation.
Local Open Scope float_scope.

(** [el.style.cursor]: the effect assigns ['grabbing'] and ['']. *)
Inductive Cursor : Type := CursorGrabbing | CursorEmpty | CursorOther.

Record Euler : Type := mkEuler { x : float; y : float; z : float }.

(** The variables [dragging], [lastX], [lastY] of the effect, the
    rotation of [group.current], the rotation of [boxHelper] and
    [orbitControls.enabled] where these objects exist, and the cursor
    of the canvas. *)
Record State : Type := mkState {
  dragging : bool;
  lastX : float;
  lastY : float;
  rotation : Euler;
  helperRotation : option Euler;
  orbitEnabled : option bool;
  cursor : Cursor
}.

Inductive Event : Type :=
| MouseDown (shiftKey : bool) (button : Z) (clientX clientY : float)
| MouseMove (clientX clientY : float)
| MouseUp.

(** [onDown]. *)
Definition onDown (st : State) (shiftKey : bool) (button : Z)
           (clientX clientY : float) : State :=
  if negb shiftKey || negb (button =? 0)%Z then st
  else
    {| dragging := true;
       lastX := clientX;
       lastY := clientY;
       rotation := rotation st;
       helperRotation := helperRotation st;
       orbitEnabled := option_map (fun _ => false) (orbitEnabled st);
       cursor := CursorGrabbing |}.

(** [onMove]. *)
Definition onMove (st : State) (clientX clientY : float) : State :=
  if negb (dragging st) then st
  else
    let dx := clientX - lastX st in
    let dy := clientY - lastY st in
    let r := rotation st in
    let r := mkEuler (x r) (y r + dx * 0.01) (z r) in
    let r := mkEuler (x r + dy * 0.01) (y r) (z r) in
    {| dragging := dragging st;
       lastX := clientX;
       lastY := clientY;
       rotation := r;
       helperRotation := option_map (fun _ => r) (helperRotation st);
       orbitEnabled := orbitEnabled st;
       cursor := cursor st |}.

(** [onUp]. *)
Definition onUp (st : State) : State :=
  if negb (dragging st) then st
  else
    {| dragging := false;
       lastX := lastX st;
       lastY := lastY st;
       rotation := rotation st;
       helperRotation := helperRotation st;
       orbitEnabled := option_map (fun _ => true) (orbitEnabled st);
       cursor := CursorEmpty |}.

Definition step (st : State) (e : Event) : State :=
  match e with
  | MouseDown shiftKey button clientX clientY =>
      onDown st shiftKey button clientX clientY
  | MouseMove clientX clientY => onMove st clientX clientY
  | MouseUp => onUp st
  end.

(** The events of a session, in order. *)
Definition run (st : State) (events : list Event) : State :=
  fold_left step events st.

(** The state in which the effect starts listening. *)
Definition start (rotation : Euler) (helperRotation : option Euler)
           (orbitEnabled : option bool) (cursor : Cursor) : State :=
  mkState false 0 0 rotation helperRotation orbitEnabled cursor.
End PairedRotation.

(* ================================================================== *)
(** * Part II: specification-side definitions and sample inputs        *)
(* ================================================================== *)

Module ClipSpec.
Import Clipper.

(** The consecutive pairs [(prev, cur)] of a polygon in edge order,
    the first one wrapping around from the last vertex. *)
Definition edges (poly : Polygon) : list (Vertex * Vertex) :=
  match poly with
  | [] => []
  | v0 :: _ => combine (last poly v0 :: removelast poly) poly
  end.

(** What one edge contributes to the clipped polygon. *)
Definition emission (hasUV : bool) (plane : Plane) (e : Vertex * Vertex)
  : list Vertex :=
  let '(prev, cur) := e in
  match isInside plane prev, isInside plane cur with
  | true, true => [cur]
  | true, false => [intersect hasUV prev cur (axis plane) (limit plane)]
  | false, true => [intersect hasUV prev cur (axis plane) (limit plane); cur]
  | false, false => []
  end.


(** The vertex object has a [uv] property. *)
Definition carriesUV (p : Vertex) : bool :=
  match uv p with Some _ => true | None => false end.

(** Some component of the half-extent is NaN. *)
Definition half_has_nan (half : Vector3.t) : bool :=
  is_nan (Vector3.x half) || is_nan (Vector3.y half) || is_nan (Vector3.z half).

(** The source triangle starting at vertex [i], as [makeV] builds it. *)
Definition sourceTriangle (geom : BufferGeometry.t)
           (localToWorld invBoxMatrixWorld : Matrix4.t) (i : nat) : Triangle :=
  (makeV geom localToWorld invBoxMatrixWorld i,
   makeV geom localToWorld invBoxMatrixWorld (i + 1),
   makeV geom localToWorld invBoxMatrixWorld (i + 2)).

(** What a source triangle contributes when it is only filtered by
    area. *)
Definition keptBySize (half : Vector3.t) (tri : Triangle) : list Triangle :=
  let '(v0, v1, v2) := tri in
  if rejected half v0 v1 v2 then [] else [tri].
End ClipSpec.

(** ** Sample inputs *)

Module Samples.
Local Open Scope float_scope.


(** A vertex of the plane [z = 0] whose box frame is the world frame. *)
Definition flatVertex (px py : float) : Clipper.Vertex :=
  Clipper.mkVertex (Vector3.mk px py 0) (Vector3.mk px py 0) None.

Definition localXY (p : Clipper.Vertex) : float * float :=
  (Vector3.x (Clipper.pb p), Vector3.y (Clipper.pb p)).

(** A mesh of one triangle with legs [0.5], without and with UVs. *)
Definition triangleGeom : BufferGeometry.t :=
  BufferGeometry.mk None [0; 0; 0;  0.5; 0; 0;  0; 0.5; 0] None.

Definition triangleGeomUV : BufferGeometry.t :=
  BufferGeometry.mk None [0; 0; 0;  0.5; 0; 0;  0; 0.5; 0]
                    (Some [0; 0;  1; 0;  0; 1]).

(** A mesh of one triangle with legs [2^-13], of doubled area
    [2^-26]. *)
Definition smallTriangleGeom : BufferGeometry.t :=
  BufferGeometry.mk None
    [0; 0; 0;  0.0001220703125; 0; 0;  0; 0.0001220703125; 0] None.

Definition unitHalf : Vector3.t := Vector3.mk 1 1 1.

(** Stand-ins for the library entry points: a boolean intersection that
    always throws, one that returns an empty geometry, one that returns
    its first argument, a [mergeVertices] that changes nothing, and a
    box constructor reduced to two opposite corners. *)
Definition csgThrows (a b : BufferGeometry.t) : JS.completion BufferGeometry.t :=
  JS.Throw.

Definition csgEmpty (a b : BufferGeometry.t) : JS.completion BufferGeometry.t :=
  JS.Normal (BufferGeometry.mk None [] None).

Definition csgFirst (a b : BufferGeometry.t) : JS.completion BufferGeometry.t :=
  JS.Normal a.

Definition mergeNothing (g : BufferGeometry.t) (tolerance : float)
  : JS.completion BufferGeometry.t :=
  JS.Normal g.

Definition boxCorners (w h d : float) : BufferGeometry.t :=
  BufferGeometry.mk None [- (w / 2); - (h / 2); - (d / 2); w / 2; h / 2; d / 2] None.

Definition meshNode (g : BufferGeometry.t) : Crop.Node :=
  Crop.mkNode true false (Some g) Matrix4.identity true.

(** A crop region of half-extent [(0, 1, 1)], one of half-extent
    [(1, 1, 1)] around the origin, and one of half-extent [0.25] far
    away at [x = 10]. *)
Definition flatCrop : Box3.Bounds := Box3.mkBounds 0 0 (-1) 1 (-1) 1.
Definition unitCrop : Box3.Bounds := Box3.mkBounds (-1) 1 (-1) 1 (-1) 1.
Definition farCrop : Box3.Bounds :=
  Box3.mkBounds 9.75 10.25 (-0.25) 0.25 (-0.25) 0.25.

Definition viewerOf (g : BufferGeometry.t) : Crop.Viewer :=
  Crop.mkViewer (Some [meshNode g]) None None.

Definition request (c : Box3.Bounds) : Crop.Props :=
  Crop.mkProps 1 true (Some c) false.

(** A model of [2 x 4 x 8] units stored with scale [0.01], that is of
    [2 x 4 x 8] cm, whose geometry starts at its own origin; and the
    same model once [centerAndFit] has centred it on the world origin,
    as [loadModel] leaves it. *)
Definition boxGeom : BufferGeometry.t :=
  BufferGeometry.mk None [0; 0; 0;  2; 4; 8;  2; 0; 0] None.

Definition loadedScene : Size.Scene :=
  Size.mkScene (Vector3.mk 0 0 0) Matrix4.identity
               (Vector3.mk 0 0 0) Quaternion.identity (Vector3.mk 0.01 0.01 0.01)
               [Size.mkChild Matrix4.identity (Some boxGeom)].

Definition centredScene : Size.Scene := Size.centerAndFit loadedScene.

Definition lockedX (t : Vector3.t) : Size.SizeRequest :=
  Size.mkSizeRequest (Some t) true Size.AnchorX.

(** The centred model with its scale halved and nothing else changed. *)
Definition halvedScene : Size.Scene :=
  Size.mkScene (Size.groupPosition centredScene) (Size.groupMatrixWorld centredScene)
               (Size.position centredScene) (Size.quaternion centredScene)
               (Vector3.multiply (Size.scale centredScene) (Vector3.mk 0.5 0.5 0.5))
               (Size.children centredScene).
End Samples.

(** ** Further specification-side definitions *)

Module ClipCount.
Import Clipper.
(** The edge joins an inside vertex and an outside one. *)
Definition crosses (plane : Plane) (e : Vertex * Vertex) : bool :=
  xorb (isInside plane (fst e)) (isInside plane (snd e)).
End ClipCount.


Module CropSpec.
Import Crop.

(** The geometries disposed by a run, in order. *)
Definition disposals (evs : list Event) : list BufferGeometry.t :=
  flat_map (fun e => match e with Dispose g => [g] | _ => [] end) evs.

(** The node is one the crop works on: a mesh that is not skinned and
    has a geometry. *)
Definition croppable (n : Node) : bool :=
  isMesh n && negb (isSkinnedMesh n)
  && match geometry n with Some _ => true | None => false end.

(** What the effect leaves alone in a node. *)
Definition sameFrame (n n' : Node) : Prop :=
  isMesh n' = isMesh n /\ isSkinnedMesh n' = isSkinnedMesh n
  /\ matrixWorld n' = matrixWorld n.
End CropSpec.

Module MoreSamples.
Local Open Scope float_scope.


Definition skinnedNode (g : BufferGeometry.t) : Crop.Node :=
  Crop.mkNode true true (Some g) Matrix4.identity true.

(** A scene whose only child has no geometry. *)
Definition emptyScene : Size.Scene :=
  Size.mkScene (Vector3.mk 0 0 0) Matrix4.identity
               (Vector3.mk 0 0 0) Quaternion.identity (Vector3.mk 1 1 1)
               [Size.mkChild Matrix4.identity None].
End MoreSamples.

(** Meshes for [pruneGeometryAttributesForExport]. *)
Module PruneSamples.
Import String.
Local Open Scope string_scope.

Definition plainMaterial : Material.t :=
  Material.mk None None false false false false false.

(** A material that uses vertex colours, a normal map and a light map. *)
Definition richMaterial : Material.t :=
  Material.mk None None false true true false true.

Definition allAttributes : Prune.Attributes nat :=
  [("position", 0%nat); ("normal", 1%nat); ("uv", 2%nat); ("color", 3%nat);
   ("tangent", 4%nat); ("uv2", 5%nat); ("skinIndex", 6%nat);
   ("skinWeight", 7%nat)].

(** Two geometries; the second is shared by two meshes. *)
Definition geometries : list (Prune.Attributes nat) :=
  [allAttributes; allAttributes].

Definition plainMesh : Prune.Node :=
  Prune.mkNode true false (Some 0%nat) (Material.Single plainMaterial).

(** A mesh with two materials, both of which use every map. *)
Definition multiMesh : Prune.Node :=
  Prune.mkNode true false (Some 1%nat)
               (Material.Multi [richMaterial; richMaterial]).

(** A mesh with one such material, on the geometry of [multiMesh]. *)
Definition richMesh : Prune.Node :=
  Prune.mkNode true true (Some 1%nat) (Material.Single richMaterial).

Definition scene : list Prune.Node := [plainMesh; richMesh; multiMesh].
End PruneSamples.

(** The callback of [pruneGeometryAttributesForExport] as five
    conditional deletions. *)
Module PruneSpec.
Import String.
Local Open Scope string_scope.

Section Deletions.
Variable A : Type.

(** One conditional deletion. *)
Definition condDelete (c : bool) (n : string) (g : Prune.Attributes A)
  : Prune.Attributes A :=
  if Prune.has g n && c then Prune.deleteAttribute g n else g.

(** A conditional deletion has nothing left to do. *)
Definition settled (c : bool) (n : string) (g : Prune.Attributes A) : Prop :=
  c = false \/ Prune.has g n = false.

(** The conditions of the five deletions for a mesh. *)
Definition conditions (child : Prune.Node) : list (bool * string) :=
  let mat := Prune.material child in
  [(negb (Prune.matField Material.vertexColors mat), "color");
   (negb (Prune.matField Material.normalMap mat), "tangent");
   (negb (Prune.matField (fun m => Material.aoMap m || Material.lightMap m) mat),
    "uv2");
   (negb (Prune.isSkinnedMesh child), "skinIndex");
   (negb (Prune.isSkinnedMesh child), "skinWeight")].

(** The five deletions of the callback, in its order. *)
Definition pruned (child : Prune.Node) (g : Prune.Attributes A)
  : Prune.Attributes A :=
  fold_left (fun g cn => condDelete (fst cn) (snd cn) g) (conditions child) g.

(** None of the deletions of the mesh has anything left to do. *)
Definition allSettled (child : Prune.Node) (g : Prune.Attributes A) : Prop :=
  Forall (fun cn => settled (fst cn) (snd cn) g) (conditions child).

(** The assignment that the visit of a node makes, and its place. *)
Definition place (child : Prune.Node) : nat :=
  match Prune.geometry child with Some i => i | None => 0 end.

Definition visits (child : Prune.Node) : bool :=
  Prune.isMesh child
  && match Prune.geometry child with Some _ => true | None => false end.

Definition assignment (child : Prune.Node) (g : Prune.Attributes A)
  : Prune.Attributes A :=
  if visits child then pruned child g else g.
End Deletions.

Arguments condDelete {A} c n g.
Arguments settled {A} c n g.
Arguments pruned {A} child g.
Arguments allSettled {A} child g.
Arguments assignment {A} child g.
End PruneSpec.

(** The states of a material under the texture effect. *)
Module TextureSpec.
Import Material TextureEffect.

(** What the traversal of a run away from zero does to a material. *)
Definition prepared (m : Material.t) : Material.t :=
  match map m with
  | Some t' => prepare m t'
  | None => m
  end.

(** The material has a map, and the effect reads [o] as its original. *)
Definition readsOriginal (o : Texture.t) (m : Material.t) : Prop :=
  exists t, map m = Some t /\ original m t = o.

(** The material has a map, and [userData.originalMap] is [o]. *)
Definition cachedOriginal (o : Texture.t) (m : Material.t) : Prop :=
  originalMap (userDataOf m) = Some o /\ exists t, map m = Some t.

(** The material shows its original map [o]. *)
Definition showsOriginal (o : Texture.t) (m : Material.t) : Prop :=
  cachedOriginal o m /\ map m = Some o.

(** The map of the material is its original or one of [news]. *)
Definition mapKnown (news : list Texture.t) (m : Material.t) : Prop :=
  forall t, map m = Some t -> original m t = t \/ In t news.

(** The zero branch of the effect has nothing to do on the material. *)
Definition atRest (m : Material.t) : Prop := resetMaterial m = (m, []).

(** The state of a run away from zero while its tasks resume. *)
Definition running (news : list Texture.t) (tasks : list Task)
           (s : Store * list Texture.t) : Prop :=
  (forall j m, nth_error (fst s) j = Some m -> mapKnown news m)
  /\ (forall tk, In tk tasks ->
                 exists m, nth_error (fst s) (fst tk) = Some m
                           /\ cachedOriginal (snd tk) m)
  /\ (forall d, In d (snd s) -> In d news).
End TextureSpec.

(** A small scene for the texture effect: two meshes that share the
    material at place 0. *)
Module TextureSamples.
Import Material TextureEffect.

Definition wood : Texture.t := 1%nat.
Definition adjustedWood : Texture.t := 7%nat.
Definition sharperWood : Texture.t := 8%nat.

(** Every texture has an image. *)
Definition image (t : Texture.t) : bool := true.

Definition loaded (t : option Texture.t) : Material.t :=
  Material.mk t None false false false false false.

Definition store : Store := [loaded (Some wood); loaded None].

Definition root : list Mesh :=
  [mkMesh true (Single 0%nat); mkMesh false Missing;
   mkMesh true (Multi [1%nat; 0%nat])].

Definition completions : list Completion :=
  [mkCompletion (0%nat, wood) adjustedWood; mkCompletion (0%nat, wood) sharperWood].
End TextureSamples.

(** Checks on single bytes for [textureUtils.js]. *)
Module PixelSpec.
Import TextureUtils.
Local Open Scope float_scope.

(** The byte values. *)
Definition bytes : list Z := List.map Z.of_nat (seq 0 256).


(** An image of [n] pixels that all have the bytes [px]. *)
Definition flat (px : list Z) (n : nat) : Pixels := concat (repeat px n).

(** The image while a pass has filled its first [K] pixels. *)
Definition filled (px : list Z) (n : nat) (K : Z) : Pixels :=
  flat px (Z.to_nat K) ++ repeat 0%Z (4 * (n - Z.to_nat K)).

(** The blur of five equal bytes [v] is [v]. *)
Definition blurred (v : Z) : float :=
  fold_left (fun acc i => acc + ofZ v * kv i) taps 0 / ks.

Definition blurKept (v : Z) : bool := (ToUint8Clamp (blurred v) =? v)%Z.

(** A byte [v] that equals its blurred value is stored as it is by
    [sharpen], whichever zero the product with [amount] gives. *)
Definition sharpenKept (v : Z) : bool :=
  PrimFloat.Leibniz.eqb (ofZ v - ofZ v) 0
  && Z.eqb (ToUint8Clamp (clamp255 (ofZ v + 0))) v
  && Z.eqb (ToUint8Clamp (clamp255 (ofZ v + -0))) v.
End PixelSpec.

(** Numbers up to the sign of zero. *)
Module FloatSpec.
(** Equal, or two zeros. *)
Definition sameValue (a b : spec_float) : Prop :=
  a = b \/ exists s s', a = S754_zero s /\ b = S754_zero s'.
End FloatSpec.

(** Events of the pointer-based rotation. *)
Module PointerSpec.
Import PairedRotation.

(** A press that starts a drag: the left button with Shift held. *)
Definition startsDrag (e : Event) : bool :=
  match e with
  | MouseDown shiftKey button _ _ => shiftKey && (button =? 0)%Z
  | _ => false
  end.

(** A session: a press without Shift, a move, a press with Shift, two
    moves, a release and a move. *)
Definition session : list Event :=
  [MouseDown false 0 10 10; MouseMove 30 30; MouseDown true 0 100 100;
   MouseMove 110 100; MouseMove 110 95; MouseUp; MouseMove 500 500]%float.

(** Presses without Shift or with another button, and moves. *)
Definition idle : list Event :=
  [MouseDown false 0 10 10; MouseMove 30 30; MouseDown true 2 100 100;
   MouseMove 110 100; MouseUp]%float.
End PointerSpec.

(* ================================================================== *)
(** * Part III: properties                                             *)
(* ================================================================== *)

(** Closed statements about concrete inputs are settled by running the
    embedding. *)
Ltac by_evaluation := vm_compute; repeat split; reflexivity.

(** ** Floating-point comparisons and NaN

    The facts below follow from the IEEE 754 specification of the
    primitive operations ([FloatAxioms]). *)

Section FloatFacts.
Local Open Scope float_scope.

Lemma SFcompare_antisym (a b : spec_float) :
  SFcompare b a = option_map CompOpp (SFcompare a b).
Proof.
  destruct a as [sa|sa| |sa ma ea], b as [sb|sb| |sb mb eb]; simpl;
    try destruct sa; try destruct sb; simpl; try reflexivity.
  - rewrite (Z.compare_antisym eb ea).
    destruct (Z.compare eb ea); simpl; try reflexivity.
    rewrite CompOpp_involutive.
    now rewrite (Pos.compare_cont_antisym mb ma Eq).
  - rewrite (Z.compare_antisym eb ea).
    destruct (Z.compare eb ea); simpl; try reflexivity.
    now rewrite (Pos.compare_cont_antisym ma mb Eq).
Qed.

Lemma SFcompare_refl (a : spec_float) :
  a <> S754_nan -> SFcompare a a = Some Eq.
Proof.
  destruct a as [sa|sa| |sa ma ea]; simpl; intros H;
    try destruct sa; try reflexivity; try congruence.
  - rewrite Z.compare_refl. now rewrite Pos.compare_cont_refl.
  - rewrite Z.compare_refl. now rewrite Pos.compare_cont_refl.
Qed.

Lemma is_nan_Prim2SF (t : float) :
  is_nan t = true <-> Prim2SF t = S754_nan.
Proof.
  unfold is_nan. rewrite FloatAxioms.eqb_spec. unfold SFeqb.
  destruct (Prim2SF t) eqn:E; try (rewrite SFcompare_refl by congruence);
    simpl; split; congruence.
Qed.

Lemma not_nan_Prim2SF (t : float) :
  is_nan t = false <-> Prim2SF t <> S754_nan.
Proof.
  rewrite <- is_nan_Prim2SF. destruct (is_nan t); split; congruence.
Qed.

Lemma compare_defined (a b : float) :
  is_nan a = false -> is_nan b = false ->
  exists c, SFcompare (Prim2SF a) (Prim2SF b) = Some c.
Proof.
  rewrite !not_nan_Prim2SF.
  destruct (Prim2SF a) as [sa|sa| |sa ma ea], (Prim2SF b) as [sb|sb| |sb mb eb];
    simpl; intros Ha Hb; try congruence; eauto.
Qed.


Lemma leb_false_ltb (a b : float) :
  is_nan a = false -> is_nan b = false ->
  (a <=? b) = false -> (b <? a) = true.
Proof.
  intros Ha Hb. rewrite FloatAxioms.ltb_spec, FloatAxioms.leb_spec. unfold SFltb, SFleb.
  rewrite (SFcompare_antisym (Prim2SF a) (Prim2SF b)).
  destruct (compare_defined a b Ha Hb) as [c ->].
  destruct c; simpl; congruence.
Qed.

Lemma leb_nan_r (a b : float) : is_nan b = true -> (a <=? b) = false.
Proof.
  rewrite is_nan_Prim2SF, FloatAxioms.leb_spec. intros ->. unfold SFleb.
  destruct (Prim2SF a); reflexivity.
Qed.

Lemma leb_nan_l (a b : float) : is_nan a = true -> (a <=? b) = false.
Proof.
  rewrite is_nan_Prim2SF, FloatAxioms.leb_spec. intros ->. reflexivity.
Qed.

Lemma add_nan_l (a b : float) : is_nan a = true -> is_nan (a + b) = true.
Proof.
  rewrite !is_nan_Prim2SF, add_spec. intros ->. reflexivity.
Qed.

Lemma sub_nan_l (a b : float) : is_nan a = true -> is_nan (a - b) = true.
Proof.
  rewrite !is_nan_Prim2SF, sub_spec. intros ->. reflexivity.
Qed.

Lemma opp_nan (a : float) : is_nan a = true -> is_nan (- a) = true.
Proof.
  rewrite !is_nan_Prim2SF, opp_spec. intros ->. reflexivity.
Qed.

Lemma is_finite_not_nan (a : float) : is_finite a = true -> is_nan a = false.
Proof.
  unfold is_finite. destruct (is_nan a); simpl; congruence.
Qed.

(** Rounding a non-negative mantissa never produces NaN. *)
Lemma shr_1_nonneg (mrs : shr_record) :
  (0 <= shr_m mrs)%Z -> (0 <= shr_m (shr_1 mrs))%Z.
Proof.
  destruct mrs as [m r s0]; simpl.
  destruct m as [|p|p]; simpl; try lia; destruct p; simpl; lia.
Qed.

Lemma iter_shr_1_nonneg (p : positive) : forall mrs,
  (0 <= shr_m mrs)%Z -> (0 <= shr_m (SpecFloat.iter_pos shr_1 p mrs))%Z.
Proof.
  induction p; intros mrs H; simpl; auto using shr_1_nonneg.
Qed.

Lemma shr_fexp_nonneg prec emax (m e : Z) (l : location) :
  (0 <= m)%Z -> (0 <= shr_m (fst (shr_fexp prec emax m e l)))%Z.
Proof.
  intros H. unfold shr_fexp, shr.
  assert (H0 : (0 <= shr_m (shr_record_of_loc m l))%Z).
  { destruct l as [|[]]; simpl; assumption. }
  destruct (_ - e)%Z; simpl; auto using iter_shr_1_nonneg.
Qed.

Lemma round_nearest_even_nonneg (m : Z) (l : location) :
  (0 <= m)%Z -> (0 <= round_nearest_even m l)%Z.
Proof.
  destruct l as [|[]]; simpl; try lia. destruct (Z.even m); lia.
Qed.

Lemma binary_round_aux_not_nan prec emax sx (m : positive) e l :
  binary_round_aux prec emax sx (Zpos m) e l <> S754_nan.
Proof.
  unfold binary_round_aux.
  pose proof (shr_fexp_nonneg prec emax (Zpos m) e l ltac:(lia)) as H1.
  destruct (shr_fexp prec emax (Zpos m) e l) as [mrs' e'] eqn:E1. simpl in H1.
  pose proof (shr_fexp_nonneg prec emax
                (round_nearest_even (shr_m mrs') (loc_of_shr_record mrs')) e' loc_Exact
                (round_nearest_even_nonneg _ _ H1)) as H2.
  destruct (shr_fexp prec emax _ e' loc_Exact) as [mrs'' e''] eqn:E2. simpl in H2.
  destruct (shr_m mrs'') as [|q|q]; try discriminate; try lia.
  destruct (e'' <=? emax - prec)%Z; discriminate.
Qed.

Lemma mul_finite_not_nan (a k : float) s m e :
  Prim2SF k = S754_finite s m e ->
  is_nan a = false -> is_nan (a * k) = false.
Proof.
  rewrite !not_nan_Prim2SF, mul_spec. intros -> Ha.
  unfold SF64mul, SFmul.
  destruct (Prim2SF a) as [sa|sa| |sa ma ea]; try congruence; try discriminate.
  apply binary_round_aux_not_nan.
Qed.
End FloatFacts.

(** ** Lists *)

Section ListFacts.
Context {A B : Type}.

Lemma flat_map_ext_seq (f g : nat -> list B) (len start : nat) :
  (forall i, start <= i < start + len -> f i = g i) ->
  flat_map f (seq start len) = flat_map g (seq start len).
Proof.
  revert start. induction len as [|len IH]; intros start H; simpl.
  - reflexivity.
  - rewrite (H start) by lia. f_equal. apply IH. intros i Hi. apply H. lia.
Qed.

Lemma flat_map_seq_shift (f : nat -> list B) (len start : nat) :
  flat_map f (seq (S start) len) = flat_map (fun i => f (S i)) (seq start len).
Proof.
  rewrite <- seq_shift. rewrite !flat_map_concat_map, map_map. reflexivity.
Qed.

(** Visiting a list by index is visiting its elements. *)
Lemma flat_map_by_index (f : A -> list B) (l : list A) :
  flat_map (fun i => match nth_error l i with Some a => f a | None => [] end)
           (seq 0 (length l))
  = flat_map f l.
Proof.
  induction l as [|a l IH]; simpl.
  - reflexivity.
  - f_equal. rewrite flat_map_seq_shift. exact IH.
Qed.

Lemma nth_error_combine (l1 : list A) (l2 : list B) (i : nat) :
  nth_error (combine l1 l2) i =
  match nth_error l1 i, nth_error l2 i with
  | Some a, Some b => Some (a, b)
  | _, _ => None
  end.
Proof.
  revert l2 i. induction l1 as [|a l1 IH]; intros [|b l2] [|i]; simpl;
    try reflexivity.
  - destruct (nth_error l1 i); reflexivity.
  - apply IH.
Qed.

Lemma nth_error_last (l : list A) (d : A) :
  l <> [] -> nth_error l (length l - 1) = Some (last l d).
Proof.
  induction l as [|a [|b l] IH]; intros H; try congruence.
  - reflexivity.
  - replace (length (a :: b :: l) - 1) with (S (length (b :: l) - 1))
      by (simpl; lia).
    change (nth_error (b :: l) (length (b :: l) - 1) = Some (last (b :: l) d)).
    apply IH. congruence.
Qed.

Lemma nth_error_removelast (l : list A) (i : nat) :
  i < length l - 1 -> nth_error (removelast l) i = nth_error l i.
Proof.
  revert i. induction l as [|a [|b l] IH]; intros i H; simpl in *; try lia.
  destruct i as [|i]; [reflexivity|]. simpl. apply IH. simpl. lia.
Qed.

Lemma removelast_len (l : list A) : length (removelast l) = length l - 1.
Proof.
  induction l as [|a [|b l] IH]; try reflexivity.
  change (removelast (a :: b :: l)) with (a :: removelast (b :: l)).
  simpl length in *. rewrite IH. lia.
Qed.
End ListFacts.

(** ** [clipByPlane] *)

Section ClipByPlaneFacts.
Import Clipper ClipSpec.
Variable hasUV : bool.

Lemma clipStep_push (poly : Polygon) (plane : Plane) (res : Polygon) (i : nat) :
  clipStep hasUV poly plane res i = res ++ clipStep hasUV poly plane [] i.
Proof.
  unfold clipStep.
  destruct (nth_error poly i) as [cur|]; [|now rewrite app_nil_r].
  destruct (nth_error poly _) as [prev|]; [|now rewrite app_nil_r].
  destruct (isInside plane cur), (isInside plane prev); simpl;
    rewrite <- ?app_assoc, ?app_nil_r; reflexivity.
Qed.

Lemma clip_loop (poly : Polygon) (plane : Plane) (l : list nat) (res : Polygon) :
  fold_left (clipStep hasUV poly plane) l res
  = res ++ flat_map (clipStep hasUV poly plane []) l.
Proof.
  revert res. induction l as [|i l IH]; intros res; simpl.
  - now rewrite app_nil_r.
  - rewrite IH, clipStep_push, <- app_assoc. reflexivity.
Qed.

(** The vertex the loop reads as [prev] at index [i] is the [i]-th
    element of the polygon rotated by one. *)
Lemma prev_index (v0 : Vertex) (poly : Polygon) (i : nat) :
  poly <> [] -> i < length poly ->
  nth_error poly ((i + length poly - 1) mod length poly)
  = nth_error (last poly v0 :: removelast poly) i.
Proof.
  intros Hne Hi. destruct i as [|i].
  - replace (0 + length poly - 1) with (length poly - 1) by lia.
    rewrite Nat.mod_small by lia. now apply nth_error_last.
  - replace (S i + length poly - 1) with (i + 1 * length poly) by lia.
    rewrite Nat.Div0.mod_add, Nat.mod_small by lia.
    symmetry. apply nth_error_removelast. lia.
Qed.

Lemma clipStep_edge (poly : Polygon) (plane : Plane) (i : nat) :
  i < length poly ->
  clipStep hasUV poly plane [] i
  = match nth_error (edges poly) i with
    | Some e => emission hasUV plane e
    | None => []
    end.
Proof.
  intros Hi. unfold clipStep, edges.
  destruct poly as [|v0 tl] eqn:E; [simpl in Hi; lia|]. rewrite <- E in *.
  assert (Hne : poly <> []) by (rewrite E; discriminate).
  rewrite nth_error_combine, <- (prev_index v0 poly i Hne Hi).
  destruct (nth_error poly (_ mod _)) as [prev|] eqn:Ep.
  - destruct (nth_error poly i) as [cur|]; [|reflexivity].
    unfold emission.
    destruct (isInside plane cur), (isInside plane prev); reflexivity.
  - destruct (nth_error poly i); reflexivity.
Qed.

Lemma edges_length (poly : Polygon) : length (edges poly) = length poly.
Proof.
  unfold edges. destruct poly as [|v0 tl] eqn:E; [reflexivity|].
  rewrite <- E. rewrite length_combine. simpl length at 1.
  rewrite removelast_len. rewrite E. simpl. lia.
Qed.
End ClipByPlaneFacts.


(** The triangle [(0,0), (2,0), (0,2)] cut by the plane [x <= 1]. *)
Example clipByPlane_cuts_triangle :
  map Samples.localXY
      (Clipper.clipByPlane false
         [Samples.flatVertex 0 0; Samples.flatVertex 2 0; Samples.flatVertex 0 2]
         (Clipper.mkPlane Clipper.AxisX 1 1))
  = [(0, 0); (1, 0); (1, 1); (0, 2)]%float.
Proof. by_evaluation. Qed.

(** On a plane with [s = -1] the clipper still hands the positive
    [limit] to [intersect]: for the plane [(x, -1, 1)], which bounds the
    box at [x = -1], and the edge from [x = 0] (inside) to [x = -2]
    (outside), the emitted vertex is the inside endpoint [x = 0]. *)
Remark negative_plane_emits_endpoint :
  let plane := Clipper.mkPlane Clipper.AxisX (-1) 1 in
  let prev := Clipper.mkVertex (Vector3.mk 0 0 0) (Vector3.mk 0 0 0) None in
  let cur := Clipper.mkVertex (Vector3.mk (-2) 0 0) (Vector3.mk (-2) 0 0) None in
  Clipper.isInside plane prev = true /\
  Clipper.isInside plane cur = false /\
  ClipSpec.emission false plane (prev, cur) = [prev].
Proof. by_evaluation. Qed.

(** ** [intersect] *)

Section IntersectFacts.
Import Clipper ClipSpec.
Local Open Scope float_scope.



End IntersectFacts.




(** ** [clipMeshKeepInside] *)

Section ClipMeshFacts.
Import Clipper.
Local Open Scope float_scope.

Variable geom : BufferGeometry.t.
Variable localToWorld invBoxMatrixWorld : Matrix4.t.
Variable half : Vector3.t.

Local Abbreviation emitted := (emitted geom localToWorld invBoxMatrixWorld half).
Local Abbreviation outPos := (outPos geom localToWorld invBoxMatrixWorld half).
Local Abbreviation processTriangle := (processTriangle geom localToWorld invBoxMatrixWorld half).
Local Abbreviation clippedPolygon := (clippedPolygon geom localToWorld invBoxMatrixWorld half).

Lemma pushPos_length (tri : Triangle) : length (pushPos localToWorld tri) = 9%nat.
Proof. destruct tri as [[v0 v1] v2]. reflexivity. Qed.

Lemma outPos_length : length outPos = (9 * length emitted)%nat.
Proof.
  unfold Clipper.outPos. induction emitted as [|tri l IH]; simpl.
  - reflexivity.
  - rewrite length_app, pushPos_length, IH. lia.
Qed.

Lemma hasUV_source : hasUV geom = true <-> BufferGeometry.uv geom <> None.
Proof.
  unfold hasUV, uvAttr, src, BufferGeometry.toNonIndexed, BufferGeometry.clone.
  destruct (BufferGeometry.index geom); simpl;
    destruct (BufferGeometry.uv geom); simpl; split; congruence.
Qed.

(** A triangle pushed by the run was pushed by the fan of some
    clipped polygon and passed the area test. *)
Lemma emitted_inv (v0 v1 v2 : Vertex) :
  In (v0, v1, v2) emitted ->
  exists i, (3 <= length (clippedPolygon i))%nat
            /\ In (v0, v1, v2) (fan half (clippedPolygon i))
            /\ rejected half v0 v1 v2 = false.
Proof.
  unfold Clipper.emitted. rewrite in_flat_map. intros (i & _ & Hi).
  unfold Clipper.processTriangle in Hi.
  destruct (Nat.ltb_spec (length (clippedPolygon i)) 3) as [Hlt|Hge];
    [contradiction|].
  exists i. split; [exact Hge|]. split; [exact Hi|].
  unfold fan in Hi. destruct (clippedPolygon i) as [|w0 tl]; [contradiction|].
  rewrite in_flat_map in Hi. destruct Hi as (k & _ & Hk).
  unfold fanStep in Hk.
  destruct (nth_error (w0 :: tl) k) as [w1|]; [|contradiction].
  destruct (nth_error (w0 :: tl) (k + 1)) as [w2|]; [|contradiction].
  destruct (rejected half w0 w1 w2) eqn:R; [contradiction|].
  destruct Hk as [Hk|[]]. inversion Hk; subst. exact R.
Qed.
End ClipMeshFacts.

(** ** Vertices carry [uv] exactly under [hasUV] *)

Section UVInvariant.
Import Clipper ClipSpec.

Lemma intersect_uv (h : bool) (A B : Vertex) (ax : Axis) (lim : float) :
  carriesUV A = h -> carriesUV B = h -> carriesUV (intersect h A B ax lim) = h.
Proof.
  unfold carriesUV, intersect. simpl.
  destruct h, (uv A), (uv B); simpl; congruence.
Qed.

Lemma clipStep_uv (h : bool) (poly : Polygon) (plane : Plane) (res : Polygon) (i : nat) :
  Forall (fun p => carriesUV p = h) poly ->
  Forall (fun p => carriesUV p = h) res ->
  Forall (fun p => carriesUV p = h) (clipStep h poly plane res i).
Proof.
  intros Hp Hr. unfold clipStep.
  destruct (nth_error poly i) as [cur|] eqn:Ec; [|exact Hr].
  destruct (nth_error poly ((i + length poly - 1) mod length poly))
    as [prev|] eqn:Ep; [|exact Hr].
  assert (Hc : carriesUV cur = h).
  { apply nth_error_In in Ec. rewrite Forall_forall in Hp. now apply Hp. }
  assert (Hq : carriesUV prev = h).
  { apply nth_error_In in Ep. rewrite Forall_forall in Hp. now apply Hp. }
  pose proof (intersect_uv h prev cur (axis plane) (limit plane) Hq Hc) as Hi.
  destruct (isInside plane cur), (isInside plane prev); simpl;
    repeat (apply Forall_app; split); auto.
Qed.

Lemma clipByPlane_uv (h : bool) (poly : Polygon) (plane : Plane) :
  Forall (fun p => carriesUV p = h) poly ->
  Forall (fun p => carriesUV p = h) (clipByPlane h poly plane).
Proof.
  intros Hp. unfold clipByPlane.
  destruct (length poly =? 0); [constructor|].
  assert (G : forall l res,
             Forall (fun p => carriesUV p = h) res ->
             Forall (fun p => carriesUV p = h)
                    (fold_left (clipStep h poly plane) l res)).
  { induction l as [|i l IH]; intros res Hr; simpl; [exact Hr|].
    apply IH. now apply clipStep_uv. }
  apply G. constructor.
Qed.

Variable geom : BufferGeometry.t.
Variable localToWorld invBoxMatrixWorld : Matrix4.t.
Variable half : Vector3.t.

Lemma makeV_uv (i : nat) :
  carriesUV (makeV geom localToWorld invBoxMatrixWorld i) = hasUV geom.
Proof.
  unfold carriesUV, makeV, hasUV. simpl. destruct (uvAttr geom); reflexivity.
Qed.

Lemma clipAll_uv (ps : list Plane) : forall poly : Polygon,
  Forall (fun p => carriesUV p = hasUV geom) poly ->
  Forall (fun p => carriesUV p = hasUV geom) (clipAll geom poly ps).
Proof.
  induction ps as [|plane ps IH]; intros poly Hp; simpl; [exact Hp|].
  pose proof (clipByPlane_uv (hasUV geom) poly plane Hp) as Hc.
  destruct (length (clipByPlane (hasUV geom) poly plane) =? 0); auto.
Qed.

(** Every vertex that reaches the triangulation has a [uv] property
    exactly when the geometry has UVs: the reads [A.uv], [B.uv] of
    [intersect] and [v.uv] of the fan never meet [undefined]. *)
Lemma clippedPolygon_uv (i : nat) :
  Forall (fun p => carriesUV p = hasUV geom)
         (clippedPolygon geom localToWorld invBoxMatrixWorld half i).
Proof.
  assert (H3 : Forall (fun p => carriesUV p = hasUV geom)
                 [makeV geom localToWorld invBoxMatrixWorld i;
                  makeV geom localToWorld invBoxMatrixWorld (i + 1);
                  makeV geom localToWorld invBoxMatrixWorld (i + 2)]).
  { repeat constructor; apply makeV_uv. }
  unfold clippedPolygon. destruct (allInside half _); [exact H3|].
  now apply clipAll_uv.
Qed.

(** The loop [for (let i = 0; i < pos.count; i += 3)] visits exactly the
    multiples of three below [pos.count]. *)
Lemma triangleStarts_spec (i : nat) :
  In i (triangleStarts geom)
  <-> (exists k, i = 3 * k) /\ BufferGeometry.below_count 3 (pos geom) i = true.
Proof.
  unfold triangleStarts, BufferGeometry.below_count.
  rewrite in_map_iff, Nat.ltb_lt. split.
  - intros (k & <- & Hk). apply in_seq in Hk. split; [now exists k|].
    assert (k < (length (pos geom) + 8) / 9) by lia.
    assert (9 * ((length (pos geom) + 8) / 9) <= length (pos geom) + 8)
      by (apply Nat.Div0.mul_div_le).
    lia.
  - intros ((k & ->) & Hk). exists k. split; [reflexivity|].
    apply in_seq. split; [lia|]. rewrite Nat.add_0_l.
    apply (Nat.div_le_lower_bound (length (pos geom) + 8) 9 (S k)); lia.
Qed.
End UVInvariant.

(** C10.  [clipMeshKeepInside] returns [null] exactly when no triangle
    survives clipping; a geometry it returns is not indexed, its
    position array holds [3 * k] whole vertices for some [k > 0], and it
    has a UV attribute if and only if the source geometry has one. *)
Theorem clipMeshKeepInside_null_or_soup :
  forall (geom : BufferGeometry.t) (localToWorld invBoxMatrixWorld : Matrix4.t)
         (half : Vector3.t),
    (Clipper.clipMeshKeepInside geom localToWorld invBoxMatrixWorld half = None
     <-> Clipper.emitted geom localToWorld invBoxMatrixWorld half = []) /\
    (forall out : BufferGeometry.t,
        Clipper.clipMeshKeepInside geom localToWorld invBoxMatrixWorld half = Some out ->
        BufferGeometry.index out = None /\
        (exists k : nat,
            0 < k /\
            k = length (Clipper.emitted geom localToWorld invBoxMatrixWorld half) /\
            length (BufferGeometry.position out) = 3 * (3 * k)) /\
        (BufferGeometry.uv out <> None <-> BufferGeometry.uv geom <> None)).
Proof.
  intros geom localToWorld invBoxMatrixWorld half.
  unfold Clipper.clipMeshKeepInside.
  pose proof (outPos_length geom localToWorld invBoxMatrixWorld half) as HL.
  destruct (Nat.eqb_spec
              (length (Clipper.outPos geom localToWorld invBoxMatrixWorld half)) 0)
    as [H0|H0].
  - split.
    + split; [intros _|reflexivity].
      destruct (Clipper.emitted geom localToWorld invBoxMatrixWorld half);
        [reflexivity|simpl in HL; lia].
    + intros out H. discriminate.
  - split.
    + split; [discriminate|]. intros E. rewrite E in HL. simpl in HL. lia.
    + intros out H. inversion H; subst out; clear H. simpl.
      split; [reflexivity|]. split.
      * exists (length (Clipper.emitted geom localToWorld invBoxMatrixWorld half)).
        rewrite length_map. split; [lia|]. split; [reflexivity|lia].
      * rewrite <- hasUV_source.
        destruct (Clipper.hasUV geom); split; congruence.
Qed.

Lemma clipMeshKeepInside_null_or_soup_witness :
  BufferGeometry.index
    (BufferGeometry.mk None
       (map JS.Math_fround
          (Clipper.outPos Samples.triangleGeomUV Matrix4.identity Matrix4.identity
                          Samples.unitHalf))
       (Some (map JS.Math_fround
                (Clipper.outUV Samples.triangleGeomUV Matrix4.identity
                               Matrix4.identity Samples.unitHalf))))
  = None.
Proof.
  apply (proj2 (clipMeshKeepInside_null_or_soup
                  Samples.triangleGeomUV Matrix4.identity Matrix4.identity
                  Samples.unitHalf)).
  vm_compute. reflexivity.
Defined.

(** ** A NaN half-extent clips everything away *)

Section NanHalfExtent.
Import Clipper.
Local Open Scope float_scope.

Lemma isInside_nan_limit (plane : Plane) (p : Vertex) :
  is_nan (limit plane) = true -> isInside plane p = false.
Proof.
  intros H. unfold isInside. apply leb_nan_r. now apply add_nan_l.
Qed.

Lemma clipByPlane_nan_limit (hasUV : bool) (poly : Polygon) (plane : Plane) :
  is_nan (limit plane) = true -> clipByPlane hasUV poly plane = [].
Proof.
  intros H. unfold clipByPlane.
  destruct (length poly =? 0)%nat; [reflexivity|].
  rewrite clip_loop. simpl app.
  induction (seq 0 (length poly)) as [|i l IH]; simpl; [reflexivity|].
  rewrite IH, app_nil_r. unfold clipStep.
  destruct (nth_error poly i) as [cur|]; [|reflexivity].
  destruct (nth_error poly _) as [prev|]; [|reflexivity].
  rewrite !isInside_nan_limit by exact H. reflexivity.
Qed.

Lemma clipAll_nil (geom : BufferGeometry.t) (ps : list Plane) :
  clipAll geom [] ps = [].
Proof. destruct ps; reflexivity. Qed.

Lemma clipAll_nan_limit (geom : BufferGeometry.t) (ps : list Plane) :
  forall (poly : Polygon) (plane : Plane),
    In plane ps -> is_nan (limit plane) = true -> clipAll geom poly ps = [].
Proof.
  induction ps as [|pl ps IH]; intros poly plane Hin Hnan; [contradiction|].
  simpl. destruct Hin as [->|Hin].
  - rewrite clipByPlane_nan_limit by exact Hnan. reflexivity.
  - destruct (Nat.eqb_spec (length (clipByPlane (hasUV geom) poly pl)) 0) as [E|E].
    + destruct (clipByPlane (hasUV geom) poly pl); [reflexivity|discriminate].
    + now apply (IH _ plane).
Qed.

Variable geom : BufferGeometry.t.
Variable localToWorld invBoxMatrixWorld : Matrix4.t.
Variable half : Vector3.t.

Lemma insideX_nan (v : Vector3.t) :
  is_nan (Vector3.x half) = true -> insideX half v = false.
Proof.
  intros H. unfold insideX. rewrite leb_nan_r by now apply add_nan_l. reflexivity.
Qed.

Lemma insideY_nan (v : Vector3.t) :
  is_nan (Vector3.y half) = true -> insideY half v = false.
Proof.
  intros H. unfold insideY. rewrite leb_nan_r by now apply add_nan_l. reflexivity.
Qed.

Lemma insideZ_nan (v : Vector3.t) :
  is_nan (Vector3.z half) = true -> insideZ half v = false.
Proof.
  intros H. unfold insideZ. rewrite leb_nan_r by now apply add_nan_l. reflexivity.
Qed.

Lemma clippedPolygon_nan (i : nat) :
  ClipSpec.half_has_nan half = true ->
  clippedPolygon geom localToWorld invBoxMatrixWorld half i = [].
Proof.
  unfold ClipSpec.half_has_nan. rewrite !orb_true_iff. intros H.
  unfold clippedPolygon.
  assert (HA : allInside half
                 [makeV geom localToWorld invBoxMatrixWorld i;
                  makeV geom localToWorld invBoxMatrixWorld (i + 1);
                  makeV geom localToWorld invBoxMatrixWorld (i + 2)] = false).
  { unfold allInside. simpl forallb.
    destruct H as [[H|H]|H].
    - rewrite (insideX_nan _ H). reflexivity.
    - rewrite (insideY_nan _ H), andb_false_r. reflexivity.
    - rewrite (insideZ_nan _ H), andb_false_r. reflexivity. }
  rewrite HA. unfold planes.
  destruct H as [[H|H]|H].
  - apply (clipAll_nan_limit _ _ _ (mkPlane AxisX 1 (Vector3.x half)));
      simpl; auto.
  - apply (clipAll_nan_limit _ _ _ (mkPlane AxisY 1 (Vector3.y half)));
      simpl; auto.
  - apply (clipAll_nan_limit _ _ _ (mkPlane AxisZ 1 (Vector3.z half)));
      simpl; auto 7.
Qed.

Lemma max2_not_nan (a b : float) :
  is_nan a = false -> is_nan b = false -> is_nan (JS.max2 a b) = false.
Proof.
  intros Ha Hb. unfold JS.max2. rewrite Ha, Hb. simpl.
  destruct (a <? b); [exact Hb|]. destruct (b <? a); [exact Ha|].
  destruct (JS.is_neg_zero a); assumption.
Qed.

Lemma threshold_not_nan :
  ClipSpec.half_has_nan half = false -> is_nan (scale half * 1e-7) = false.
Proof.
  unfold ClipSpec.half_has_nan. rewrite !orb_false_iff. intros [[Hx Hy] Hz].
  apply (mul_finite_not_nan _ _ false 7555786372591432%positive (-76)%Z);
    [reflexivity|].
  unfold scale, JS.Math_max. simpl fold_left.
  repeat apply max2_not_nan; auto.
Qed.
End NanHalfExtent.

(** C8.  Every triangle emitted by the fan triangulation of a clipped
    polygon has a finite world-space cross-product magnitude strictly
    greater than [volumeScale * 1e-7], with
    [volumeScale = Math.max(half.x, half.y, half.z)]; a candidate whose
    magnitude is not finite or is at most that threshold pushes
    nothing. *)
Theorem emitted_triangles_exceed_area_threshold :
  forall (geom : BufferGeometry.t) (localToWorld invBoxMatrixWorld : Matrix4.t)
         (half : Vector3.t),
    let threshold :=
      (JS.Math_max [Vector3.x half; Vector3.y half; Vector3.z half] * 1e-7)%float in
    (forall v0 v1 v2 : Clipper.Vertex,
        In (v0, v1, v2) (Clipper.emitted geom localToWorld invBoxMatrixWorld half) ->
        is_finite (Clipper.area2 v0 v1 v2) = true /\
        (threshold <? Clipper.area2 v0 v1 v2)%float = true) /\
    (forall (poly : Clipper.Polygon) (k : nat) (v0 v1 v2 : Clipper.Vertex),
        nth_error poly k = Some v1 -> nth_error poly (k + 1) = Some v2 ->
        is_finite (Clipper.area2 v0 v1 v2) = false
        \/ (Clipper.area2 v0 v1 v2 <=? threshold)%float = true ->
        Clipper.fanStep half poly v0 k = []).
Proof.
  intros geom localToWorld invBoxMatrixWorld half threshold. split.
  - intros v0 v1 v2 Hin.
    destruct (emitted_inv _ _ _ _ _ _ _ Hin) as (i & Hlen & _ & Hrej).
    unfold Clipper.rejected in Hrej. apply orb_false_iff in Hrej.
    destruct Hrej as [Hfin Hle]. apply negb_false_iff in Hfin.
    split; [exact Hfin|].
    destruct (ClipSpec.half_has_nan half) eqn:Hnan.
    + rewrite (clippedPolygon_nan geom localToWorld invBoxMatrixWorld half i Hnan)
        in Hlen. simpl in Hlen. lia.
    + apply leb_false_ltb.
      * now apply is_finite_not_nan.
      * now apply threshold_not_nan.
      * exact Hle.
  - intros poly k v0 v1 v2 H1 H2 Hbad. unfold Clipper.fanStep.
    rewrite H1, H2.
    assert (R : Clipper.rejected half v0 v1 v2 = true).
    { unfold Clipper.rejected, JS.Number_isFinite.
      destruct Hbad as [Hb|Hb].
      - rewrite Hb. reflexivity.
      - fold threshold in Hb. unfold Clipper.scale. fold threshold.
        rewrite Hb. apply orb_true_r. }
    rewrite R. reflexivity.
Qed.

Lemma emitted_triangles_exceed_area_threshold_witness :
  is_finite (Clipper.area2
               (Clipper.makeV Samples.triangleGeom Matrix4.identity Matrix4.identity 0)
               (Clipper.makeV Samples.triangleGeom Matrix4.identity Matrix4.identity 1)
               (Clipper.makeV Samples.triangleGeom Matrix4.identity Matrix4.identity 2))
  = true /\
  (JS.Math_max [1; 1; 1] * 1e-7
   <? Clipper.area2
        (Clipper.makeV Samples.triangleGeom Matrix4.identity Matrix4.identity 0)
        (Clipper.makeV Samples.triangleGeom Matrix4.identity Matrix4.identity 1)
        (Clipper.makeV Samples.triangleGeom Matrix4.identity Matrix4.identity 2))%float
  = true.
Proof.
  apply (proj1 (emitted_triangles_exceed_area_threshold
                  Samples.triangleGeom Matrix4.identity Matrix4.identity
                  Samples.unitHalf)).
  vm_compute. left. reflexivity.
Defined.

(** ** The quick accept *)

Section QuickAccept.
Import Clipper ClipSpec.

Variable geom : BufferGeometry.t.
Variable localToWorld invBoxMatrixWorld : Matrix4.t.
Variable half : Vector3.t.

Lemma fan_triangle (v0 v1 v2 : Vertex) :
  fan half [v0; v1; v2] = keptBySize half (v0, v1, v2).
Proof.
  unfold fan, fanStep, keptBySize. simpl.
  destruct (rejected half v0 v1 v2); reflexivity.
Qed.

Lemma processTriangle_inside (i : nat) :
  allInside half [makeV geom localToWorld invBoxMatrixWorld i;
                  makeV geom localToWorld invBoxMatrixWorld (i + 1);
                  makeV geom localToWorld invBoxMatrixWorld (i + 2)] = true ->
  clippedPolygon geom localToWorld invBoxMatrixWorld half i
  = [makeV geom localToWorld invBoxMatrixWorld i;
     makeV geom localToWorld invBoxMatrixWorld (i + 1);
     makeV geom localToWorld invBoxMatrixWorld (i + 2)]
  /\ processTriangle geom localToWorld invBoxMatrixWorld half i
     = keptBySize half (sourceTriangle geom localToWorld invBoxMatrixWorld i).
Proof.
  intros H. unfold processTriangle, clippedPolygon. rewrite H.
  split; [reflexivity|]. simpl Nat.ltb. cbv iota. apply fan_triangle.
Qed.
End QuickAccept.

(** C4, as amended.  For a triangle whose three vertices pass the
    quick test (within [half + EPS] of the box centre on every axis)
    the six clip passes are skipped: the polygon that is triangulated is
    the input triangle itself.  It is pushed once, unless its doubled
    area is not finite or at most [volumeScale * 1e-7], in which case it
    is dropped.  The pushed positions are the input positions taken to
    world space and back by the inverse world matrix, the pushed UVs
    are the input UVs.  Hence for a mesh whose triangles all pass the
    quick test the output is the input triangles that pass the area
    test, in order. *)
Theorem interior_triangles_kept_unless_small :
  forall (geom : BufferGeometry.t) (localToWorld invBoxMatrixWorld : Matrix4.t)
         (half : Vector3.t),
    let tri := ClipSpec.sourceTriangle geom localToWorld invBoxMatrixWorld in
    let inside i :=
      Clipper.allInside half
        [Clipper.makeV geom localToWorld invBoxMatrixWorld i;
         Clipper.makeV geom localToWorld invBoxMatrixWorld (i + 1);
         Clipper.makeV geom localToWorld invBoxMatrixWorld (i + 2)] in
    let source i :=
      Vector3.ofOptions (BufferGeometry.getX 3 (Clipper.pos geom) i)
                        (BufferGeometry.getY 3 (Clipper.pos geom) i)
                        (BufferGeometry.getZ 3 (Clipper.pos geom) i) in
    let back p :=
      Vector3.applyMatrix4 (Vector3.applyMatrix4 p localToWorld)
                           (Matrix4.invert localToWorld) in
    (forall i : nat,
        inside i = true ->
        Clipper.clippedPolygon geom localToWorld invBoxMatrixWorld half i
        = [Clipper.makeV geom localToWorld invBoxMatrixWorld i;
           Clipper.makeV geom localToWorld invBoxMatrixWorld (i + 1);
           Clipper.makeV geom localToWorld invBoxMatrixWorld (i + 2)]
        /\ Clipper.processTriangle geom localToWorld invBoxMatrixWorld half i
           = ClipSpec.keptBySize half (tri i)) /\
    (forall i : nat,
        Clipper.pushPos localToWorld (tri i)
        = [Vector3.x (back (source i)); Vector3.y (back (source i));
           Vector3.z (back (source i));
           Vector3.x (back (source (i + 1))); Vector3.y (back (source (i + 1)));
           Vector3.z (back (source (i + 1)));
           Vector3.x (back (source (i + 2))); Vector3.y (back (source (i + 2)));
           Vector3.z (back (source (i + 2)))]) /\
    (forall (i : nat) (a : list float),
        Clipper.uvAttr geom = Some a ->
        Clipper.pushUV geom (tri i)
        = flat_map (fun j => [match BufferGeometry.getX 2 a j with
                              | Some c => c | None => 0%float end;
                              match BufferGeometry.getY 2 a j with
                              | Some c => c | None => 0%float end])
                   [i; i + 1; i + 2]) /\
    ((forall i : nat, In i (Clipper.triangleStarts geom) -> inside i = true) ->
     Clipper.emitted geom localToWorld invBoxMatrixWorld half
     = flat_map (fun i => ClipSpec.keptBySize half (tri i))
                (Clipper.triangleStarts geom)).
Proof.
  intros geom localToWorld invBoxMatrixWorld half tri inside source back.
  split; [|split; [|split]].
  - intros i Hi. now apply processTriangle_inside.
  - intros i. reflexivity.
  - intros i a Ha. unfold Clipper.pushUV, tri, ClipSpec.sourceTriangle,
      Clipper.hasUV, Clipper.uvPair, Clipper.makeV. rewrite Ha. reflexivity.
  - intros Hall. unfold Clipper.emitted.
    induction (Clipper.triangleStarts geom) as [|i l IH]; [reflexivity|].
    simpl. rewrite IH by (intros j Hj; apply Hall; now right).
    f_equal. apply processTriangle_inside. apply Hall. now left.
Qed.

Lemma interior_triangles_kept_unless_small_witness :
  Clipper.processTriangle Samples.triangleGeom Matrix4.identity Matrix4.identity
                          Samples.unitHalf 0
  = ClipSpec.keptBySize Samples.unitHalf
      (ClipSpec.sourceTriangle Samples.triangleGeom Matrix4.identity Matrix4.identity 0).
Proof.
  apply (proj1 (interior_triangles_kept_unless_small
                  Samples.triangleGeom Matrix4.identity Matrix4.identity
                  Samples.unitHalf)).
  vm_compute. reflexivity.
Defined.

(** C4 as stated fails: the triangle of [smallTriangleGeom] lies well
    inside the box of half-extent [(1, 1, 1)] and passes the quick test,
    it is not degenerate (its doubled area is [2^-26]), and the clipper
    drops it; the result is [null]. *)
Lemma interior_triangle_dropped :
  Clipper.allInside Samples.unitHalf
    [Clipper.makeV Samples.smallTriangleGeom Matrix4.identity Matrix4.identity 0;
     Clipper.makeV Samples.smallTriangleGeom Matrix4.identity Matrix4.identity 1;
     Clipper.makeV Samples.smallTriangleGeom Matrix4.identity Matrix4.identity 2]
  = true /\
  Clipper.area2
    (Clipper.makeV Samples.smallTriangleGeom Matrix4.identity Matrix4.identity 0)
    (Clipper.makeV Samples.smallTriangleGeom Matrix4.identity Matrix4.identity 1)
    (Clipper.makeV Samples.smallTriangleGeom Matrix4.identity Matrix4.identity 2)
  = 1.4901161193847656e-08%float /\
  Clipper.emitted Samples.smallTriangleGeom Matrix4.identity Matrix4.identity
                  Samples.unitHalf = [] /\
  Clipper.clipMeshKeepInside Samples.smallTriangleGeom Matrix4.identity
                             Matrix4.identity Samples.unitHalf = None.
Proof. by_evaluation. Qed.

(** ** The crop effect *)

Section CropFacts.
Import Crop.

Variable CSG_intersect :
  BufferGeometry.t -> BufferGeometry.t -> JS.completion BufferGeometry.t.
Variable mergeVertices :
  BufferGeometry.t -> float -> JS.completion BufferGeometry.t.
Variable BoxGeometry : float -> float -> float -> BufferGeometry.t.

Lemma traverse_length (f : Node -> Node * list Event) (nodes : list Node) :
  length (fst (traverse f nodes)) = length nodes.
Proof.
  induction nodes as [|n rest IH]; simpl; [reflexivity|].
  destruct (f n) as [n' ev]. destruct (traverse f rest) as [rest' evs].
  simpl in *. now rewrite IH.
Qed.

End CropFacts.

(** C3.  When the crop region has a non-positive size along some axis,
    the crop effect stops before it visits any mesh: the viewer state is
    returned as it was (no geometry replaced, no visibility changed),
    nothing is disposed, and the only thing that may have happened is
    the [onApplyStart] callback. *)
Theorem invalid_volume_changes_nothing :
  forall (CSG_intersect :
            BufferGeometry.t -> BufferGeometry.t -> JS.completion BufferGeometry.t)
         (mergeVertices : BufferGeometry.t -> float -> JS.completion BufferGeometry.t)
         (BoxGeometry : float -> float -> float -> BufferGeometry.t)
         (p : Crop.Props) (v : Crop.Viewer) (c : Box3.Bounds),
    Crop.crop p = Some c ->
    Crop.invalidSize (Crop.cropSize c) = true ->
    fst (Crop.applyCrop CSG_intersect mergeVertices BoxGeometry p v) = v /\
    (snd (Crop.applyCrop CSG_intersect mergeVertices BoxGeometry p v) = []
     \/ snd (Crop.applyCrop CSG_intersect mergeVertices BoxGeometry p v)
        = [Crop.OnApplyStart]).
Proof.
  intros CSG_intersect mergeVertices BoxGeometry p v c Hc Hbad.
  unfold Crop.applyCrop. rewrite Hc.
  destruct (Crop.applyCropToken p =? 0); [split; [reflexivity|now left]|].
  destruct (Crop.sceneObject v) as [nodes|]; [|split; [reflexivity|now left]].
  destruct (Crop.cropEnabled p); [|split; [reflexivity|now left]].
  rewrite Hbad. split; [reflexivity|now right].
Qed.

Lemma invalid_volume_changes_nothing_witness :
  fst (Crop.applyCrop Samples.csgFirst Samples.mergeNothing Samples.boxCorners
                      (Samples.request Samples.flatCrop)
                      (Samples.viewerOf Samples.triangleGeom))
  = Samples.viewerOf Samples.triangleGeom.
Proof.
  apply (invalid_volume_changes_nothing
           Samples.csgFirst Samples.mergeNothing Samples.boxCorners
           (Samples.request Samples.flatCrop)
           (Samples.viewerOf Samples.triangleGeom) Samples.flatCrop).
  - reflexivity.
  - vm_compute. reflexivity.
Defined.

(** C5.  When the clip of a mesh produces no triangle (the boolean
    intersection threw or returned no vertex, and the polygon clipper
    returned [null]), the mesh is hidden ([visible = false]) and keeps
    its previous geometry, which is neither disposed nor replaced; the
    mesh is not removed, the traversal keeps every node. *)
Theorem empty_clip_hides_mesh :
  forall (CSG_intersect :
            BufferGeometry.t -> BufferGeometry.t -> JS.completion BufferGeometry.t)
         (mergeVertices : BufferGeometry.t -> float -> JS.completion BufferGeometry.t)
         (boxGeo : BufferGeometry.t) (boxMatrixWorld : Matrix4.t)
         (size : Vector3.t) (eps : float) (child : Crop.Node) (g : BufferGeometry.t),
    Crop.geometry child = Some g ->
    Crop.isMesh child = true ->
    Crop.isSkinnedMesh child = false ->
    (forall r : BufferGeometry.t,
        Crop.csgResult CSG_intersect
          (BufferGeometry.applyMatrix4 (BufferGeometry.clone g) (Crop.matrixWorld child))
          (BufferGeometry.applyMatrix4 (BufferGeometry.clone boxGeo) boxMatrixWorld)
        = Some r ->
        BufferGeometry.hasVertices r = false) ->
    Clipper.clipMeshKeepInside g (Crop.matrixWorld child)
      (Matrix4.invert boxMatrixWorld) (Crop.halfExtent size eps) = None ->
    let result :=
      Crop.cropChild CSG_intersect mergeVertices boxGeo boxMatrixWorld size eps child in
    Crop.visible (fst result) = false /\
    Crop.geometry (fst result) = Some g /\
    (forall g' : BufferGeometry.t, ~ In (Crop.Dispose g') (snd result)) /\
    (forall nodes : list Crop.Node,
        length (fst (Crop.traverse
                       (Crop.cropChild CSG_intersect mergeVertices boxGeo
                                       boxMatrixWorld size eps) nodes))
        = length nodes).
Proof.
  intros CSG_intersect mergeVertices boxGeo boxMatrixWorld size eps child g
         Hg Hmesh Hskin Hcsg Hclip result.
  assert (Hfb : Crop.fallback mergeVertices boxMatrixWorld size eps child g
                = (Crop.hide child, [Crop.CallClipper g])).
  { unfold Crop.fallback. rewrite Hclip. reflexivity. }
  assert (Hres : exists a b,
             result = (Crop.hide child, [Crop.CallCSG a b; Crop.CallClipper g])).
  { subst result. unfold Crop.cropChild. rewrite Hg, Hmesh, Hskin. simpl negb.
    cbv iota zeta.
    destruct (Crop.csgResult CSG_intersect _ _) as [r|] eqn:E.
    - rewrite (Hcsg r eq_refl), Hfb. eauto.
    - rewrite Hfb. eauto. }
  destruct Hres as (a & b & ->). simpl.
  repeat split; auto.
  - intros g' [H|[H|[]]]; discriminate.
  - intros nodes. apply traverse_length.
Qed.

Lemma empty_clip_hides_mesh_witness :
  Crop.visible
    (fst (Crop.cropChild Samples.csgThrows Samples.mergeNothing
            (Samples.boxCorners 0.5 0.5 0.5)
            (Object3D.compose (Crop.cropCenter Samples.farCrop) Quaternion.identity
                              (Vector3.mk 1 1 1))
            (Crop.cropSize Samples.farCrop) 0
            (Samples.meshNode Samples.triangleGeom)))
  = false.
Proof.
  apply (empty_clip_hides_mesh Samples.csgThrows Samples.mergeNothing
           (Samples.boxCorners 0.5 0.5 0.5)
           (Object3D.compose (Crop.cropCenter Samples.farCrop) Quaternion.identity
                             (Vector3.mk 1 1 1))
           (Crop.cropSize Samples.farCrop) 0
           (Samples.meshNode Samples.triangleGeom) Samples.triangleGeom).
  - reflexivity.
  - reflexivity.
  - reflexivity.
  - intros r H. discriminate H.
  - vm_compute. reflexivity.
Defined.



(** ** The sizing effect *)

(** C6, as amended.  With [lockAspect] and anchor [x] the single ratio
    [target.x / current.x] replaces all three factors.  On the model of
    current size [(2, 4, 8)] cm, a request with target [(1, ty, tz)]
    whose components are all positive has the ratio [0.5], which is
    applied to the three axes of the scale and yields a model of
    [(1, 2, 4)] cm.  (The size panel turns the edit [(1, 0, 0)] into the
    target [(1, 2, 4)] before the request is made.) *)
Theorem locked_anchor_x_scales_uniformly :
  forall ty tz : float,
    (0 <? ty)%float = true ->
    (0 <? tz)%float = true ->
    (forall t size : Vector3.t,
        Size.factors t true Size.AnchorX size
        = Vector3.mk (Vector3.x t / (Vector3.x size * 100))%float
                     (Vector3.x t / (Vector3.x size * 100))%float
                     (Vector3.x t / (Vector3.x size * 100))%float) /\
    Size.dimsCm (Box3.bounds (Size.worldBox Samples.centredScene))
    = Vector3.mk 2 4 8 /\
    Size.factors (Vector3.mk 1 ty tz) true Size.AnchorX
                 (Box3.getSize (Size.worldBox Samples.centredScene))
    = Vector3.mk 0.5 0.5 0.5 /\
    Size.applySize (Some Samples.centredScene)
                   (Some (Samples.lockedX (Vector3.mk 1 ty tz)))
    = Some (Samples.halvedScene, Box3.bounds (Size.worldBox Samples.halvedScene)) /\
    Size.dimsCm (Box3.bounds (Size.worldBox Samples.halvedScene))
    = Vector3.mk 1 2 4 /\
    Size.onTargetCm true Size.AnchorX (Some (Vector3.mk 2 4 8)) (Vector3.mk 1 0 0)
    = Vector3.mk 1 2 4.
Proof.
  intros ty tz Hy Hz. split; [|split; [|split; [|split; [|split]]]].
  - intros t size. reflexivity.
  - vm_compute. reflexivity.
  - vm_compute. reflexivity.
  - unfold Size.applySize, Samples.lockedX, Size.positiveTarget.
    cbn [Size.targetCm Size.lockAspect Size.anchor Vector3.x Vector3.y Vector3.z].
    rewrite Hy, Hz.
    replace (0 <? 1)%float with true by reflexivity. cbn [andb negb].
    assert (Hs : Box3.getSize (Size.worldBox Samples.centredScene)
                 = Vector3.mk 0.02 0.04 0.08) by (vm_compute; reflexivity).
    rewrite Hs.
    replace (Size.factors (Vector3.mk 1 ty tz) true Size.AnchorX
                          (Vector3.mk 0.02 0.04 0.08))
      with (Vector3.mk 0.5 0.5 0.5) by (vm_compute; reflexivity).
    vm_compute. reflexivity.
  - vm_compute. reflexivity.
  - vm_compute. reflexivity.
Qed.

Lemma locked_anchor_x_scales_uniformly_witness :
  Size.factors (Vector3.mk 1 2 4) true Size.AnchorX
               (Box3.getSize (Size.worldBox Samples.centredScene))
  = Vector3.mk 0.5 0.5 0.5.
Proof.
  apply (locked_anchor_x_scales_uniformly 2 4); reflexivity.
Defined.

(** C6 as stated fails: on the model of current size [(2, 4, 8)] cm the
    request with target [(1, 0, 0)], [lockAspect] and anchor [x] is
    refused by the guard on the target and changes nothing. *)
Lemma zero_target_component_is_refused :
  Size.dimsCm (Box3.bounds (Size.worldBox Samples.centredScene))
  = Vector3.mk 2 4 8 /\
  Size.applySize (Some Samples.centredScene)
                 (Some (Samples.lockedX (Vector3.mk 1 0 0)))
  = None.
Proof. by_evaluation. Qed.

(** The two translations of the effect act on [position] only and the
    factor on [scale] only. *)
Lemma scaleAboutCenter_fields (sc : Size.Scene) (center f : Vector3.t) :
  Size.position (Size.scaleAboutCenter sc center f)
  = Vector3.add (Vector3.sub (Size.position sc) center) center /\
  Size.groupPosition (Size.scaleAboutCenter sc center f)
  = Vector3.add (Vector3.sub (Size.groupPosition sc) center) center /\
  Size.scale (Size.scaleAboutCenter sc center f)
  = Vector3.multiply (Size.scale sc) f.
Proof. repeat split. Qed.

(** C7 on the code: the model as [loadModel] leaves it has its
    bounding-box centre at the origin; after the resize to
    [(1, 2, 4)] cm the position of the object is what it was, and the
    bounding-box centre has moved to [(-0.005, -0.01, -0.02)]. *)
Lemma resize_moves_bounding_box_center :
  Box3.getCenter (Size.worldBox Samples.centredScene) = Vector3.mk 0 0 0 /\
  Size.applySize (Some Samples.centredScene)
                 (Some (Samples.lockedX (Vector3.mk 1 2 4)))
  = Some (Samples.halvedScene, Box3.bounds (Size.worldBox Samples.halvedScene)) /\
  Size.position Samples.halvedScene = Size.position Samples.centredScene /\
  Box3.getCenter (Size.worldBox Samples.halvedScene)
  = Vector3.mk (-0.005) (-0.01) (-0.02).
Proof. by_evaluation. Qed.

(* ================================================================== *)
(** * Part IV: further properties of the code                          *)
(* ================================================================== *)

(** ** More on [clipByPlane] *)

Section ClipByPlaneMore.
Import Clipper ClipSpec.
Variable hasUV : bool.

Lemma clipByPlane_edges (poly : Polygon) (plane : Plane) :
  clipByPlane hasUV poly plane = flat_map (emission hasUV plane) (edges poly).
Proof.
  unfold clipByPlane.
  destruct (Nat.eqb_spec (length poly) 0) as [H0|H0].
  - destruct poly; [reflexivity|discriminate].
  - rewrite clip_loop. simpl app.
    rewrite <- (flat_map_by_index (emission hasUV plane) (edges poly)).
    rewrite edges_length.
    apply flat_map_ext_seq. intros i Hi. apply clipStep_edge. lia.
Qed.

Lemma map_snd_combine {A B : Type} (l1 : list A) (l2 : list B) :
  length l1 = length l2 -> map snd (combine l1 l2) = l2.
Proof.
  revert l2. induction l1 as [|a l1 IH]; intros [|b l2] H; simpl in *;
    try discriminate; [reflexivity|]. f_equal. apply IH. lia.
Qed.

Lemma map_snd_edges (poly : Polygon) : map snd (edges poly) = poly.
Proof.
  unfold edges. destruct poly as [|v0 tl] eqn:E; [reflexivity|]. rewrite <- E.
  apply map_snd_combine. simpl. rewrite removelast_len. rewrite E. simpl. lia.
Qed.

Lemma in_removelast {A : Type} (l : list A) (a : A) :
  In a (removelast l) -> In a l.
Proof.
  induction l as [|b l IH]; [auto|]. destruct l as [|c l]; [contradiction|].
  change (removelast (b :: c :: l)) with (b :: removelast (c :: l)).
  intros [H|H]; [now left|right; now apply IH].
Qed.

Lemma in_last {A : Type} (l : list A) (d : A) : l <> [] -> In (last l d) l.
Proof.
  induction l as [|b [|c l] IH]; intros H; try congruence.
  - now left.
  - right. apply IH. discriminate.
Qed.

Lemma edges_in (poly : Polygon) (prev cur : Vertex) :
  In (prev, cur) (edges poly) -> In prev poly /\ In cur poly.
Proof.
  unfold edges. destruct poly as [|v0 tl] eqn:E; [contradiction|]. rewrite <- E.
  intros H. split.
  - apply in_combine_l in H. destruct H as [H|H].
    + rewrite <- H. apply in_last. rewrite E. discriminate.
    + now apply in_removelast.
  - now apply in_combine_r in H.
Qed.
End ClipByPlaneMore.

Lemma emission_all_inside (hasUV : bool) (plane : Clipper.Plane) :
  forall l : list (Clipper.Vertex * Clipper.Vertex),
    (forall prev cur, In (prev, cur) l ->
                      Clipper.isInside plane prev = true
                      /\ Clipper.isInside plane cur = true) ->
    flat_map (ClipSpec.emission hasUV plane) l = map snd l.
Proof.
  induction l as [|[prev cur] l IH]; intros Hl; [reflexivity|].
  simpl. destruct (Hl prev cur (or_introl eq_refl)) as [-> ->]. simpl.
  f_equal. apply IH. intros p c Hin. apply Hl. now right.
Qed.

Lemma edges_all_inside (poly : Clipper.Polygon) (plane : Clipper.Plane) :
  (forall p, In p poly -> Clipper.isInside plane p = true) ->
  forall prev cur, In (prev, cur) (ClipSpec.edges poly) ->
                   Clipper.isInside plane prev = true
                   /\ Clipper.isInside plane cur = true.
Proof.
  intros H prev cur Hin. apply edges_in in Hin. destruct Hin. auto.
Qed.

(** X1.  A plane that has every vertex of a polygon on its inner side
    leaves the polygon as it is: the same vertices in the same order,
    and no call of [intersect]. *)
Theorem clipByPlane_keeps_inside_polygon :
  forall (hasUV : bool) (poly : Clipper.Polygon) (plane : Clipper.Plane),
    (forall p, In p poly -> Clipper.isInside plane p = true) ->
    Clipper.clipByPlane hasUV poly plane = poly.
Proof.
  intros hasUV poly plane H. rewrite clipByPlane_edges.
  rewrite <- (map_snd_edges poly) at 2.
  apply emission_all_inside. now apply edges_all_inside.
Qed.

(** X2.  A plane that has every vertex of a polygon on its outer side
    removes the polygon: the result is empty, which is what makes the
    loop over the planes stop early. *)
Theorem clipByPlane_drops_outside_polygon :
  forall (hasUV : bool) (poly : Clipper.Polygon) (plane : Clipper.Plane),
    (forall p, In p poly -> Clipper.isInside plane p = false) ->
    Clipper.clipByPlane hasUV poly plane = [].
Proof.
  intros hasUV poly plane H. rewrite clipByPlane_edges.
  assert (G : forall l, (forall prev cur, In (prev, cur) l ->
                          Clipper.isInside plane prev = false
                          /\ Clipper.isInside plane cur = false) ->
               flat_map (ClipSpec.emission hasUV plane) l = []).
  { induction l as [|[prev cur] l IH]; intros Hl; [reflexivity|].
    simpl. destruct (Hl prev cur (or_introl eq_refl)) as [-> ->]. simpl.
    apply IH. intros p c Hin. apply Hl. now right. }
  apply G. intros prev cur Hin. apply edges_in in Hin. destruct Hin. auto.
Qed.

(** X3.  The number of vertices that [clipByPlane] returns is the number
    of vertices on the inner side plus the number of edges that cross
    the plane, and never more than twice the number of vertices of the
    polygon. *)
Theorem clipByPlane_length :
  forall (hasUV : bool) (poly : Clipper.Polygon) (plane : Clipper.Plane),
    length (Clipper.clipByPlane hasUV poly plane)
    = length (filter (Clipper.isInside plane) poly)
      + length (filter (ClipCount.crosses plane) (ClipSpec.edges poly))
    /\ length (Clipper.clipByPlane hasUV poly plane) <= 2 * length poly.
Proof.
  intros hasUV poly plane. rewrite clipByPlane_edges.
  assert (G : forall l,
             length (flat_map (ClipSpec.emission hasUV plane) l)
             = length (filter (Clipper.isInside plane) (map snd l))
               + length (filter (ClipCount.crosses plane) l)
             /\ length (flat_map (ClipSpec.emission hasUV plane) l) <= 2 * length l).
  { induction l as [|[prev cur] l [IH1 IH2]]; [split; reflexivity|].
    change (flat_map (ClipSpec.emission hasUV plane) ((prev, cur) :: l))
      with (ClipSpec.emission hasUV plane (prev, cur)
            ++ flat_map (ClipSpec.emission hasUV plane) l).
    rewrite length_app. simpl map. simpl filter.
    unfold ClipCount.crosses at 1. simpl fst. simpl snd.
    unfold ClipSpec.emission at 1 3.
    destruct (Clipper.isInside plane prev), (Clipper.isInside plane cur);
      simpl length; split; lia. }
  destruct (G (ClipSpec.edges poly)) as [G1 G2].
  rewrite map_snd_edges in G1. rewrite edges_length in G2. split; assumption.
Qed.

Lemma clipByPlane_keeps_inside_polygon_witness :
  Clipper.clipByPlane false
    [Samples.flatVertex 0 0; Samples.flatVertex 0.5 0; Samples.flatVertex 0 0.5]
    (Clipper.mkPlane Clipper.AxisX 1 1)
  = [Samples.flatVertex 0 0; Samples.flatVertex 0.5 0; Samples.flatVertex 0 0.5].
Proof.
  apply (clipByPlane_keeps_inside_polygon false
           [Samples.flatVertex 0 0; Samples.flatVertex 0.5 0; Samples.flatVertex 0 0.5]
           (Clipper.mkPlane Clipper.AxisX 1 1)).
  intros p [<-|[<-|[<-|[]]]]; vm_compute; reflexivity.
Defined.

Lemma clipByPlane_drops_outside_polygon_witness :
  Clipper.clipByPlane false
    [Samples.flatVertex 2 0; Samples.flatVertex 3 0; Samples.flatVertex 2 1]
    (Clipper.mkPlane Clipper.AxisX 1 1)
  = [].
Proof.
  apply (clipByPlane_drops_outside_polygon false
           [Samples.flatVertex 2 0; Samples.flatVertex 3 0; Samples.flatVertex 2 1]
           (Clipper.mkPlane Clipper.AxisX 1 1)).
  intros p [<-|[<-|[<-|[]]]]; vm_compute; reflexivity.
Defined.

(** ** More on [clipMeshKeepInside] *)

Section FanFacts.
Import Clipper.
Variable half : Vector3.t.

Lemma fanStep_length (poly : Polygon) (v0 : Vertex) (k : nat) :
  length (fanStep half poly v0 k) <= 1.
Proof.
  unfold fanStep.
  destruct (nth_error poly k); [|simpl; lia].
  destruct (nth_error poly (k + 1)); [|simpl; lia].
  destruct (rejected half v0 _ _); simpl; lia.
Qed.

Lemma fan_inv (poly : Polygon) (v0 v1 v2 : Vertex) :
  In (v0, v1, v2) (fan half poly) ->
  exists k, 1 <= k /\ k + 1 < length poly
            /\ nth_error poly 0 = Some v0
            /\ nth_error poly k = Some v1
            /\ nth_error poly (k + 1) = Some v2
            /\ rejected half v0 v1 v2 = false.
Proof.
  unfold fan. destruct poly as [|w0 tl] eqn:E; [contradiction|]. rewrite <- E.
  rewrite in_flat_map. intros (k & Hk & Hin). apply in_seq in Hk.
  unfold fanStep in Hin.
  destruct (nth_error poly k) as [w1|] eqn:E1; [|contradiction].
  destruct (nth_error poly (k + 1)) as [w2|] eqn:E2; [|contradiction].
  destruct (rejected half w0 w1 w2) eqn:R; [contradiction|].
  destruct Hin as [Hin|[]]. inversion Hin; subst w0 w1 w2.
  exists k. repeat split; try lia; auto.
  rewrite E. reflexivity.
Qed.

Lemma fan_length (poly : Polygon) : length (fan half poly) <= length poly - 2.
Proof.
  unfold fan. destruct poly as [|w0 tl] eqn:E; [simpl; lia|]. rewrite <- E.
  generalize (length poly - 2). intros n. generalize 1.
  induction n as [|n IH]; intros start; simpl; [lia|].
  rewrite length_app. pose proof (fanStep_length poly w0 start).
  specialize (IH (S start)). lia.
Qed.
End FanFacts.

Section EmittedFacts.
Import Clipper ClipSpec.
Variable geom : BufferGeometry.t.
Variable localToWorld invBoxMatrixWorld : Matrix4.t.
Variable half : Vector3.t.

Lemma emitted_vertices_uv (v0 v1 v2 : Vertex) :
  In (v0, v1, v2) (emitted geom localToWorld invBoxMatrixWorld half) ->
  carriesUV v0 = hasUV geom /\ carriesUV v1 = hasUV geom
  /\ carriesUV v2 = hasUV geom.
Proof.
  intros Hin.
  destruct (emitted_inv _ _ _ _ _ _ _ Hin) as (i & _ & Hfan & _).
  destruct (fan_inv _ _ _ _ _ Hfan) as (k & _ & _ & H0 & H1 & H2 & _).
  pose proof (clippedPolygon_uv geom localToWorld invBoxMatrixWorld half i) as HU.
  rewrite Forall_forall in HU.
  repeat split; apply HU; eapply nth_error_In; eassumption.
Qed.

Lemma pushUV_length (v0 v1 v2 : Vertex) :
  hasUV geom = true ->
  carriesUV v0 = true -> carriesUV v1 = true -> carriesUV v2 = true ->
  length (pushUV geom (v0, v1, v2)) = 6.
Proof.
  unfold pushUV, uvPair, carriesUV. intros ->.
  destruct (uv v0), (uv v1), (uv v2); simpl; congruence.
Qed.

Lemma outUV_length :
  hasUV geom = true ->
  length (outUV geom localToWorld invBoxMatrixWorld half)
  = 6 * length (emitted geom localToWorld invBoxMatrixWorld half).
Proof.
  intros HU. unfold outUV.
  assert (G : forall l,
             (forall v0 v1 v2, In (v0, v1, v2) l ->
                carriesUV v0 = true /\ carriesUV v1 = true /\ carriesUV v2 = true) ->
             length (flat_map (pushUV geom) l) = 6 * length l).
  { induction l as [|[[v0 v1] v2] l IH]; intros Hl; [reflexivity|].
    change (flat_map (pushUV geom) ((v0, v1, v2) :: l))
      with (pushUV geom (v0, v1, v2) ++ flat_map (pushUV geom) l).
    rewrite length_app.
    destruct (Hl v0 v1 v2 (or_introl eq_refl)) as (A0 & A1 & A2).
    rewrite (pushUV_length v0 v1 v2 HU A0 A1 A2).
    rewrite IH by (intros; apply Hl; now right). simpl length. lia. }
  apply G. intros v0 v1 v2 Hin. rewrite <- HU. now apply emitted_vertices_uv.
Qed.

Lemma emitted_nan : half_has_nan half = true ->
  emitted geom localToWorld invBoxMatrixWorld half = [].
Proof.
  intros H. unfold emitted.
  induction (triangleStarts geom) as [|i l IH]; [reflexivity|].
  simpl. rewrite IH, app_nil_r. unfold processTriangle.
  rewrite (clippedPolygon_nan geom localToWorld invBoxMatrixWorld half i H).
  reflexivity.
Qed.

Lemma clipMeshKeepInside_nan : half_has_nan half = true ->
  clipMeshKeepInside geom localToWorld invBoxMatrixWorld half = None.
Proof.
  intros H. unfold clipMeshKeepInside, outPos. rewrite (emitted_nan H). reflexivity.
Qed.
End EmittedFacts.

(** X4.  A geometry returned by [clipMeshKeepInside] with a UV attribute
    has one UV pair per vertex: the UV array holds two numbers for every
    three numbers of the position array. *)
Theorem clipMeshKeepInside_uv_per_vertex :
  forall (geom : BufferGeometry.t) (localToWorld invBoxMatrixWorld : Matrix4.t)
         (half : Vector3.t) (out : BufferGeometry.t) (uvs : list float),
    Clipper.clipMeshKeepInside geom localToWorld invBoxMatrixWorld half = Some out ->
    BufferGeometry.uv out = Some uvs ->
    3 * length uvs = 2 * length (BufferGeometry.position out).
Proof.
  intros geom localToWorld invBoxMatrixWorld half out uvs Hout Huv.
  unfold Clipper.clipMeshKeepInside in Hout.
  destruct (length (Clipper.outPos geom localToWorld invBoxMatrixWorld half) =? 0);
    [discriminate|].
  inversion Hout; subst out; clear Hout. simpl in Huv |- *.
  destruct (Clipper.hasUV geom) eqn:HU; [|discriminate].
  inversion Huv; subst uvs. rewrite !length_map.
  rewrite (outUV_length geom localToWorld invBoxMatrixWorld half HU).
  rewrite (outPos_length geom localToWorld invBoxMatrixWorld half). lia.
Qed.

Lemma clipMeshKeepInside_uv_per_vertex_witness :
  3 * length (map JS.Math_fround
                (Clipper.outUV Samples.triangleGeomUV Matrix4.identity
                               Matrix4.identity Samples.unitHalf))
  = 2 * length (map JS.Math_fround
                  (Clipper.outPos Samples.triangleGeomUV Matrix4.identity
                                  Matrix4.identity Samples.unitHalf)).
Proof.
  apply (clipMeshKeepInside_uv_per_vertex
           Samples.triangleGeomUV Matrix4.identity Matrix4.identity Samples.unitHalf
           (BufferGeometry.mk None
              (map JS.Math_fround
                 (Clipper.outPos Samples.triangleGeomUV Matrix4.identity
                                 Matrix4.identity Samples.unitHalf))
              (Some (map JS.Math_fround
                       (Clipper.outUV Samples.triangleGeomUV Matrix4.identity
                                      Matrix4.identity Samples.unitHalf))))).
  - vm_compute. reflexivity.
  - reflexivity.
Defined.

(** X5.  When a component of the half-extent is NaN, every vertex
    fails every inside test, every polygon is clipped away, and
    [clipMeshKeepInside] returns [null] whatever the mesh. *)
Theorem nan_half_extent_clips_everything :
  forall (geom : BufferGeometry.t) (localToWorld invBoxMatrixWorld : Matrix4.t)
         (half : Vector3.t),
    is_nan (Vector3.x half) = true \/ is_nan (Vector3.y half) = true
    \/ is_nan (Vector3.z half) = true ->
    Clipper.clipMeshKeepInside geom localToWorld invBoxMatrixWorld half = None.
Proof.
  intros geom localToWorld invBoxMatrixWorld half H.
  apply clipMeshKeepInside_nan. unfold ClipSpec.half_has_nan.
  destruct H as [H|[H|H]]; rewrite H; rewrite ?orb_true_r; reflexivity.
Qed.

Lemma nan_half_extent_clips_everything_witness :
  Clipper.clipMeshKeepInside Samples.triangleGeom Matrix4.identity Matrix4.identity
                             (Vector3.mk 1 nan 1) = None.
Proof.
  apply (nan_half_extent_clips_everything
           Samples.triangleGeom Matrix4.identity Matrix4.identity (Vector3.mk 1 nan 1)).
  right. left. reflexivity.
Defined.

(** X6.  The triangles pushed for a polygon form a fan from its first
    vertex: each is [(poly[0], poly[k], poly[k+1])] for some
    [1 <= k < n - 1], and there are at most [n - 2] of them. *)
Theorem fan_is_from_first_vertex :
  forall (half : Vector3.t) (poly : Clipper.Polygon),
    (forall v0 v1 v2 : Clipper.Vertex,
        In (v0, v1, v2) (Clipper.fan half poly) ->
        exists k : nat,
          1 <= k /\ k + 1 < length poly
          /\ nth_error poly 0 = Some v0
          /\ nth_error poly k = Some v1
          /\ nth_error poly (k + 1) = Some v2) /\
    length (Clipper.fan half poly) <= length poly - 2.
Proof.
  intros half poly. split.
  - intros v0 v1 v2 Hin.
    destruct (fan_inv half poly v0 v1 v2 Hin) as (k & A & B & C & D & E & _).
    exists k. auto.
  - apply fan_length.
Qed.

(** ** More on the crop effect *)

Section CropMore.
Import Crop CropSpec.

Variable CSG_intersect :
  BufferGeometry.t -> BufferGeometry.t -> JS.completion BufferGeometry.t.
Variable mergeVertices :
  BufferGeometry.t -> float -> JS.completion BufferGeometry.t.
Variable BoxGeometry : float -> float -> float -> BufferGeometry.t.

(** The three shapes a visit of a node can take. *)
Lemma fallback_cases (boxMatrixWorld : Matrix4.t) (size : Vector3.t) (eps : float)
      (child : Node) (g : BufferGeometry.t) :
  (exists gnew,
      fallback mergeVertices boxMatrixWorld size eps child g
      = (commit child gnew, [CallClipper g; CallMergeVertices
                                              match Clipper.clipMeshKeepInside g
                                                      (matrixWorld child)
                                                      (Matrix4.invert boxMatrixWorld)
                                                      (halfExtent size eps)
                                              with Some n => n | None => g end;
                             Dispose g]))
  \/ fallback mergeVertices boxMatrixWorld size eps child g
     = (hide child, [CallClipper g]).
Proof.
  unfold fallback.
  destruct (Clipper.clipMeshKeepInside g (matrixWorld child)
              (Matrix4.invert boxMatrixWorld) (halfExtent size eps)).
  - left. eauto.
  - now right.
Qed.

Lemma cropChild_cases (boxGeo : BufferGeometry.t) (boxMatrixWorld : Matrix4.t)
      (size : Vector3.t) (eps : float) (child : Node) :
  let r := cropChild CSG_intersect mergeVertices boxGeo boxMatrixWorld size eps child in
  r = (child, [])
  \/ (exists g, geometry child = Some g /\ fst r = hide child /\ disposals (snd r) = [])
  \/ (exists g gnew, geometry child = Some g /\ fst r = commit child gnew
                     /\ disposals (snd r) = [g]).
Proof.
  unfold cropChild.
  destruct (geometry child) as [g|] eqn:Hg; [|now left].
  destruct (isMesh child); simpl negb; cbv iota; [|now left].
  destruct (isSkinnedMesh child); [now left|]. cbv zeta.
  destruct (fallback_cases boxMatrixWorld size eps child g) as [(gnew & F)|F].
  - destruct (csgResult CSG_intersect _ _) as [r|].
    + destruct (BufferGeometry.hasVertices r).
      * right. right. exists g. eexists. repeat split.
      * rewrite F. right. right. exists g, gnew. repeat split.
    + rewrite F. right. right. exists g, gnew. repeat split.
  - destruct (csgResult CSG_intersect _ _) as [r|].
    + destruct (BufferGeometry.hasVertices r).
      * right. right. exists g. eexists. repeat split.
      * rewrite F. right. left. exists g. repeat split.
    + rewrite F. right. left. exists g. repeat split.
Qed.


Lemma cropChild_frame (boxGeo : BufferGeometry.t) (boxMatrixWorld : Matrix4.t)
      (size : Vector3.t) (eps : float) (child : Node) :
  sameFrame child
    (fst (cropChild CSG_intersect mergeVertices boxGeo boxMatrixWorld size eps child)).
Proof.
  destruct (cropChild_cases boxGeo boxMatrixWorld size eps child)
    as [H|[(g & _ & H & _)|(g & gnew & _ & H & _)]]; rewrite H;
    repeat split.
Qed.

Lemma traverse_Forall2 (f : Node -> Node * list Event) (R : Node -> Node -> Prop) :
  (forall n, R n (fst (f n))) ->
  forall nodes, Forall2 R nodes (fst (traverse f nodes)).
Proof.
  intros H. induction nodes as [|n rest IH]; simpl; [constructor|].
  specialize (H n). destruct (f n) as [n' ev].
  destruct (traverse f rest) as [rest' evs]. simpl in *. now constructor.
Qed.

Lemma applyCrop_scene (p : Props) (v : Viewer) (nodes : list Node) :
  sceneObject v = Some nodes ->
  fst (applyCrop CSG_intersect mergeVertices BoxGeometry p v) = v
  \/ exists c,
      crop p = Some c /\ invalidSize (cropSize c) = false /\
      let eps := (JS.Math_max [Vector3.x (cropSize c); Vector3.y (cropSize c);
                               Vector3.z (cropSize c)] * 1e-5)%float in
      fst (applyCrop CSG_intersect mergeVertices BoxGeometry p v)
      = mkViewer
          (Some (fst (traverse
                        (cropChild CSG_intersect mergeVertices
                           (BoxGeometry (Vector3.x (cropSize c) + eps)%float
                                        (Vector3.y (cropSize c) + eps)%float
                                        (Vector3.z (cropSize c) + eps)%float)
                           (Object3D.compose (cropCenter c) (boxQuaternion p v)
                                             (Vector3.mk 1 1 1))
                           (cropSize c) eps)
                        nodes)))
          None (group v).
Proof.
  intros Hs. unfold applyCrop. rewrite Hs.
  destruct (applyCropToken p =? 0); [now left|].
  destruct (cropEnabled p); [|now left].
  destruct (crop p) as [c|]; [|now left].
  destruct (invalidSize (cropSize c)) eqn:Hi; [now left|].
  right. exists c. split; [reflexivity|]. split; [exact Hi|]. cbv zeta.
  destruct (traverse _ nodes) as [nodes' evs]. reflexivity.
Qed.
End CropMore.

(** X7.  The crop effect does nothing at all (no state change, no
    callback, not even [onApplyStart]) when the apply token is [0], when
    no model is loaded, when cropping is not enabled, or when there is no
    crop region. *)
Theorem applyCrop_needs_token_model_and_region :
  forall (CSG_intersect :
            BufferGeometry.t -> BufferGeometry.t -> JS.completion BufferGeometry.t)
         (mergeVertices : BufferGeometry.t -> float -> JS.completion BufferGeometry.t)
         (BoxGeometry : float -> float -> float -> BufferGeometry.t)
         (p : Crop.Props) (v : Crop.Viewer),
    Crop.applyCropToken p = 0 \/ Crop.sceneObject v = None
    \/ Crop.cropEnabled p = false \/ Crop.crop p = None ->
    Crop.applyCrop CSG_intersect mergeVertices BoxGeometry p v = (v, []).
Proof.
  intros CSG_intersect mergeVertices BoxGeometry p v H. unfold Crop.applyCrop.
  destruct (Nat.eqb_spec (Crop.applyCropToken p) 0) as [E|E]; [reflexivity|].
  destruct H as [H|[H|[H|H]]]; [contradiction| | |].
  - rewrite H. reflexivity.
  - rewrite H. destruct (Crop.sceneObject v); reflexivity.
  - rewrite H. destruct (Crop.sceneObject v), (Crop.cropEnabled p); reflexivity.
Qed.

Lemma applyCrop_needs_token_model_and_region_witness :
  Crop.applyCrop Samples.csgFirst Samples.mergeNothing Samples.boxCorners
                 (Crop.mkProps 0 true (Some Samples.unitCrop) false)
                 (Samples.viewerOf Samples.triangleGeom)
  = (Samples.viewerOf Samples.triangleGeom, []).
Proof.
  apply (applyCrop_needs_token_model_and_region
           Samples.csgFirst Samples.mergeNothing Samples.boxCorners
           (Crop.mkProps 0 true (Some Samples.unitCrop) false)
           (Samples.viewerOf Samples.triangleGeom)).
  left. reflexivity.
Defined.

(** X8.  A node that is not a mesh, has no geometry, or is a skinned
    mesh is passed over: it is returned as it is, and neither the
    boolean intersection nor the clipper is called for it. *)
Theorem cropChild_passes_over_skinned_and_non_meshes :
  forall (CSG_intersect :
            BufferGeometry.t -> BufferGeometry.t -> JS.completion BufferGeometry.t)
         (mergeVertices : BufferGeometry.t -> float -> JS.completion BufferGeometry.t)
         (boxGeo : BufferGeometry.t) (boxMatrixWorld : Matrix4.t)
         (size : Vector3.t) (eps : float) (child : Crop.Node),
    CropSpec.croppable child = false ->
    Crop.cropChild CSG_intersect mergeVertices boxGeo boxMatrixWorld size eps child
    = (child, []).
Proof.
  intros CSG_intersect mergeVertices boxGeo boxMatrixWorld size eps child H.
  unfold CropSpec.croppable in H. unfold Crop.cropChild.
  destruct (Crop.geometry child); [|reflexivity].
  destruct (Crop.isMesh child); [|reflexivity].
  destruct (Crop.isSkinnedMesh child); [reflexivity|discriminate].
Qed.

Lemma cropChild_passes_over_skinned_and_non_meshes_witness :
  Crop.cropChild Samples.csgFirst Samples.mergeNothing
                 (Samples.boxCorners 2 2 2) Matrix4.identity (Vector3.mk 2 2 2) 0
                 (MoreSamples.skinnedNode Samples.triangleGeom)
  = (MoreSamples.skinnedNode Samples.triangleGeom, []).
Proof.
  apply (cropChild_passes_over_skinned_and_non_meshes
           Samples.csgFirst Samples.mergeNothing
           (Samples.boxCorners 2 2 2) Matrix4.identity (Vector3.mk 2 2 2) 0
           (MoreSamples.skinnedNode Samples.triangleGeom)).
  reflexivity.
Defined.

(** X9.  Whatever the crop does, it keeps the nodes of the scene in
    number and order, and for each node its kind ([isMesh],
    [isSkinnedMesh]) and its world matrix; the group is not touched.
    Only [geometry] and [visible] of a node can change. *)
Theorem applyCrop_keeps_nodes_and_transforms :
  forall (CSG_intersect :
            BufferGeometry.t -> BufferGeometry.t -> JS.completion BufferGeometry.t)
         (mergeVertices : BufferGeometry.t -> float -> JS.completion BufferGeometry.t)
         (BoxGeometry : float -> float -> float -> BufferGeometry.t)
         (p : Crop.Props) (v : Crop.Viewer) (nodes : list Crop.Node),
    Crop.sceneObject v = Some nodes ->
    exists nodes' : list Crop.Node,
      Crop.sceneObject (fst (Crop.applyCrop CSG_intersect mergeVertices BoxGeometry p v))
      = Some nodes'
      /\ Forall2 CropSpec.sameFrame nodes nodes'
      /\ Crop.group (fst (Crop.applyCrop CSG_intersect mergeVertices BoxGeometry p v))
         = Crop.group v.
Proof.
  intros CSG_intersect mergeVertices BoxGeometry p v nodes Hs.
  destruct (applyCrop_scene CSG_intersect mergeVertices BoxGeometry p v nodes Hs)
    as [H|(c & _ & _ & H)]; rewrite H.
  - exists nodes. split; [exact Hs|]. split; [|reflexivity].
    clear. induction nodes; constructor; auto. repeat split.
  - cbv zeta. eexists. split; [reflexivity|]. split; [|reflexivity].
    apply traverse_Forall2. intros n. apply cropChild_frame.
Qed.

Lemma applyCrop_keeps_nodes_and_transforms_witness :
  exists nodes' : list Crop.Node,
    Crop.sceneObject
      (fst (Crop.applyCrop Samples.csgThrows Samples.mergeNothing Samples.boxCorners
              (Samples.request Samples.unitCrop)
              (Samples.viewerOf Samples.triangleGeom)))
    = Some nodes'
    /\ Forall2 CropSpec.sameFrame [Samples.meshNode Samples.triangleGeom] nodes'
    /\ Crop.group
         (fst (Crop.applyCrop Samples.csgThrows Samples.mergeNothing Samples.boxCorners
                 (Samples.request Samples.unitCrop)
                 (Samples.viewerOf Samples.triangleGeom)))
       = Crop.group (Samples.viewerOf Samples.triangleGeom).
Proof.
  apply (applyCrop_keeps_nodes_and_transforms
           Samples.csgThrows Samples.mergeNothing Samples.boxCorners
           (Samples.request Samples.unitCrop)
           (Samples.viewerOf Samples.triangleGeom)
           [Samples.meshNode Samples.triangleGeom]).
  reflexivity.
Defined.

(** X10.  A visit of a node disposes a geometry only when it replaces
    it: either the node keeps its geometry and nothing is disposed, or
    its previous geometry is disposed exactly once, a new geometry is
    installed and the node is made visible. *)
Theorem cropChild_disposes_exactly_what_it_replaces :
  forall (CSG_intersect :
            BufferGeometry.t -> BufferGeometry.t -> JS.completion BufferGeometry.t)
         (mergeVertices : BufferGeometry.t -> float -> JS.completion BufferGeometry.t)
         (boxGeo : BufferGeometry.t) (boxMatrixWorld : Matrix4.t)
         (size : Vector3.t) (eps : float) (child : Crop.Node),
    let r :=
      Crop.cropChild CSG_intersect mergeVertices boxGeo boxMatrixWorld size eps child in
    (Crop.geometry (fst r) = Crop.geometry child /\ CropSpec.disposals (snd r) = [])
    \/ (exists g gnew : BufferGeometry.t,
           Crop.geometry child = Some g /\
           Crop.geometry (fst r) = Some gnew /\
           Crop.visible (fst r) = true /\
           CropSpec.disposals (snd r) = [g]).
Proof.
  intros CSG_intersect mergeVertices boxGeo boxMatrixWorld size eps child r.
  destruct (cropChild_cases CSG_intersect mergeVertices boxGeo boxMatrixWorld
              size eps child)
    as [H|[(g & Hg & H & D)|(g & gnew & Hg & H & D)]].
  - left. subst r. rewrite H. split; reflexivity.
  - left. subst r. rewrite H. split; [reflexivity|exact D].
  - right. exists g, gnew. subst r. rewrite H. repeat split; auto.
Qed.

Section NanCrop.
Import Crop CropSpec.
Local Open Scope float_scope.



Variable CSG_intersect :
  BufferGeometry.t -> BufferGeometry.t -> JS.completion BufferGeometry.t.
Variable mergeVertices :
  BufferGeometry.t -> float -> JS.completion BufferGeometry.t.

Hypothesis csg_unusable :
  forall a b r, CSG_intersect a b = JS.Normal r -> BufferGeometry.hasVertices r = false.

End NanCrop.



(** ** More on the sizing effect *)

Section SizeMore.
Import Size.
Local Open Scope float_scope.

(** A scene none of whose children has a vertex has the empty box. *)
Lemma worldBox_no_vertex (sc : Scene) :
  (forall c, In c (children sc) ->
             geometry c = None
             \/ exists g, geometry c = Some g /\ BufferGeometry.position g = []) ->
  worldBox sc = Box3.empty.
Proof.
  unfold worldBox, Box3.setFromObject. generalize (matrixWorld sc). intros m.
  induction (children sc) as [|c l IH]; intros H; [reflexivity|].
  simpl. destruct (H c (or_introl eq_refl)) as [E|(g & E & P)]; rewrite E.
  - apply IH. intros c' Hc'. apply H. now right.
  - unfold Box3.ofGeometry. rewrite P. simpl BufferGeometry.vertices.
    replace (Box3.union Box3.empty
               (Box3.applyMatrix4 (Box3.setFromPoints [])
                  (Matrix4.multiplyMatrices m (matrix c))))
      with Box3.empty by reflexivity.
    apply IH. intros c' Hc'. apply H. now right.
Qed.

(** What holds whenever the effect goes through. *)
Lemma applySize_inv (sc : Scene) (req : SizeRequest) (sc' : Scene) (b : Box3.Bounds) :
  applySize (Some sc) (Some req) = Some (sc', b) ->
  exists t,
    targetCm req = Some t
    /\ positiveTarget t = true
    /\ (Vector3.x (Box3.getSize (worldBox sc)) =? 0) = false
    /\ (Vector3.y (Box3.getSize (worldBox sc)) =? 0) = false
    /\ (Vector3.z (Box3.getSize (worldBox sc)) =? 0) = false
    /\ is_finite (Vector3.x (factors t (lockAspect req) (anchor req)
                                     (Box3.getSize (worldBox sc)))) = true
    /\ is_finite (Vector3.y (factors t (lockAspect req) (anchor req)
                                     (Box3.getSize (worldBox sc)))) = true
    /\ is_finite (Vector3.z (factors t (lockAspect req) (anchor req)
                                     (Box3.getSize (worldBox sc)))) = true
    /\ sc' = scaleAboutCenter sc (Box3.getCenter (worldBox sc))
               (factors t (lockAspect req) (anchor req) (Box3.getSize (worldBox sc)))
    /\ b = Box3.bounds (worldBox sc').
Proof.
  unfold applySize, JS.Number_isFinite.
  destruct (targetCm req) as [t|]; [|discriminate].
  destruct (positiveTarget t) eqn:P; simpl negb; cbv iota; [|discriminate].
  cbv zeta.
  destruct (Vector3.x (Box3.getSize (worldBox sc)) =? 0) eqn:Zx; [discriminate|].
  destruct (Vector3.y (Box3.getSize (worldBox sc)) =? 0) eqn:Zy; [discriminate|].
  destruct (Vector3.z (Box3.getSize (worldBox sc)) =? 0) eqn:Zz; [discriminate|].
  simpl orb. cbv iota.
  destruct (is_finite (Vector3.x (factors t _ _ _))) eqn:Fx; [|discriminate].
  destruct (is_finite (Vector3.y (factors t _ _ _))) eqn:Fy; [|discriminate].
  destruct (is_finite (Vector3.z (factors t _ _ _))) eqn:Fz; [|discriminate].
  simpl. intros H. inversion H; subst. exists t. repeat split; auto.
Qed.
End SizeMore.

(** X12.  The sizing effect goes through only for a request it can
    honour: a model is loaded, a target is given and its three
    components are greater than zero (so none is NaN), no axis of the
    current bounding box has size zero, and the three scale factors are
    finite.  In every other case nothing is changed and [onAppliedSize]
    is not called. *)
Theorem applySize_applies_only_valid_requests :
  forall (sceneObject : option Size.Scene) (sizeRequest : option Size.SizeRequest)
         (sc' : Size.Scene) (b : Box3.Bounds),
    Size.applySize sceneObject sizeRequest = Some (sc', b) ->
    exists (sc : Size.Scene) (req : Size.SizeRequest) (t : Vector3.t),
      sceneObject = Some sc /\ sizeRequest = Some req /\ Size.targetCm req = Some t /\
      (0 <? Vector3.x t)%float = true /\ (0 <? Vector3.y t)%float = true /\
      (0 <? Vector3.z t)%float = true /\
      (Vector3.x (Box3.getSize (Size.worldBox sc)) =? 0)%float = false /\
      (Vector3.y (Box3.getSize (Size.worldBox sc)) =? 0)%float = false /\
      (Vector3.z (Box3.getSize (Size.worldBox sc)) =? 0)%float = false /\
      let f := Size.factors t (Size.lockAspect req) (Size.anchor req)
                            (Box3.getSize (Size.worldBox sc)) in
      is_finite (Vector3.x f) = true /\ is_finite (Vector3.y f) = true /\
      is_finite (Vector3.z f) = true.
Proof.
  intros sceneObject sizeRequest sc' b H.
  destruct sceneObject as [sc|]; [|discriminate].
  destruct sizeRequest as [req|]; [|discriminate].
  destruct (applySize_inv sc req sc' b H)
    as (t & Ht & P & Zx & Zy & Zz & Fx & Fy & Fz & _).
  unfold Size.positiveTarget in P. rewrite !andb_true_iff in P.
  destruct P as [[Px Py] Pz].
  exists sc, req, t. cbv zeta. repeat split; assumption.
Qed.

Lemma applySize_applies_only_valid_requests_witness :
  exists (sc : Size.Scene) (req : Size.SizeRequest) (t : Vector3.t),
    Some Samples.centredScene = Some sc /\
    Some (Samples.lockedX (Vector3.mk 1 2 4)) = Some req /\
    Size.targetCm req = Some t /\
    (0 <? Vector3.x t)%float = true /\ (0 <? Vector3.y t)%float = true /\
    (0 <? Vector3.z t)%float = true /\
    (Vector3.x (Box3.getSize (Size.worldBox sc)) =? 0)%float = false /\
    (Vector3.y (Box3.getSize (Size.worldBox sc)) =? 0)%float = false /\
    (Vector3.z (Box3.getSize (Size.worldBox sc)) =? 0)%float = false /\
    let f := Size.factors t (Size.lockAspect req) (Size.anchor req)
                          (Box3.getSize (Size.worldBox sc)) in
    is_finite (Vector3.x f) = true /\ is_finite (Vector3.y f) = true /\
    is_finite (Vector3.z f) = true.
Proof.
  apply (applySize_applies_only_valid_requests
           (Some Samples.centredScene) (Some (Samples.lockedX (Vector3.mk 1 2 4)))
           Samples.halvedScene (Box3.bounds (Size.worldBox Samples.halvedScene))).
  vm_compute. reflexivity.
Defined.

(** X13.  On a model without a single vertex (no geometry, or only
    empty position arrays) the bounding box is empty, its size is zero,
    and the sizing effect changes nothing, whatever the request. *)
Theorem applySize_without_vertices_is_noop :
  forall (sc : Size.Scene) (sizeRequest : option Size.SizeRequest),
    (forall c : Size.Child,
        In c (Size.children sc) ->
        Size.geometry c = None
        \/ exists g, Size.geometry c = Some g /\ BufferGeometry.position g = []) ->
    Size.applySize (Some sc) sizeRequest = None.
Proof.
  intros sc sizeRequest H. unfold Size.applySize.
  destruct sizeRequest as [req|]; [|reflexivity].
  destruct (Size.targetCm req) as [t|]; [|reflexivity].
  destruct (negb (Size.positiveTarget t)); [reflexivity|].
  rewrite (worldBox_no_vertex sc H). reflexivity.
Qed.

Lemma applySize_without_vertices_is_noop_witness :
  Size.applySize (Some MoreSamples.emptyScene)
                 (Some (Samples.lockedX (Vector3.mk 1 2 4))) = None.
Proof.
  apply (applySize_without_vertices_is_noop MoreSamples.emptyScene
           (Some (Samples.lockedX (Vector3.mk 1 2 4)))).
  intros c [<-|[]]. left. reflexivity.
Defined.

(** X14.  When the sizing effect goes through it multiplies the scale of
    the object by three finite factors and reports the bounds of the
    rescaled model; the meshes, the rotation and the group's world
    matrix are untouched.  With [lockAspect] the three factors are one
    and the same number, whichever the anchor. *)
Theorem applySize_rescales_and_keeps_the_rest :
  forall (sc : Size.Scene) (req : Size.SizeRequest) (sc' : Size.Scene)
         (b : Box3.Bounds),
    Size.applySize (Some sc) (Some req) = Some (sc', b) ->
    exists f : Vector3.t,
      Size.scale sc' = Vector3.mk (Vector3.x (Size.scale sc) * Vector3.x f)%float
                                  (Vector3.y (Size.scale sc) * Vector3.y f)%float
                                  (Vector3.z (Size.scale sc) * Vector3.z f)%float /\
      is_finite (Vector3.x f) = true /\ is_finite (Vector3.y f) = true /\
      is_finite (Vector3.z f) = true /\
      (Size.lockAspect req = true ->
       Vector3.x f = Vector3.y f /\ Vector3.y f = Vector3.z f) /\
      Size.children sc' = Size.children sc /\
      Size.quaternion sc' = Size.quaternion sc /\
      Size.groupMatrixWorld sc' = Size.groupMatrixWorld sc /\
      b = Box3.bounds (Size.worldBox sc').
Proof.
  intros sc req sc' b H.
  destruct (applySize_inv sc req sc' b H)
    as (t & Ht & P & Zx & Zy & Zz & Fx & Fy & Fz & Hsc & Hb).
  exists (Size.factors t (Size.lockAspect req) (Size.anchor req)
                       (Box3.getSize (Size.worldBox sc))).
  split; [rewrite Hsc; reflexivity|].
  split; [exact Fx|]. split; [exact Fy|]. split; [exact Fz|].
  split.
  - intros L. rewrite L. unfold Size.factors. split; reflexivity.
  - subst sc'. repeat split. exact Hb.
Qed.

Lemma applySize_rescales_and_keeps_the_rest_witness :
  exists f : Vector3.t,
    Size.scale Samples.halvedScene
    = Vector3.mk (Vector3.x (Size.scale Samples.centredScene) * Vector3.x f)%float
                 (Vector3.y (Size.scale Samples.centredScene) * Vector3.y f)%float
                 (Vector3.z (Size.scale Samples.centredScene) * Vector3.z f)%float /\
    is_finite (Vector3.x f) = true /\ is_finite (Vector3.y f) = true /\
    is_finite (Vector3.z f) = true /\
    (Size.lockAspect (Samples.lockedX (Vector3.mk 1 2 4)) = true ->
     Vector3.x f = Vector3.y f /\ Vector3.y f = Vector3.z f) /\
    Size.children Samples.halvedScene = Size.children Samples.centredScene /\
    Size.quaternion Samples.halvedScene = Size.quaternion Samples.centredScene /\
    Size.groupMatrixWorld Samples.halvedScene
    = Size.groupMatrixWorld Samples.centredScene /\
    Box3.bounds (Size.worldBox Samples.halvedScene)
    = Box3.bounds (Size.worldBox Samples.halvedScene).
Proof.
  apply (applySize_rescales_and_keeps_the_rest
           Samples.centredScene (Samples.lockedX (Vector3.mk 1 2 4))
           Samples.halvedScene (Box3.bounds (Size.worldBox Samples.halvedScene))).
  vm_compute. reflexivity.
Defined.

(* ------------------------------------------------------------------ *)
(** ** Stores of shared objects *)

Section HeapFacts.
Variable Obj : Type.

Lemma nth_error_modify :
  forall (st : list Obj) (i j : nat) (f : Obj -> Obj),
    nth_error (Heap.modify st i f) j
    = if (i =? j)%nat then option_map f (nth_error st j) else nth_error st j.
Proof.
  induction st as [|m st IH]; intros i j f.
  - destruct i, j; simpl; try reflexivity; now destruct (i =? j)%nat.
  - destruct i, j; simpl; try reflexivity. apply IH.
Qed.

Lemma modify_fixed :
  forall (st : list Obj) (i : nat) (f : Obj -> Obj),
    (forall a, nth_error st i = Some a -> f a = a) ->
    Heap.modify st i f = st.
Proof.
  induction st as [|m st IH]; intros i f H; [reflexivity|].
  destruct i; simpl.
  - now rewrite (H m eq_refl).
  - now rewrite IH.
Qed.
Lemma modify_ext :
  forall (st : list Obj) (i : nat) (f g : Obj -> Obj),
    (forall a, f a = g a) -> Heap.modify st i f = Heap.modify st i g.
Proof.
  induction st as [|m st IH]; intros i f g H; [reflexivity|].
  destruct i; simpl.
  - now rewrite H.
  - now rewrite (IH i f g H).
Qed.
End HeapFacts.

Lemma fold_fixed (A B : Type) (f : A -> B -> A) (l : list B) (a : A) :
  (forall i, In i l -> f a i = a) -> fold_left f l a = a.
Proof.
  induction l as [|i l IH]; intros H; [reflexivity|].
  simpl. rewrite (H i (or_introl eq_refl)). apply IH.
  intros j Hj. apply H. now right.
Qed.

(** Folds of assignments to the store. *)
Section Folds.
Variables (Obj S K : Type).
Variable get : S -> list Obj.
Variable step : S -> K -> S.
Variable place : K -> nat.
Variable g : K -> Obj -> Obj.
Hypothesis get_step : forall s k, get (step s k) = Heap.modify (get s) (place k) (g k).

Lemma step_preserves :
  forall (Q : Obj -> Prop) (i : nat),
    (forall k m, Q m -> Q (g k m)) ->
    forall (k : K) (s : S) (mat : Obj),
      nth_error (get s) i = Some mat -> Q mat ->
      exists mat', nth_error (get (step s k)) i = Some mat' /\ Q mat'.
Proof.
  intros Q i HQ k s mat E H.
  rewrite get_step, nth_error_modify, E.
  destruct (place k =? i)%nat; simpl; eauto.
Qed.

Lemma fold_preserves :
  forall (Q : Obj -> Prop) (i : nat),
    (forall k m, Q m -> Q (g k m)) ->
    forall (l : list K) (s : S) (mat : Obj),
      nth_error (get s) i = Some mat -> Q mat ->
      exists mat', nth_error (get (fold_left step l s)) i = Some mat' /\ Q mat'.
Proof.
  intros Q i HQ. induction l as [|k l IH]; intros s mat E H; simpl; [eauto|].
  destruct (step_preserves Q i HQ k s mat E H) as (mat' & E' & H').
  exact (IH _ _ E' H').
Qed.

Lemma fold_establishes :
  forall (C D : Obj -> Prop) (i : nat),
    (forall k m, C m -> C (g k m)) ->
    (forall k m, place k = i -> C m -> D (g k m)) ->
    (forall k m, D m -> D (g k m)) ->
    forall (l : list K) (s : S) (mat : Obj),
      (exists k, In k l /\ place k = i) ->
      nth_error (get s) i = Some mat -> C mat ->
      exists mat', nth_error (get (fold_left step l s)) i = Some mat' /\ D mat'.
Proof.
  intros C D i HC HCD HD. induction l as [|k l IH]; intros s mat (k0 & Hin & Hp) E H.
  - destruct Hin.
  - simpl. destruct (Nat.eq_dec (place k) i) as [Hk|Hk].
    + assert (exists mat', nth_error (get (step s k)) i = Some mat' /\ D mat')
        as (mat' & E' & H').
      { rewrite get_step, nth_error_modify, E, Hk, Nat.eqb_refl. simpl. eauto. }
      exact (fold_preserves D i HD l _ _ E' H').
    + destruct Hin as [->|Hin]; [contradiction|].
      destruct (step_preserves C i HC k s mat E H) as (mat' & E' & H').
      exact (IH _ _ (ex_intro _ k0 (conj Hin Hp)) E' H').
Qed.

(** The same for one visit [k0] that establishes [D] at its place. *)
Lemma fold_establishes_at :
  forall (C D : Obj -> Prop) (k0 : K),
    (forall k m, C m -> C (g k m)) ->
    (forall m, C m -> D (g k0 m)) ->
    (forall k m, D m -> D (g k m)) ->
    forall (l : list K) (s : S) (mat : Obj),
      In k0 l ->
      nth_error (get s) (place k0) = Some mat -> C mat ->
      exists mat', nth_error (get (fold_left step l s)) (place k0) = Some mat'
                   /\ D mat'.
Proof.
  intros C D k0 HC HCD HD. induction l as [|k l IH]; intros s mat Hin E0 H.
  - destruct Hin.
  - simpl. destruct Hin as [->|Hin].
    + assert (exists mat', nth_error (get (step s k0)) (place k0) = Some mat'
                           /\ D mat') as (mat' & E' & H').
      { rewrite get_step, nth_error_modify, E0, Nat.eqb_refl. simpl. eauto. }
      exact (fold_preserves D (place k0) HD l _ _ E' H').
    + destruct (step_preserves C (place k0) HC k s mat E0 H) as (mat' & E' & H').
      exact (IH _ _ Hin E' H').
Qed.

Lemma fold_none :
  forall (i : nat) (l : list K) (s : S),
    nth_error (get s) i = None ->
    nth_error (get (fold_left step l s)) i = None.
Proof.
  intros i. induction l as [|k l IH]; intros s E; simpl; [exact E|].
  apply IH. rewrite get_step, nth_error_modify, E.
  now destruct (place k =? i)%nat.
Qed.

(** A property of every material of the store. *)
Lemma step_all :
  forall (Q : Obj -> Prop),
    (forall k m, Q m -> Q (g k m)) ->
    forall (k : K) (s : S),
      (forall j m, nth_error (get s) j = Some m -> Q m) ->
      forall j m, nth_error (get (step s k)) j = Some m -> Q m.
Proof.
  intros Q HQ k s H j m. rewrite get_step, nth_error_modify.
  destruct (place k =? j)%nat; [|apply H].
  destruct (nth_error (get s) j) as [m0|] eqn:E; simpl; [|discriminate].
  intros [= <-]. apply HQ. exact (H j m0 E).
Qed.

Lemma fold_all :
  forall (Q : Obj -> Prop),
    (forall k m, Q m -> Q (g k m)) ->
    forall (l : list K) (s : S),
      (forall j m, nth_error (get s) j = Some m -> Q m) ->
      forall j m, nth_error (get (fold_left step l s)) j = Some m -> Q m.
Proof.
  intros Q HQ. induction l as [|k l IH]; intros s H; simpl; [exact H|].
  apply IH. now apply step_all.
Qed.
End Folds.

(* ------------------------------------------------------------------ *)
(** ** [pruneGeometryAttributesForExport] *)

Section PruneFacts.
Import String PruneSpec.
Local Open Scope string_scope.
Variable A : Type.

Lemma getAttribute_delete_other :
  forall (g : Prune.Attributes A) (n name : string),
    name <> n ->
    Prune.getAttribute (Prune.deleteAttribute g n) name = Prune.getAttribute g name.
Proof.
  intros g n name Hne. induction g as [|[k a] g IH]; [reflexivity|].
  unfold Prune.deleteAttribute in *. simpl.
  destruct (String.eqb_spec k n) as [->|Hk]; simpl.
  - destruct (String.eqb_spec n name) as [E|_]; [congruence|exact IH].
  - destruct (String.eqb k name); [reflexivity|exact IH].
Qed.

Lemma getAttribute_delete_same :
  forall (g : Prune.Attributes A) (n : string),
    Prune.getAttribute (Prune.deleteAttribute g n) n = None.
Proof.
  intros g n. induction g as [|[k a] g IH]; [reflexivity|].
  unfold Prune.deleteAttribute in *. simpl.
  destruct (String.eqb_spec k n) as [->|Hk]; simpl; [exact IH|].
  destruct (String.eqb_spec k n); [contradiction|exact IH].
Qed.

Lemma getAttribute_condDelete_other :
  forall (c : bool) (n name : string) (g : Prune.Attributes A),
    name <> n ->
    Prune.getAttribute (condDelete c n g) name = Prune.getAttribute g name.
Proof.
  intros c n name g Hne. unfold condDelete.
  destruct (Prune.has g n && c); [|reflexivity].
  now apply getAttribute_delete_other.
Qed.

Lemma has_condDelete_true :
  forall (n : string) (g : Prune.Attributes A),
    Prune.has (condDelete true n g) n = false.
Proof.
  intros n g. unfold condDelete. rewrite andb_true_r.
  destruct (Prune.has g n) eqn:E; [|exact E].
  unfold Prune.has. now rewrite getAttribute_delete_same.
Qed.

Lemma has_condDelete_false :
  forall (c : bool) (n m : string) (g : Prune.Attributes A),
    Prune.has g m = false -> Prune.has (condDelete c n g) m = false.
Proof.
  intros c n m g H. unfold condDelete.
  destruct (Prune.has g n && c); [|exact H].
  destruct (String.eqb_spec m n) as [->|Hne].
  - unfold Prune.has. now rewrite getAttribute_delete_same.
  - unfold Prune.has in *. now rewrite getAttribute_delete_other.
Qed.

Lemma settled_condDelete :
  forall (c : bool) (n : string) (g : Prune.Attributes A),
    settled c n (condDelete c n g).
Proof.
  intros [|] n g; [right; apply has_condDelete_true|left; reflexivity].
Qed.

Lemma settled_preserved :
  forall (c c' : bool) (n n' : string) (g : Prune.Attributes A),
    settled c n g -> settled c n (condDelete c' n' g).
Proof.
  intros c c' n n' g [H|H]; [left; exact H|right].
  now apply has_condDelete_false.
Qed.

Lemma settled_fixed :
  forall (c : bool) (n : string) (g : Prune.Attributes A),
    settled c n g -> condDelete c n g = g.
Proof.
  intros c n g [->|H]; unfold condDelete.
  - now rewrite andb_false_r.
  - now rewrite H.
Qed.

Lemma pruneGeometry_pruned :
  forall (child : Prune.Node) (g : Prune.Attributes A),
    Prune.pruneGeometry child g = pruned child g.
Proof.
  intros child g. unfold Prune.pruneGeometry, pruned, conditions, condDelete.
  cbn [fold_left fst snd].
  destruct (Prune.isSkinnedMesh child); cbn [negb];
    rewrite ?andb_true_r, ?andb_false_r; reflexivity.
Qed.

Lemma conditions_prunable :
  forall (child : Prune.Node) (cn : bool * string),
    In cn (conditions child) -> In (snd cn) Prune.prunable.
Proof.
  intros child cn H. unfold conditions in H. unfold Prune.prunable.
  simpl in H. simpl.
  destruct H as [<-|[<-|[<-|[<-|[<-|[]]]]]]; simpl; auto 10.
Qed.

Lemma deletions_other :
  forall (name : string) (l : list (bool * string)) (g : Prune.Attributes A),
    (forall cn, In cn l -> name <> snd cn) ->
    Prune.getAttribute (fold_left (fun g cn => condDelete (fst cn) (snd cn) g) l g)
                       name
    = Prune.getAttribute g name.
Proof.
  intros name. induction l as [|cn l IH]; intros g H; [reflexivity|].
  simpl. rewrite IH by (intros cn' Hin; apply H; now right).
  apply getAttribute_condDelete_other. apply H. now left.
Qed.

Lemma pruned_other :
  forall (child : Prune.Node) (g : Prune.Attributes A) (name : string),
    ~ In name Prune.prunable ->
    Prune.getAttribute (pruned child g) name = Prune.getAttribute g name.
Proof.
  intros child g name H. unfold pruned. apply deletions_other.
  intros cn Hin ->. apply H. exact (conditions_prunable child cn Hin).
Qed.

Lemma deletions_settled :
  forall (c : bool) (n : string) (l : list (bool * string)) (g : Prune.Attributes A),
    settled c n g ->
    settled c n (fold_left (fun g cn => condDelete (fst cn) (snd cn) g) l g).
Proof.
  intros c n. induction l as [|cn l IH]; intros g H; [exact H|].
  simpl. apply IH. now apply settled_preserved.
Qed.

Lemma deletions_settle :
  forall (l : list (bool * string)) (g : Prune.Attributes A),
    Forall (fun cn =>
              settled (fst cn) (snd cn)
                      (fold_left (fun g cn => condDelete (fst cn) (snd cn) g) l g))
           l.
Proof.
  induction l as [|cn l IH]; intros g; constructor.
  - simpl. apply deletions_settled. apply settled_condDelete.
  - simpl. apply IH.
Qed.

Lemma allSettled_pruned :
  forall (child : Prune.Node) (g : Prune.Attributes A),
    allSettled child (pruned child g).
Proof. intros child g. apply deletions_settle. Qed.

Lemma pruned_allSettled :
  forall (child child' : Prune.Node) (g : Prune.Attributes A),
    allSettled child g -> allSettled child (pruned child' g).
Proof.
  intros child child' g H. unfold allSettled in *.
  apply (Forall_impl _ (P := fun cn => settled (fst cn) (snd cn) g)); [|exact H].
  intros cn Hs. now apply deletions_settled.
Qed.

Lemma settled_deletions_fixed :
  forall (l : list (bool * string)) (g : Prune.Attributes A),
    Forall (fun cn => settled (fst cn) (snd cn) g) l ->
    fold_left (fun g cn => condDelete (fst cn) (snd cn) g) l g = g.
Proof.
  induction l as [|cn l IH]; intros g H; [reflexivity|].
  inversion H as [|? ? H1 H2]; subst. simpl.
  rewrite (settled_fixed _ _ _ H1). now apply IH.
Qed.

Lemma pruned_fixed :
  forall (child : Prune.Node) (g : Prune.Attributes A),
    allSettled child g -> pruned child g = g.
Proof. intros child g H. now apply settled_deletions_fixed. Qed.

Lemma pruned_lacks :
  forall (child : Prune.Node) (n : string) (g : Prune.Attributes A),
    Prune.has g n = false -> Prune.has (pruned child g) n = false.
Proof.
  intros child n g H.
  destruct (deletions_settled true n (conditions child) g (or_intror H)) as [H'|H'];
    [discriminate H'|exact H'].
Qed.

Lemma assignment_other :
  forall (child : Prune.Node) (g : Prune.Attributes A) (name : string),
    ~ In name Prune.prunable ->
    Prune.getAttribute (assignment child g) name = Prune.getAttribute g name.
Proof.
  intros child g name H. unfold assignment.
  destruct (visits child); [now apply pruned_other|reflexivity].
Qed.

Lemma assignment_allSettled :
  forall (child child' : Prune.Node) (g : Prune.Attributes A),
    allSettled child g -> allSettled child (assignment child' g).
Proof.
  intros child child' g H. unfold assignment.
  destruct (visits child'); [now apply pruned_allSettled|exact H].
Qed.

Lemma assignment_lacks :
  forall (child : Prune.Node) (n : string) (g : Prune.Attributes A),
    Prune.has g n = false -> Prune.has (assignment child g) n = false.
Proof.
  intros child n g H. unfold assignment.
  destruct (visits child); [now apply pruned_lacks|exact H].
Qed.

Lemma pruneChild_assignment :
  forall (geoms : list (Prune.Attributes A)) (child : Prune.Node),
    Prune.pruneChild geoms child
    = Heap.modify geoms (place child) (assignment child).
Proof.
  intros geoms child. unfold Prune.pruneChild, place, assignment, visits.
  destruct (Prune.isMesh child); cbn [negb andb].
  - destruct (Prune.geometry child) as [i|].
    + apply modify_ext. intros g. apply pruneGeometry_pruned.
    + symmetry. now apply modify_fixed.
  - symmetry. now apply modify_fixed.
Qed.
End PruneFacts.

Section PruneTheorems.
Import String PruneSpec.
Local Open Scope string_scope.

(** X15.  [pruneGeometryAttributesForExport] touches nothing but the
    attributes [color], [tangent], [uv2], [skinIndex] and
    [skinWeight]: on every geometry of the scene, shared or not, every
    other attribute, among them [position], [normal] and [uv], reads
    after the call as it read before. *)
Theorem prune_keeps_every_other_attribute :
  forall (A : Type) (geoms : list (Prune.Attributes A)) (root : list Prune.Node)
         (i : nat) (g : Prune.Attributes A),
    nth_error geoms i = Some g ->
    exists g' : Prune.Attributes A,
      nth_error (Prune.pruneGeometryAttributesForExport geoms root) i = Some g'
      /\ Forall (fun name => Prune.getAttribute g' name = Prune.getAttribute g name)
                ["position"; "normal"; "uv"]
      /\ (forall name : string,
            ~ In name Prune.prunable ->
            Prune.getAttribute g' name = Prune.getAttribute g name).
Proof.
  intros A geoms root i g E.
  destruct (fold_preserves (Prune.Attributes A) (list (Prune.Attributes A))
              Prune.Node (fun st => st) Prune.pruneChild place assignment
              (pruneChild_assignment A)
              (fun g' => forall name, ~ In name Prune.prunable ->
                                      Prune.getAttribute g' name
                                      = Prune.getAttribute g name)
              i
              (fun child m Hm name Hn =>
                 eq_trans (assignment_other A child m name Hn) (Hm name Hn))
              root geoms g E (fun _ _ => eq_refl))
    as (g' & E' & H).
  exists g'. split; [exact E'|]. split; [|exact H].
  repeat constructor; apply H; unfold Prune.prunable; simpl;
    intros F; repeat (destruct F as [F|F]; [discriminate F|]); exact F.
Qed.

Lemma prune_keeps_every_other_attribute_witness :
  exists g' : Prune.Attributes nat,
    nth_error (Prune.pruneGeometryAttributesForExport PruneSamples.geometries
                                                      PruneSamples.scene) 1
    = Some g'
    /\ Forall (fun name => Prune.getAttribute g' name
                           = Prune.getAttribute PruneSamples.allAttributes name)
              ["position"; "normal"; "uv"]
    /\ (forall name : string,
          ~ In name Prune.prunable ->
          Prune.getAttribute g' name
          = Prune.getAttribute PruneSamples.allAttributes name).
Proof.
  apply (prune_keeps_every_other_attribute nat PruneSamples.geometries
           PruneSamples.scene 1 PruneSamples.allAttributes).
  reflexivity.
Defined.

(** X16.  Pruning is idempotent: a second call finds nothing left to
    delete on any geometry, also when meshes with different materials
    share one. *)
Theorem prune_is_idempotent :
  forall (A : Type) (geoms : list (Prune.Attributes A)) (root : list Prune.Node),
    Prune.pruneGeometryAttributesForExport
      (Prune.pruneGeometryAttributesForExport geoms root) root
    = Prune.pruneGeometryAttributesForExport geoms root.
Proof.
  intros A geoms root.
  unfold Prune.pruneGeometryAttributesForExport at 1.
  apply fold_fixed. intros child Hin.
  rewrite pruneChild_assignment. apply modify_fixed. intros g Hg.
  unfold assignment. destruct (visits child) eqn:V; [|reflexivity].
  apply pruned_fixed.
  destruct (nth_error geoms (place child)) as [g0|] eqn:E0.
  - assert (HCD : forall m : Prune.Attributes A,
               True -> allSettled child (assignment child m)).
    { intros m _. unfold assignment. rewrite V. apply allSettled_pruned. }
    destruct (fold_establishes_at (Prune.Attributes A)
                (list (Prune.Attributes A)) Prune.Node (fun st => st)
                Prune.pruneChild place assignment (pruneChild_assignment A)
                (fun _ : Prune.Attributes A => True) (allSettled child) child
                (fun _ _ _ => I) HCD
                (fun k m H => assignment_allSettled A child k m H)
                root geoms g0 Hin E0 I) as (g' & E' & H').
    unfold Prune.pruneGeometryAttributesForExport in Hg. congruence.
  - pose proof (fold_none (Prune.Attributes A) (list (Prune.Attributes A))
                  Prune.Node (fun st => st) Prune.pruneChild place assignment
                  (pruneChild_assignment A) (place child) root geoms E0) as N.
    unfold Prune.pruneGeometryAttributesForExport in Hg. congruence.
Qed.

(** X17.  The tests [mat.vertexColors], [mat.normalMap], [mat.aoMap]
    and [mat.lightMap] read a single material.  On a mesh whose
    [material] is an array (or is missing) they find nothing, so the
    geometry of such a mesh ends without [color], [tangent] and [uv2],
    whatever the materials in the array use and whatever other meshes
    share the geometry. *)
Theorem prune_ignores_material_arrays :
  forall (A : Type) (geoms : list (Prune.Attributes A)) (root : list Prune.Node)
         (child : Prune.Node) (i : nat) (g : Prune.Attributes A),
    In child root ->
    Prune.isMesh child = true ->
    Prune.geometry child = Some i ->
    (forall m : Material.t, Prune.material child <> Material.Single m) ->
    nth_error geoms i = Some g ->
    exists g' : Prune.Attributes A,
      nth_error (Prune.pruneGeometryAttributesForExport geoms root) i = Some g'
      /\ Prune.getAttribute g' "color" = None
      /\ Prune.getAttribute g' "tangent" = None
      /\ Prune.getAttribute g' "uv2" = None.
Proof.
  intros A geoms root child i g Hin M G Hm E.
  assert (F : forall f, Prune.matField f (Prune.material child) = false).
  { intros f. destruct (Prune.material child) as [|m|ms]; try reflexivity.
    now destruct (Hm m). }
  assert (P : place child = i) by (unfold place; now rewrite G).
  assert (V : visits child = true) by (unfold visits; now rewrite M, G).
  set (lacks := fun g' : Prune.Attributes A =>
                  Prune.has g' "color" = false
                  /\ Prune.has g' "tangent" = false
                  /\ Prune.has g' "uv2" = false).
  assert (L : forall m, lacks (assignment child m)).
  { intros m. unfold assignment. rewrite V.
    pose proof (allSettled_pruned A child m) as S.
    unfold allSettled, conditions in S. rewrite !F in S. cbn [negb] in S.
    inversion S as [|? ? S1 S']; subst. inversion S' as [|? ? S2 S'']; subst.
    inversion S'' as [|? ? S3 _]; subst. cbn [fst snd] in S1, S2, S3.
    repeat split.
    - destruct S1 as [S1|S1]; [discriminate S1|exact S1].
    - destruct S2 as [S2|S2]; [discriminate S2|exact S2].
    - destruct S3 as [S3|S3]; [discriminate S3|exact S3]. }
  rewrite <- P in E.
  destruct (fold_establishes_at (Prune.Attributes A)
              (list (Prune.Attributes A)) Prune.Node (fun st => st)
              Prune.pruneChild place assignment (pruneChild_assignment A)
              (fun _ : Prune.Attributes A => True) lacks child
              (fun _ _ _ => I)
              (fun m _ => L m)
              (fun k m H =>
                 conj (assignment_lacks A k _ m (proj1 H))
                      (conj (assignment_lacks A k _ m (proj1 (proj2 H)))
                            (assignment_lacks A k _ m (proj2 (proj2 H)))))
              root geoms g Hin E I) as (g' & E' & (H1 & H2 & H3)).
  rewrite P in E'. exists g'. split; [exact E'|].
  unfold Prune.has in H1, H2, H3.
  repeat split.
  - destruct (Prune.getAttribute g' "color"); [discriminate|reflexivity].
  - destruct (Prune.getAttribute g' "tangent"); [discriminate|reflexivity].
  - destruct (Prune.getAttribute g' "uv2"); [discriminate|reflexivity].
Qed.

Lemma prune_ignores_material_arrays_witness :
  exists g' : Prune.Attributes nat,
    nth_error (Prune.pruneGeometryAttributesForExport PruneSamples.geometries
                                                      PruneSamples.scene) 1
    = Some g'
    /\ Prune.getAttribute g' "color" = None
    /\ Prune.getAttribute g' "tangent" = None
    /\ Prune.getAttribute g' "uv2" = None.
Proof.
  apply (prune_ignores_material_arrays nat PruneSamples.geometries
           PruneSamples.scene PruneSamples.multiMesh 1
           PruneSamples.allAttributes).
  - simpl. auto.
  - reflexivity.
  - reflexivity.
  - intros m H. discriminate H.
  - reflexivity.
Defined.
End PruneTheorems.

(* ------------------------------------------------------------------ *)
(** ** The texture cache and the texture effect *)

Section StoreFacts.
Import Material TextureEffect TextureSpec.

Lemma fst_visit :
  forall (f : Material.t -> Material.t * list Texture.t)
         (s : Store * list Texture.t) (i : nat),
    fst (visit f s i) = Heap.modify (fst s) i (fun m => fst (f m)).
Proof.
  intros f s i. unfold visit.
  destruct (nth_error (fst s) i) eqn:E; [reflexivity|].
  symmetry. apply modify_fixed. intros mat H. congruence.
Qed.

Lemma fst_startTask :
  forall (s : Store * list Task) (i : nat),
    fst (startTask s i) = Heap.modify (fst s) i prepared.
Proof.
  intros s i. unfold startTask.
  destruct (nth_error (fst s) i) as [mat|] eqn:E.
  - destruct (map mat) eqn:M; [reflexivity|].
    symmetry. apply modify_fixed. intros mat' H.
    assert (mat' = mat) by congruence. subst mat'.
    unfold prepared. now rewrite M.
  - symmetry. apply modify_fixed. intros mat H. congruence.
Qed.

End StoreFacts.

Section MaterialFacts.
Import Material TextureEffect TextureSpec.
Variable image : Texture.t -> bool.

Ltac material m :=
  destruct m as [[?|] [[[?|]]|] ? ? ? ? ?];
  unfold readsOriginal, cachedOriginal, showsOriginal, mapKnown, atRest in *;
  unfold cacheMaterial, prepared, prepare, resetMaterial, install, original,
         userDataOf, setUserData, setMap in *;
  cbn in *;
  repeat match goal with
         | |- context [image ?x] => destruct (image x)
         end;
  cbn in *.

Lemma same_eq : forall a b : Texture.t, Texture.same a b = true -> a = b.
Proof. intros a b. apply Nat.eqb_eq. Qed.

Lemma same_refl : forall t : Texture.t, Texture.same t t = true.
Proof. intros t. apply Nat.eqb_refl. Qed.

Lemma cached_reads :
  forall o m, cachedOriginal o m -> readsOriginal o m.
Proof.
  intros o m. material m; intros [H [t' E]]; try discriminate;
    eexists; split; eauto; congruence.
Qed.

Lemma cacheMaterial_reads :
  forall o m, readsOriginal o m -> readsOriginal o (cacheMaterial image m).
Proof.
  intros o m. material m; intros [t' [E H]]; try discriminate;
    eexists; split; eauto; congruence.
Qed.

Lemma prepared_reads_cached :
  forall o m, readsOriginal o m -> cachedOriginal o (prepared m).
Proof.
  intros o m. material m; intros [t' [E H]]; try discriminate;
    split; eauto; congruence.
Qed.

Lemma prepared_reads :
  forall o m, readsOriginal o m -> readsOriginal o (prepared m).
Proof. intros o m H. now apply cached_reads, prepared_reads_cached. Qed.

Lemma prepared_cached :
  forall o m, cachedOriginal o m -> cachedOriginal o (prepared m).
Proof. intros o m H. now apply prepared_reads_cached, cached_reads. Qed.

Lemma install_cached :
  forall o o' n m, cachedOriginal o m -> cachedOriginal o (fst (install o' n m)).
Proof.
  intros o o' n m. material m; intros [H [t' E]]; try discriminate; split; eauto.
Qed.

Lemma reset_cached_shows :
  forall o m, cachedOriginal o m -> showsOriginal o (fst (resetMaterial m)).
Proof.
  intros o m. material m; intros [H [t' E]]; try discriminate.
  injection H as ->.
  match goal with
  | |- context [Texture.same ?a ?b] => destruct (Texture.same a b) eqn:S
  end; cbn; repeat split; eauto.
  - apply same_eq in S. congruence.
  - cbn. eauto.
Qed.

Lemma shows_cached :
  forall o m, showsOriginal o m -> cachedOriginal o m.
Proof. intros o m [H _]. exact H. Qed.

Lemma reset_cached :
  forall o m, cachedOriginal o m -> cachedOriginal o (fst (resetMaterial m)).
Proof. intros o m H. now apply shows_cached, reset_cached_shows. Qed.

Lemma reset_shows :
  forall o m, showsOriginal o m -> showsOriginal o (fst (resetMaterial m)).
Proof. intros o m H. now apply reset_cached_shows, shows_cached. Qed.

Lemma cacheMaterial_known :
  forall news m, mapKnown news m -> mapKnown news (cacheMaterial image m).
Proof.
  intros news m. material m; intros H t' E; try discriminate;
    injection E as <-; try (left; reflexivity); now apply H.
Qed.

Lemma prepared_known :
  forall news m, mapKnown news m -> mapKnown news (prepared m).
Proof.
  intros news m. material m; intros H t' E; try discriminate;
    injection E as <-; try (left; reflexivity); now apply H.
Qed.

Lemma install_known :
  forall news o n m, In n news -> mapKnown news (fst (install o n m)).
Proof.
  intros news o n m Hn. material m; intros t' E; injection E as <-; now right.
Qed.

Lemma install_disposed :
  forall news o n m,
    cachedOriginal o m -> mapKnown news m ->
    forall d, In d (snd (install o n m)) -> In d news.
Proof.
  intros news o n m. material m; intros [H [t' E]] K d Hd;
    try discriminate; try contradiction.
  injection H as ->.
  match type of Hd with
  | context [Texture.same ?a ?b] => destruct (Texture.same a b) eqn:S
  end; cbn in Hd; [contradiction|].
  destruct Hd as [<-|[]].
  destruct (K _ eq_refl) as [->|Hin]; [|exact Hin].
  now rewrite same_refl in S.
Qed.

Lemma reset_known :
  forall news m, mapKnown news m -> mapKnown news (fst (resetMaterial m)).
Proof.
  intros news m. material m; intros H; try exact H;
    match goal with
    | |- context [Texture.same ?a ?b] => destruct (Texture.same a b) eqn:S
    end; cbn; intros t' E; injection E as <-;
    try (left; reflexivity); now apply H.
Qed.

Lemma reset_disposed :
  forall news m,
    mapKnown news m ->
    forall d, In d (snd (resetMaterial m)) -> In d news.
Proof.
  intros news m. material m; intros K d Hd; try contradiction;
    match type of Hd with
    | context [Texture.same ?a ?b] => destruct (Texture.same a b) eqn:S
    end; cbn in Hd; try contradiction;
    destruct Hd as [<-|[]];
    (destruct (K _ eq_refl) as [E|Hin]; [|exact Hin]);
    rewrite ?E, same_refl in S; discriminate S.
Qed.

Lemma reset_atRest :
  forall m, atRest (fst (resetMaterial m)).
Proof.
  intros m. material m; try reflexivity;
    match goal with
    | |- context [Texture.same ?a ?b] => destruct (Texture.same a b) eqn:S
    end; cbn; rewrite ?same_refl, ?S; reflexivity.
Qed.

Lemma atRest_fixed :
  forall m, atRest m -> fst (resetMaterial m) = m.
Proof. intros m H. unfold atRest in H. now rewrite H. Qed.
End MaterialFacts.

Section EffectFacts.
Import Material TextureEffect TextureSpec.

Lemma visited_place :
  forall (root : list Mesh) (i : nat),
    In i (visited root) -> exists k, In k (visited root) /\ (fun j : nat => j) k = i.
Proof. intros root i H. exists i. split; [exact H|reflexivity]. Qed.

(** Every task of a run names a material with a map whose
    [originalMap] is the original the task read. *)
Lemma startTasks_tasks :
  forall (l : list nat) (s : Store * list Task),
    (forall tk, In tk (snd s) ->
                exists m, nth_error (fst s) (fst tk) = Some m
                          /\ cachedOriginal (snd tk) m) ->
    forall tk, In tk (snd (fold_left startTask l s)) ->
               exists m, nth_error (fst (fold_left startTask l s)) (fst tk) = Some m
                         /\ cachedOriginal (snd tk) m.
Proof.
  induction l as [|i l IH]; intros s H; [exact H|].
  simpl. apply IH. intros tk Htk.
  assert (P : forall tk', In tk' (snd s) ->
                exists m, nth_error (fst (startTask s i)) (fst tk') = Some m
                          /\ cachedOriginal (snd tk') m).
  { intros tk' Hin. destruct (H tk' Hin) as (m & E & C).
    rewrite fst_startTask, nth_error_modify, E.
    destruct (i =? fst tk')%nat; simpl; eauto using prepared_cached. }
  unfold startTask in Htk.
  destruct (nth_error (fst s) i) as [mat|] eqn:E; [|now apply P].
  destruct (map mat) as [t|] eqn:M; [|now apply P].
  cbn [snd] in Htk. apply in_app_or in Htk. destruct Htk as [Hin|[<-|[]]].
  - now apply P.
  - cbn [fst snd]. rewrite fst_startTask, nth_error_modify, E, Nat.eqb_refl.
    simpl. eexists. split; [reflexivity|].
    apply prepared_reads_cached. exists t. split; [exact M|reflexivity].
Qed.

Lemma resume_running :
  forall (news : list Texture.t) (tasks : list Task)
         (s : Store * list Texture.t) (c : Completion),
    In (task c) tasks -> In (newTex c) news ->
    running news tasks s -> running news tasks (resume s c).
Proof.
  intros news tasks s c Ht Hn (K & T & D).
  destruct (T _ Ht) as (m & E & C).
  unfold running, resume. repeat split.
  - rewrite fst_visit. intros j m'. rewrite nth_error_modify.
    destruct (fst (task c) =? j)%nat; [|apply K].
    destruct (nth_error (fst s) j); cbn [option_map]; [|discriminate].
    intros [= <-]. exact (install_known news (snd (task c)) _ _ Hn).
  - intros tk Hin. destruct (T _ Hin) as (m' & E' & C').
    rewrite fst_visit, nth_error_modify, E'.
    destruct (fst (task c) =? fst tk)%nat; cbn [option_map]; [|eauto].
    eexists. split; [reflexivity|].
    exact (install_cached _ (snd (task c)) (newTex c) m' C').
  - unfold visit. rewrite E. cbn [snd]. intros d Hd.
    apply in_app_or in Hd. destruct Hd as [Hd|Hd]; [now apply D|].
    exact (install_disposed news _ _ m C (K _ _ E) d Hd).
Qed.

Lemma fold_resume_running :
  forall (news : list Texture.t) (tasks : list Task) (l : list Completion)
         (s : Store * list Texture.t),
    (forall c, In c l -> In (task c) tasks /\ In (newTex c) news) ->
    running news tasks s -> running news tasks (fold_left resume l s).
Proof.
  intros news tasks. induction l as [|c l IH]; intros s H R; [exact R|].
  simpl. apply IH; [intros c' Hc'; apply H; now right|].
  destruct (H c (or_introl eq_refl)). now apply resume_running.
Qed.

Lemma fold_reset_known :
  forall (news : list Texture.t) (l : list nat) (s : Store * list Texture.t),
    (forall j m, nth_error (fst s) j = Some m -> mapKnown news m) ->
    (forall d, In d (snd s) -> In d news) ->
    forall d, In d (snd (fold_left (visit resetMaterial) l s)) -> In d news.
Proof.
  intros news. induction l as [|i l IH]; intros s K D; [exact D|].
  simpl. apply IH.
  - rewrite fst_visit. intros j m. rewrite nth_error_modify.
    destruct (i =? j)%nat; [|apply K].
    destruct (nth_error (fst s) j) as [m0|] eqn:E; simpl; [|discriminate].
    intros [= <-]. apply reset_known. exact (K _ _ E).
  - unfold visit. destruct (nth_error (fst s) i) as [m|] eqn:E; [|exact D].
    cbn [snd]. intros d Hd. apply in_app_or in Hd.
    destruct Hd as [Hd|Hd]; [now apply D|].
    exact (reset_disposed news m (K _ _ E) d Hd).
Qed.

Lemma fold_reset_atRest :
  forall (l : list nat) (s : Store * list Texture.t),
    (forall i m, In i l -> nth_error (fst s) i = Some m -> atRest m) ->
    fold_left (visit resetMaterial) l s = s.
Proof.
  induction l as [|i l IH]; intros s H; [reflexivity|].
  simpl.
  assert (E : visit resetMaterial s i = s).
  { unfold visit. destruct (nth_error (fst s) i) as [m|] eqn:N; [|reflexivity].
    pose proof (H i m (or_introl eq_refl) N) as R.
    rewrite modify_fixed.
    - unfold atRest in R. rewrite R. cbn [snd]. rewrite app_nil_r.
      now destruct s.
    - intros mat Hm. assert (mat = m) by congruence. subst mat.
      now apply atRest_fixed. }
  rewrite E. apply IH. intros j m Hj. apply H. now right.
Qed.
End EffectFacts.

Section TextureTheorems.
Import Material TextureEffect TextureSpec.

(** X18.  Bringing the four controls back to zero restores the
    textures.  Take a material that some mesh of the model uses and
    that has a map when the model is loaded.  After
    [cacheOriginalTextures], a run of the effect away from zero in
    which any tasks come back with any textures in any order, and a run
    with all controls at zero, the map of the material is the one the
    effect reads as its original: its [userData.originalMap] if it came
    with one, and else the map it was loaded with. *)
Theorem zero_controls_restore_original_maps :
  forall (image : Texture.t -> bool) (st : Store) (root : list Mesh)
         (completions : list Completion)
         (i : nat) (mat : Material.t) (t : Texture.t),
    In i (visited root) ->
    nth_error st i = Some mat ->
    Material.map mat = Some t ->
    let loaded := cacheOriginalTextures image st root in
    let adjusted := adjustRun loaded root completions in
    let reset := zeroRun (fst adjusted) root in
    exists mat' : Material.t,
      nth_error (fst reset) i = Some mat'
      /\ Material.map mat' = Some (original mat t).
Proof.
  intros image st root completions i mat t Hi E M loaded adjusted reset.
  set (o := original mat t).
  assert (C0 : readsOriginal o mat) by (exists t; split; [exact M|reflexivity]).
  destruct (fold_preserves Material.t Store nat (fun st => st)
              (fun st i => Heap.modify st i (cacheMaterial image)) (fun j => j)
              (fun _ => cacheMaterial image) (fun _ _ => eq_refl)
              (readsOriginal o) i (fun _ => cacheMaterial_reads image o)
              (visited root) st mat E C0) as (m1 & E1 & C1).
  destruct (fold_establishes Material.t (Store * list Task) nat fst startTask (fun j => j)
              (fun _ => prepared) fst_startTask
              (readsOriginal o) (cachedOriginal o) i
              (fun _ => prepared_reads o)
              (fun _ m _ => prepared_reads_cached o m)
              (fun _ => prepared_cached o)
              (visited root) (loaded, []) m1 (visited_place root i Hi) E1 C1)
    as (m2 & E2 & C2).
  destruct (fold_preserves Material.t (Store * list Texture.t) Completion fst resume
              (fun c => fst (task c))
              (fun c m => fst (install (snd (task c)) (newTex c) m))
              (fun s c => fst_visit _ s _)
              (cachedOriginal o) i
              (fun c => install_cached o (snd (task c)) (newTex c))
              completions (fst (startTasks loaded root), []) m2 E2 C2)
    as (m3 & E3 & C3).
  destruct (fold_establishes Material.t (Store * list Texture.t) nat fst (visit resetMaterial)
              (fun j => j) (fun _ m => fst (resetMaterial m))
              (fun s j => fst_visit _ s j)
              (cachedOriginal o) (showsOriginal o) i
              (fun _ => reset_cached o)
              (fun _ m _ => reset_cached_shows o m)
              (fun _ => reset_shows o)
              (visited root) (fst adjusted, []) m3 (visited_place root i Hi) E3 C3)
    as (m4 & E4 & C4).
  exists m4. split; [exact E4|]. exact (proj2 C4).
Qed.

Lemma zero_controls_restore_original_maps_witness :
  exists mat' : Material.t,
    nth_error
      (fst (zeroRun
              (fst (adjustRun
                      (cacheOriginalTextures TextureSamples.image
                                             TextureSamples.store TextureSamples.root)
                      TextureSamples.root TextureSamples.completions))
              TextureSamples.root)) 0
    = Some mat'
    /\ Material.map mat'
       = Some (original (TextureSamples.loaded (Some TextureSamples.wood))
                        TextureSamples.wood).
Proof.
  apply (zero_controls_restore_original_maps TextureSamples.image
           TextureSamples.store TextureSamples.root TextureSamples.completions
           0 (TextureSamples.loaded (Some TextureSamples.wood)) TextureSamples.wood).
  - simpl. left. reflexivity.
  - reflexivity.
  - reflexivity.
Defined.

(** X19.  Only adjusted textures are disposed of.  If no material of
    the loaded model carries an [originalMap] other than its map, then
    every texture that a run away from zero and the run at zero after
    it dispose of is one that a task of that run had installed: a
    texture of the loaded model is never disposed of. *)
Theorem only_adjusted_textures_are_disposed :
  forall (image : Texture.t -> bool) (st : Store) (root : list Mesh)
         (completions : list Completion),
    (forall mat t, In mat st -> Material.map mat = Some t -> original mat t = t) ->
    (forall c, In c completions ->
               In (task c)
                  (snd (startTasks (cacheOriginalTextures image st root) root))) ->
    let loaded := cacheOriginalTextures image st root in
    let adjusted := adjustRun loaded root completions in
    let reset := zeroRun (fst adjusted) root in
    Forall (fun d : Texture.t => In d (List.map newTex completions))
           (snd adjusted ++ snd reset).
Proof.
  intros image st root completions H0 Hc loaded adjusted reset.
  apply Forall_forall.
  set (news := List.map newTex completions).
  assert (K1 : forall j m, nth_error loaded j = Some m -> mapKnown news m).
  { apply (fold_all Material.t Store nat (fun st => st)
             (fun st i => Heap.modify st i (cacheMaterial image)) (fun j => j)
             (fun _ => cacheMaterial image) (fun _ _ => eq_refl)
             (mapKnown news) (fun _ => cacheMaterial_known image news)).
    intros j m E t' M. left. apply H0; [|exact M].
    exact (nth_error_In _ _ E). }
  assert (K2 : forall j m, nth_error (fst (startTasks loaded root)) j = Some m ->
                           mapKnown news m).
  { apply (fold_all Material.t (Store * list Task) nat fst startTask (fun j => j)
             (fun _ => prepared) fst_startTask
             (mapKnown news) (fun _ => prepared_known news)).
    exact K1. }
  assert (R : running news (snd (startTasks loaded root)) adjusted).
  { apply fold_resume_running.
    - intros c Hin. split; [now apply Hc|]. now apply in_map.
    - repeat split.
      + exact K2.
      + apply startTasks_tasks. intros tk [].
      + intros d []. }
  destruct R as (K3 & _ & D3).
  intros d Hd. apply in_app_or in Hd. destruct Hd as [Hd|Hd]; [now apply D3|].
  apply (fold_reset_known news (visited root) (fst adjusted, []) K3); [|exact Hd].
  intros d' [].
Qed.

Lemma only_adjusted_textures_are_disposed_witness :
  Forall (fun d : Texture.t => In d (List.map newTex TextureSamples.completions))
         (snd (adjustRun
                 (cacheOriginalTextures TextureSamples.image
                                        TextureSamples.store TextureSamples.root)
                 TextureSamples.root TextureSamples.completions)
          ++ snd (zeroRun
                    (fst (adjustRun
                            (cacheOriginalTextures TextureSamples.image
                                                   TextureSamples.store
                                                   TextureSamples.root)
                            TextureSamples.root TextureSamples.completions))
                    TextureSamples.root)).
Proof.
  apply (only_adjusted_textures_are_disposed TextureSamples.image
           TextureSamples.store TextureSamples.root TextureSamples.completions).
  - intros mat t [<-|[<-|[]]] M; [reflexivity|discriminate M].
  - intros c [<-|[<-|[]]]; vm_compute; left; reflexivity.
Defined.

(** X20.  A second run with all controls at zero changes no material
    and disposes of nothing. *)
Theorem zero_run_is_idempotent :
  forall (st : Store) (root : list Mesh),
    zeroRun (fst (zeroRun st root)) root = (fst (zeroRun st root), []).
Proof.
  intros st root. unfold zeroRun at 1. apply fold_reset_atRest.
  intros i m Hi E. cbn [fst] in E.
  destruct (nth_error st i) as [m0|] eqn:E0.
  - destruct (fold_establishes Material.t (Store * list Texture.t) nat fst
                (visit resetMaterial) (fun j => j)
                (fun _ m => fst (resetMaterial m))
                (fun s j => fst_visit _ s j)
                (fun _ => True) atRest i
                (fun _ _ _ => I)
                (fun _ m _ _ => reset_atRest m)
                (fun _ m H => eq_ind_r atRest H (atRest_fixed m H))
                (visited root) (st, []) m0 (visited_place root i Hi) E0 I)
      as (m' & E' & R).
    unfold zeroRun in E. congruence.
  - pose proof (fold_none Material.t (Store * list Texture.t) nat fst
                  (visit resetMaterial) (fun j => j)
                  (fun _ m => fst (resetMaterial m))
                  (fun s j => fst_visit _ s j)
                  i (visited root) (st, []) E0) as N.
    unfold zeroRun in E. congruence.
Qed.
End TextureTheorems.

(* ------------------------------------------------------------------ *)
(** ** [textureUtils.js] *)

Section MoreFloatFacts.
Local Open Scope float_scope.

Lemma ltb_leb (a b : float) : (a <? b) = true -> (a <=? b) = true.
Proof.
  rewrite FloatAxioms.ltb_spec, FloatAxioms.leb_spec. unfold SFltb, SFleb.
  destruct (SFcompare (Prim2SF a) (Prim2SF b)) as [[]|]; congruence.
Qed.

Lemma leb_not_ltb (a b : float) : (a <=? b) = true -> (b <? a) = false.
Proof.
  rewrite FloatAxioms.ltb_spec, FloatAxioms.leb_spec. unfold SFltb, SFleb.
  rewrite (SFcompare_antisym (Prim2SF a) (Prim2SF b)).
  destruct (SFcompare (Prim2SF a) (Prim2SF b)) as [[]|]; simpl; congruence.
Qed.

Lemma leb_not_nan (a b : float) :
  (a <=? b) = true -> is_nan a = false /\ is_nan b = false.
Proof.
  intros H. split.
  - destruct (is_nan a) eqn:E; [|reflexivity]. now rewrite leb_nan_l in H.
  - destruct (is_nan b) eqn:E; [|reflexivity]. now rewrite leb_nan_r in H.
Qed.

Lemma not_ltb_eqb (a b : float) :
  is_nan a = false -> is_nan b = false ->
  (a <? b) = false -> (b <? a) = false -> (a =? b) = true.
Proof.
  intros Ha Hb. rewrite !FloatAxioms.ltb_spec, FloatAxioms.eqb_spec.
  unfold SFltb, SFeqb.
  rewrite (SFcompare_antisym (Prim2SF a) (Prim2SF b)).
  destruct (compare_defined a b Ha Hb) as [c ->].
  destruct c; simpl; congruence.
Qed.

Lemma eqb_refl_not_nan (a : float) : is_nan a = false -> (a =? a) = true.
Proof. unfold is_nan. now destruct (a =? a). Qed.

Lemma eqb_leb (a b : float) : (a =? b) = true -> (a <=? b) = true.
Proof.
  rewrite FloatAxioms.eqb_spec, FloatAxioms.leb_spec. unfold SFeqb, SFleb.
  destruct (SFcompare (Prim2SF a) (Prim2SF b)) as [[]|]; congruence.
Qed.

Lemma eqb_sym (a b : float) : (a =? b) = (b =? a).
Proof.
  rewrite !FloatAxioms.eqb_spec. unfold SFeqb.
  rewrite (SFcompare_antisym (Prim2SF a) (Prim2SF b)).
  destruct (SFcompare (Prim2SF a) (Prim2SF b)) as [[]|]; reflexivity.
Qed.


Lemma max2_cases (a b : float) :
  is_nan a = false -> is_nan b = false ->
  (JS.max2 a b = b /\ (a <=? b) = true) \/ (JS.max2 a b = a /\ (b <=? a) = true).
Proof.
  intros Ha Hb. unfold JS.max2. rewrite Ha, Hb. simpl.
  destruct (a <? b) eqn:L1; [left; split; [reflexivity|now apply ltb_leb]|].
  destruct (b <? a) eqn:L2; [right; split; [reflexivity|now apply ltb_leb]|].
  pose proof (not_ltb_eqb a b Ha Hb L1 L2) as E.
  destruct (JS.is_neg_zero a).
  - left. split; [reflexivity|now apply eqb_leb].
  - right. split; [reflexivity|]. apply eqb_leb. now rewrite eqb_sym.
Qed.

Lemma min2_cases (a b : float) :
  is_nan a = false -> is_nan b = false ->
  (JS.min2 a b = a /\ (a <=? b) = true) \/ (JS.min2 a b = b /\ (b <=? a) = true).
Proof.
  intros Ha Hb. unfold JS.min2. rewrite Ha, Hb. simpl.
  destruct (a <? b) eqn:L1; [left; split; [reflexivity|now apply ltb_leb]|].
  destruct (b <? a) eqn:L2; [right; split; [reflexivity|now apply ltb_leb]|].
  pose proof (not_ltb_eqb a b Ha Hb L1 L2) as E.
  destruct (JS.is_neg_zero a).
  - left. split; [reflexivity|now apply eqb_leb].
  - right. split; [reflexivity|]. apply eqb_leb. now rewrite eqb_sym.
Qed.

Lemma max2_nan_r (a b : float) : is_nan b = true -> JS.max2 a b = nan.
Proof. intros H. unfold JS.max2. now rewrite H, orb_true_r. Qed.

Lemma min2_nan_r (a b : float) : is_nan b = true -> JS.min2 a b = nan.
Proof. intros H. unfold JS.min2. now rewrite H, orb_true_r. Qed.
End MoreFloatFacts.

Section ClampFacts.
Import TextureUtils.
Local Open Scope float_scope.

Lemma clamp255_unfold (v : float) :
  clamp255 v = JS.max2 0 (JS.min2 255 v).
Proof.
  unfold clamp255, clamp, JS.Math_max, Math_min. cbn [fold_left].
  change (JS.max2 neg_infinity 0) with 0.
  change (JS.min2 infinity 255) with 255.
  reflexivity.
Qed.
End ClampFacts.

Section ClampTheorems.
Import TextureUtils.
Local Open Scope float_scope.

(** X21.  [clamp] with its default bounds: NaN stays NaN; every other
    number, the infinities included, is brought into the range from
    [0] to [255]; and a number that lies in the range already comes
    back as an equal number. *)
Theorem clamp_brings_numbers_into_range :
  forall v : float,
    (is_nan v = true -> is_nan (clamp255 v) = true)
    /\ (is_nan v = false ->
        (0 <=? clamp255 v) = true /\ (clamp255 v <=? 255) = true)
    /\ ((0 <=? v) = true -> (v <=? 255) = true -> (clamp255 v =? v) = true).
Proof.
  intros v. rewrite clamp255_unfold. repeat split.
  - intros H. rewrite (min2_nan_r 255 v H). reflexivity.
  - destruct (min2_cases 255 v eq_refl H) as [[-> _]|[-> L]].
    + reflexivity.
    + destruct (max2_cases 0 v eq_refl H) as [[-> L']|[-> _]];
        [exact L'|reflexivity].
  - destruct (min2_cases 255 v eq_refl H) as [[-> _]|[-> L]].
    + reflexivity.
    + destruct (max2_cases 0 v eq_refl H) as [[-> _]|[-> _]];
        [exact L|reflexivity].
  - intros L0 L1. destruct (leb_not_nan _ _ L0) as [_ Hv].
    assert (M : JS.min2 255 v = v).
    { unfold JS.min2. rewrite Hv. cbn [is_nan orb].
      change (is_nan 255) with false. cbn [orb].
      rewrite (leb_not_ltb _ _ L1).
      destruct (v <? 255); [reflexivity|].
      change (JS.is_neg_zero 255) with false. reflexivity. }
    rewrite M. unfold JS.max2. rewrite Hv.
    change (is_nan 0) with false. cbn [orb].
    destruct (0 <? v) eqn:P; [now apply eqb_refl_not_nan|].
    rewrite (leb_not_ltb _ _ L0).
    change (JS.is_neg_zero 0) with false. cbn iota.
    apply not_ltb_eqb; auto using leb_not_ltb.
Qed.
End ClampTheorems.

Section NanArithmetic.
Local Open Scope float_scope.





Lemma finite_cases (a : float) :
  is_finite a = true ->
  (exists s, Prim2SF a = S754_zero s) \/ (exists s m e, Prim2SF a = S754_finite s m e).
Proof.
  unfold is_finite. intros H. apply negb_true_iff, orb_false_iff in H.
  destruct H as [Hn Hi]. apply not_nan_Prim2SF in Hn.
  unfold is_infinity in Hi. rewrite FloatAxioms.eqb_spec, abs_spec in Hi.
  change (Prim2SF infinity) with (S754_infinity false) in Hi.
  destruct (Prim2SF a) as [s|s| |s m e]; eauto.
  - discriminate Hi.
  - congruence.
Qed.



Lemma mul_zero_finite (y : float) :
  is_finite y = true -> y * 0 = 0 \/ y * 0 = -0.
Proof.
  intros F.
  assert (H : Prim2SF (y * 0) = S754_zero false \/ Prim2SF (y * 0) = S754_zero true).
  { rewrite mul_spec. change (Prim2SF 0) with (S754_zero false).
    unfold SF64mul, SFmul.
    destruct (finite_cases y F) as [[[] ->]|[[] (m & e & ->)]]; auto. }
  destruct H as [H|H]; [left|right]; apply Prim2SF_inj; rewrite H; reflexivity.
Qed.









End NanArithmetic.

Section GreyFacts.
Import TextureUtils.
Local Open Scope float_scope.






End GreyFacts.

Section GreyTheorems.
Import TextureUtils.
Local Open Scope float_scope.

End GreyTheorems.

Section NeutralFacts.
Import TextureUtils PixelSpec.
Local Open Scope float_scope.

Lemma in_bytes (v : Z) : (0 <= v <= 255)%Z -> In v bytes.
Proof.
  intros H. unfold bytes. rewrite <- (Z2Nat.id v) by lia.
  apply in_map, in_seq. lia.
Qed.


End NeutralFacts.

Section NeutralTheorems.
Import TextureUtils PixelSpec.
Local Open Scope float_scope.


End NeutralTheorems.

Section ImageFacts.
Import TextureUtils PixelSpec.

Lemma blurKept_bytes : forallb blurKept bytes = true.
Proof. vm_compute. reflexivity. Qed.

Lemma sharpenKept_bytes : forallb sharpenKept bytes = true.
Proof. vm_compute. reflexivity. Qed.

Lemma update_length (d : Pixels) (i : nat) (v : Z) :
  length (update d i v) = length d.
Proof.
  revert i. induction d as [|x d IH]; intros [|i]; simpl; auto.
Qed.

Lemma update_same (d : Pixels) (i : nat) (v : Z) :
  (forall u, nth_error d i = Some u -> v = u) -> update d i v = d.
Proof.
  revert i. induction d as [|x d IH]; intros [|i] H; simpl; auto.
  - now rewrite (H x eq_refl).
  - now rewrite IH.
Qed.

Lemma update_app (A B : Pixels) (j : nat) (v : Z) :
  update (A ++ B) (length A + j) v = A ++ update B j v.
Proof.
  induction A as [|x A IH]; simpl; [reflexivity|]. now rewrite IH.
Qed.

Lemma set_same (d : Pixels) (idx : Z) (x : float) :
  (forall u, nth_error d (Z.to_nat idx) = Some u -> ToUint8Clamp x = u) ->
  set d idx x = d.
Proof.
  intros H. unfold set. destruct (idx <? 0)%Z; [reflexivity|].
  now apply update_same.
Qed.

Lemma flat_length (px : list Z) (n : nat) :
  length (flat px n) = n * length px.
Proof.
  unfold flat. induction n as [|n IH]; simpl; [reflexivity|].
  now rewrite length_app, IH.
Qed.

Lemma flat_succ (px : list Z) (n : nat) :
  flat px (S n) = flat px n ++ px.
Proof.
  unfold flat. rewrite <- (app_nil_r px) at 3.
  change (px ++ []) with (concat [px]).
  rewrite <- concat_app, <- repeat_cons. reflexivity.
Qed.

Lemma nth_error_flat (px : list Z) (n p c : nat) :
  p < n -> c < length px ->
  nth_error (flat px n) (p * length px + c) = nth_error px c.
Proof.
  revert p. induction n as [|n IH]; intros p Hp Hc; [lia|].
  unfold flat. simpl. fold (flat px n). destruct p as [|p].
  - simpl. now rewrite nth_error_app1.
  - rewrite nth_error_app2 by (simpl; lia).
    replace (S p * length px + c - length px) with (p * length px + c)
      by (simpl; lia).
    apply IH; lia.
Qed.

Lemma get_flat (px : list Z) (n : nat) (p c : Z) (v : Z) :
  length px = 4%nat ->
  (0 <= p < Z.of_nat n)%Z -> (0 <= c < 4)%Z ->
  nth_error px (Z.to_nat c) = Some v ->
  get (flat px n) (p * 4 + c)%Z = ofZ v.
Proof.
  intros L Hp Hc E. unfold get.
  destruct (p * 4 + c <? 0)%Z eqn:B; [apply Z.ltb_lt in B; lia|].
  replace (Z.to_nat (p * 4 + c)) with (Z.to_nat p * length px + Z.to_nat c)
    by (rewrite L; lia).
  rewrite nth_error_flat by lia. now rewrite E.
Qed.

Lemma accumulate_flat (data : Pixels) (idx : Z -> Z) (c v : Z) :
  (forall i, In i taps -> get data (idx i + c)%Z = ofZ v) ->
  (0 <= v <= 255)%Z ->
  ToUint8Clamp (accumulate data idx c / ks)%float = v.
Proof.
  intros H Hv.
  pose proof (proj1 (forallb_forall blurKept bytes) blurKept_bytes v
                    (in_bytes v Hv)) as K.
  unfold blurKept, blurred in K. apply Z.eqb_eq in K.
  etransitivity; [|exact K]. unfold accumulate. do 2 f_equal.
  unfold taps in *. cbn [fold_left].
  rewrite !H by (simpl; auto 10). reflexivity.
Qed.

Lemma store4_filled (r g b a : Z) (n : nat) (K : Z)
      (data : Pixels) (idx : Z -> Z) :
  (0 <= K < Z.of_nat n)%Z ->
  ToUint8Clamp (accumulate data idx 0 / ks)%float = r ->
  ToUint8Clamp (accumulate data idx 1 / ks)%float = g ->
  ToUint8Clamp (accumulate data idx 2 / ks)%float = b ->
  ToUint8Clamp (accumulate data idx 3 / ks)%float = a ->
  store4 (filled [r; g; b; a] n K) (K * 4)%Z data idx
  = filled [r; g; b; a] n (K + 1).
Proof.
  intros HK Er Eg Eb Ea.
  assert (B0 : (K * 4 <? 0)%Z = false) by (apply Z.ltb_ge; lia).
  assert (B1 : (K * 4 + 1 <? 0)%Z = false) by (apply Z.ltb_ge; lia).
  assert (B2 : (K * 4 + 2 <? 0)%Z = false) by (apply Z.ltb_ge; lia).
  assert (B3 : (K * 4 + 3 <? 0)%Z = false) by (apply Z.ltb_ge; lia).
  unfold store4, filled. cbv zeta. unfold set.
  rewrite B0, B1, B2, B3, Er, Eg, Eb, Ea.
  replace (Z.to_nat (K + 1)) with (S (Z.to_nat K)) by lia.
  replace (4 * (n - Z.to_nat K))%nat with (4 + 4 * (n - S (Z.to_nat K)))%nat by lia.
  rewrite flat_succ, <- app_assoc.
  set (A := flat [r; g; b; a] (Z.to_nat K)).
  set (Z0 := repeat 0%Z (4 * (n - S (Z.to_nat K)))).
  assert (LA : length A = (Z.to_nat K * 4)%nat) by (unfold A; apply flat_length).
  change (repeat 0%Z (4 + 4 * (n - S (Z.to_nat K))))
    with (0%Z :: 0%Z :: 0%Z :: 0%Z :: Z0).
  replace (Z.to_nat (K * 4)) with (length A + 0)%nat by lia.
  replace (Z.to_nat (K * 4 + 1)) with (length A + 1)%nat by lia.
  replace (Z.to_nat (K * 4 + 2)) with (length A + 2)%nat by lia.
  replace (Z.to_nat (K * 4 + 3)) with (length A + 3)%nat by lia.
  rewrite !update_app. reflexivity.
Qed.

Lemma fold_range_inv (A : Type) (P : Z -> A -> Prop) (f : A -> Z -> A)
      (n : Z) (a : A) :
  (0 <= n)%Z -> P 0%Z a ->
  (forall k acc, (0 <= k < n)%Z -> P k acc -> P (k + 1)%Z (f acc k)) ->
  P n (fold_left f (range n) a).
Proof.
  intros Hn H0 Hs. unfold range.
  rewrite <- (Z2Nat.id n Hn) at 1.
  assert (G : forall m, (m <= Z.to_nat n)%nat ->
                        P (Z.of_nat m)
                          (fold_left f (List.map Z.of_nat (seq 0 m)) a)).
  { induction m as [|m IH]; intros Hm; [exact H0|].
    rewrite seq_S, map_app, fold_left_app. cbn [List.map fold_left Nat.add].
    replace (Z.of_nat (S m)) with (Z.of_nat m + 1)%Z by lia.
    apply Hs; [lia|]. apply IH. lia. }
  now apply G.
Qed.

Lemma raster_filled (px : list Z) (w h : Z)
      (pixel : Pixels -> Z -> Z -> Pixels) :
  length px = 4 -> (0 <= w)%Z -> (0 <= h)%Z ->
  (forall y x, (0 <= y < h)%Z -> (0 <= x < w)%Z ->
               pixel (filled px (Z.to_nat (w * h)) (y * w + x)) y x
               = filled px (Z.to_nat (w * h)) (y * w + x + 1)) ->
  raster pixel w h (repeat 0%Z (length (flat px (Z.to_nat (w * h)))))
  = flat px (Z.to_nat (w * h)).
Proof.
  intros L Hw Hh Hs. set (N := Z.to_nat (w * h)) in *.
  assert (E0 : repeat 0%Z (length (flat px N)) = filled px N (0 * w)).
  { unfold filled. rewrite flat_length, L. cbn [Z.mul Z.to_nat flat repeat concat app].
    f_equal. lia. }
  assert (E1 : filled px N (h * w) = flat px N).
  { unfold filled. replace (Z.to_nat (h * w)) with N by (unfold N; f_equal; lia).
    rewrite Nat.sub_diag. cbn [Nat.mul repeat]. apply app_nil_r. }
  rewrite E0, <- E1. unfold raster.
  apply (fold_range_inv Pixels (fun y out => out = filled px N (y * w))); auto.
  intros y out Hy ->.
  replace ((y + 1) * w)%Z with (y * w + w)%Z by lia.
  rewrite <- (Z.add_0_r (y * w)) at 1.
  apply (fold_range_inv Pixels (fun x out => out = filled px N (y * w + x))); auto.
  intros x acc Hx ->. rewrite Z.add_assoc. now apply Hs.
Qed.

Lemma pixel_in_image (w h y x : Z) :
  (0 <= y < h)%Z -> (0 <= x < w)%Z -> (0 <= y * w + x < w * h)%Z.
Proof. intros Hy Hx. nia. Qed.

Lemma store4_flat (r g b a : Z) (N : nat) (idx : Z -> Z) (K : Z) :
  (0 <= r <= 255)%Z -> (0 <= g <= 255)%Z -> (0 <= b <= 255)%Z ->
  (0 <= a <= 255)%Z ->
  (forall i, exists p, (0 <= p < Z.of_nat N)%Z /\ idx i = (p * 4)%Z) ->
  (0 <= K < Z.of_nat N)%Z ->
  store4 (filled [r; g; b; a] N K) (K * 4)%Z (flat [r; g; b; a] N) idx
  = filled [r; g; b; a] N (K + 1).
Proof.
  intros Hr Hg Hb Ha Hidx HK. apply store4_filled; [exact HK| | | |];
    apply accumulate_flat; try assumption; intros i _;
    destruct (Hidx i) as (p & Hp & ->);
    [rewrite Z.add_0_r; replace (p * 4)%Z with (p * 4 + 0)%Z by lia| | |];
    apply get_flat; try reflexivity; try lia.
Qed.

(** The horizontal pass over a flat image. *)
Lemma horizontal_pass_flat (r g b a w h : Z) :
  (0 <= r <= 255)%Z -> (0 <= g <= 255)%Z -> (0 <= b <= 255)%Z ->
  (0 <= a <= 255)%Z -> (0 <= w)%Z -> (0 <= h)%Z ->
  raster (horizontalPixel (flat [r; g; b; a] (Z.to_nat (w * h))) w) w h
         (repeat 0%Z (length (flat [r; g; b; a] (Z.to_nat (w * h)))))
  = flat [r; g; b; a] (Z.to_nat (w * h)).
Proof.
  intros Hr Hg Hb Ha Hw Hh.
  apply raster_filled; try assumption; [reflexivity|].
  intros y x Hy Hx. unfold horizontalPixel.
  pose proof (pixel_in_image w h y x Hy Hx) as P.
  apply store4_flat; try assumption; [|lia].
  intros i. exists (y * w + Z.min (w - 1) (Z.max 0 (x + i)))%Z.
  split; [|reflexivity].
  pose proof (pixel_in_image w h y (Z.min (w - 1) (Z.max 0 (x + i))) Hy
                             ltac:(lia)) as Q.
  lia.
Qed.

(** The vertical pass over a flat image. *)
Lemma vertical_pass_flat (r g b a w h : Z) :
  (0 <= r <= 255)%Z -> (0 <= g <= 255)%Z -> (0 <= b <= 255)%Z ->
  (0 <= a <= 255)%Z -> (0 <= w)%Z -> (0 <= h)%Z ->
  raster (verticalPixel (flat [r; g; b; a] (Z.to_nat (w * h))) w h) w h
         (repeat 0%Z (length (flat [r; g; b; a] (Z.to_nat (w * h)))))
  = flat [r; g; b; a] (Z.to_nat (w * h)).
Proof.
  intros Hr Hg Hb Ha Hw Hh.
  apply raster_filled; try assumption; [reflexivity|].
  intros y x Hy Hx. unfold verticalPixel.
  pose proof (pixel_in_image w h y x Hy Hx) as P.
  apply store4_flat; try assumption; [|lia].
  intros i. exists (Z.min (h - 1) (Z.max 0 (y + i)) * w + x)%Z.
  split; [|reflexivity].
  pose proof (pixel_in_image w h (Z.min (h - 1) (Z.max 0 (y + i))) x
                             ltac:(lia) Hx) as Q.
  lia.
Qed.

Lemma in_flat (px : list Z) (n : nat) (v : Z) :
  In v (flat px n) -> In v px.
Proof.
  unfold flat. intros H. apply in_concat in H. destruct H as (l & Hl & Hv).
  apply repeat_spec in Hl. now subst l.
Qed.

Lemma sharpenValue_same (amount : float) (d : Pixels) (i v : Z) :
  is_finite amount = true -> (0 <= i)%Z -> (0 <= v <= 255)%Z ->
  nth_error d (Z.to_nat i) = Some v ->
  ToUint8Clamp (sharpenValue amount d d i) = v.
Proof.
  intros F Hi Hv E.
  pose proof (proj1 (forallb_forall sharpenKept bytes) sharpenKept_bytes v
                    (in_bytes v Hv)) as K.
  unfold sharpenKept in K. apply andb_true_iff in K. destruct K as [K K3].
  apply andb_true_iff in K. destruct K as [K1 K2].
  apply FloatAxioms.Leibniz.eqb_spec in K1. apply Z.eqb_eq in K2, K3.
  unfold sharpenValue, get.
  destruct (i <? 0)%Z eqn:B; [apply Z.ltb_lt in B; lia|].
  rewrite E, K1.
  destruct (mul_zero_finite amount F) as [-> | ->]; assumption.
Qed.

Lemma sharpenStep_same (amount : float) (d : Pixels) (i : Z) :
  is_finite amount = true -> (0 <= i)%Z ->
  (forall v, In v d -> (0 <= v <= 255)%Z) ->
  sharpenStep amount d d i = d.
Proof.
  intros F Hi Hd. unfold sharpenStep. cbv zeta.
  rewrite (set_same d i).
  - rewrite (set_same d (i + 1)).
    + apply set_same. intros u E.
      apply sharpenValue_same; try assumption; [lia|].
      apply Hd. exact (nth_error_In _ _ E).
    + intros u E. apply sharpenValue_same; try assumption; [lia|].
      apply Hd. exact (nth_error_In _ _ E).
  - intros u E. apply sharpenValue_same; try assumption.
    apply Hd. exact (nth_error_In _ _ E).
Qed.

Lemma byFour_nonneg (n : nat) (i : Z) : In i (byFour n) -> (0 <= i)%Z.
Proof.
  unfold byFour. intros H. apply in_map_iff in H.
  destruct H as (j & <- & _). lia.
Qed.
End ImageFacts.

Section ImageTheorems.
Import TextureUtils PixelSpec.

(** X24.  [gaussianBlur5] leaves a flat image as it is: when every
    pixel of a [w] by [h] image has the same four bytes, the blurred
    image is the image itself, at the borders too, where the kernel
    reads the edge pixel again instead of reading outside. *)
Theorem gaussianBlur5_keeps_flat_images :
  forall r g b a w h : Z,
    (0 <= r <= 255)%Z -> (0 <= g <= 255)%Z -> (0 <= b <= 255)%Z ->
    (0 <= a <= 255)%Z -> (0 <= w)%Z -> (0 <= h)%Z ->
    gaussianBlur5 (flat [r; g; b; a] (Z.to_nat (w * h))) w h
    = flat [r; g; b; a] (Z.to_nat (w * h)).
Proof.
  intros r g b a w h Hr Hg Hb Ha Hw Hh. unfold gaussianBlur5. cbv zeta.
  rewrite horizontal_pass_flat by assumption.
  now apply vertical_pass_flat.
Qed.

Lemma gaussianBlur5_keeps_flat_images_witness :
  gaussianBlur5 (flat [10; 20; 30; 255]%Z (Z.to_nat (3 * 2))) 3 2
  = flat [10; 20; 30; 255]%Z (Z.to_nat (3 * 2)).
Proof.
  apply (gaussianBlur5_keeps_flat_images 10 20 30 255 3 2); lia.
Defined.

(** X25.  [sharpen] leaves a flat image as it is, for every finite
    [amount]: the blurred image equals the image, the difference is
    zero, and every byte is stored as it was. *)
Theorem sharpen_keeps_flat_images :
  forall (r g b a w h : Z) (amount : float),
    (0 <= r <= 255)%Z -> (0 <= g <= 255)%Z -> (0 <= b <= 255)%Z ->
    (0 <= a <= 255)%Z -> (0 <= w)%Z -> (0 <= h)%Z ->
    is_finite amount = true ->
    sharpen (flat [r; g; b; a] (Z.to_nat (w * h))) w h amount
    = flat [r; g; b; a] (Z.to_nat (w * h)).
Proof.
  intros r g b a w h amount Hr Hg Hb Ha Hw Hh F.
  unfold sharpen, gaussianBlur5. cbv zeta.
  rewrite horizontal_pass_flat, vertical_pass_flat by assumption.
  apply fold_fixed. intros i Hi.
  apply sharpenStep_same; [exact F|exact (byFour_nonneg _ _ Hi)|].
  intros v Hv. apply in_flat in Hv.
  destruct Hv as [<-|[<-|[<-|[<-|[]]]]]; assumption.
Qed.

Lemma sharpen_keeps_flat_images_witness :
  sharpen (flat [10; 20; 30; 255]%Z (Z.to_nat (3 * 2))) 3 2 0.5%float
  = flat [10; 20; 30; 255]%Z (Z.to_nat (3 * 2)).
Proof.
  apply (sharpen_keeps_flat_images 10 20 30 255 3 2 0.5%float); try lia.
  reflexivity.
Defined.
End ImageTheorems.

(* ------------------------------------------------------------------ *)
(** ** The quick test of [clipMeshKeepInside] *)

Section ExactProducts.
Local Open Scope float_scope.

(** The product of [1] or [-1] and a number is exact. *)
Lemma SFmul_unit (s1 s : bool) (m : positive) (e : Z) :
  valid_binary (S754_finite s m e) = true ->
  SFmul prec emax (S754_finite s1 4503599627370496 (-52)) (S754_finite s m e)
  = S754_finite (xorb s1 s) m e.
Proof.
  intros V. simpl in V. unfold bounded, canonical_mantissa in V.
  apply andb_true_iff in V. destruct V as [C B]. apply Z.eqb_eq in C.
  unfold SFmul, binary_round_aux.
  assert (D : Zdigits2 (Z.pos (4503599627370496 * m)) = (Z.pos (digits2_pos m) + 52)%Z).
  { cbn [Pos.mul Zdigits2 digits2_pos]. lia. }
  assert (S1 : shr_fexp prec emax (Z.pos (4503599627370496 * m)) (-52 + e) loc_Exact
               = ({| shr_m := Z.pos m; shr_r := false; shr_s := false |}, e)).
  { unfold shr_fexp. rewrite D.
    replace (Z.pos (digits2_pos m) + 52 + (-52 + e))%Z
      with (Z.pos (digits2_pos m) + e)%Z by lia.
    rewrite C. replace (e - (-52 + e))%Z with 52%Z by lia.
    unfold shr. cbn [Pos.mul shr_record_of_loc SpecFloat.iter_pos shr_1 orb].
    f_equal. lia. }
  rewrite S1. cbn [shr_m loc_of_shr_record round_nearest_even].
  assert (S2 : shr_fexp prec emax (Z.pos m) e loc_Exact
               = ({| shr_m := Z.pos m; shr_r := false; shr_s := false |}, e)).
  { unfold shr_fexp. cbn [Zdigits2]. rewrite C, Z.sub_diag. reflexivity. }
  rewrite S2. cbn [shr_m]. now rewrite B.
Qed.
End ExactProducts.

Section SignFacts.
Import FloatSpec.
Local Open Scope float_scope.

Lemma mul_1_l (x : float) : 1 * x = x.
Proof.
  apply Prim2SF_inj. rewrite mul_spec.
  change (Prim2SF 1) with (S754_finite false 4503599627370496 (-52)).
  pose proof (Prim2SF_valid x) as V.
  destruct (Prim2SF x) as [s|s| |s m e]; try reflexivity.
  unfold SF64mul. now rewrite SFmul_unit.
Qed.

Lemma mul_m1_l (x : float) : -1 * x = - x.
Proof.
  apply Prim2SF_inj. rewrite mul_spec, opp_spec.
  change (Prim2SF (-1)) with (S754_finite true 4503599627370496 (-52)).
  pose proof (Prim2SF_valid x) as V.
  destruct (Prim2SF x) as [s|s| |s m e]; try reflexivity.
  unfold SF64mul. now rewrite SFmul_unit.
Qed.

Lemma binary_round_opp (s : bool) (m : positive) (e : Z) :
  SFopp (binary_round prec emax s m e) = binary_round prec emax (negb s) m e.
Proof.
  unfold binary_round.
  destruct (shl_align m e (fexp prec emax (Z.pos (digits2_pos m) + e))) as [mz ez].
  unfold binary_round_aux.
  destruct (shr_fexp prec emax (Z.pos mz) ez loc_Exact) as [mrs' e'].
  destruct (shr_fexp prec emax
              (round_nearest_even (shr_m mrs') (loc_of_shr_record mrs')) e' loc_Exact)
    as [mrs'' e''].
  destruct (shr_m mrs''); try reflexivity.
  destruct (e'' <=? emax - prec)%Z; reflexivity.
Qed.

Lemma binary_normalize_opp (z e : Z) :
  sameValue (binary_normalize prec emax (- z) e false)
            (SFopp (binary_normalize prec emax z e false)).
Proof.
  destruct z as [|p|p]; simpl.
  - right. eauto.
  - left. symmetry. apply (binary_round_opp false).
  - left. symmetry. apply (binary_round_opp true).
Qed.

Lemma SFsub_opp_add (H : spec_float) (mE : positive) (eE : Z) :
  sameValue (SFsub prec emax (SFopp H) (S754_finite false mE eE))
            (SFopp (SFadd prec emax H (S754_finite false mE eE))).
Proof.
  destruct H as [s|s| |s m e]; try (left; reflexivity).
  unfold SFopp at 1. unfold SFsub, SFadd.
  set (ez := IntDef.Z.min e eE).
  set (a := Z.pos (fst (shl_align m e ez))).
  set (b := Z.pos (fst (shl_align mE eE ez))).
  replace (SpecFloat.cond_Zopp (negb s) a - SpecFloat.cond_Zopp false b)%Z
    with (- (SpecFloat.cond_Zopp s a + SpecFloat.cond_Zopp false b))%Z
    by (unfold SpecFloat.cond_Zopp; destruct s; cbn [negb]; lia).
  apply binary_normalize_opp.
Qed.

Lemma SFcompare_opp_swap (S X : spec_float) :
  SFcompare (SFopp S) X = SFcompare (SFopp X) S.
Proof.
  destruct S as [s|s| |s m e], X as [s'|s'| |s' m' e']; simpl;
    try destruct s; try destruct s'; simpl; try reflexivity.
  - rewrite (Z.compare_antisym e e').
    destruct (e ?= e')%Z; simpl; try reflexivity.
    now rewrite (Pos.compare_cont_antisym m' m Eq).
  - rewrite (Z.compare_antisym e e').
    destruct (e ?= e')%Z; simpl; try reflexivity.
    now rewrite (Pos.compare_cont_antisym m m' Eq).
Qed.

Lemma SFcompare_sameValue (A B X : spec_float) :
  sameValue A B -> SFcompare A X = SFcompare B X.
Proof. intros [->|(s & s' & -> & ->)]; reflexivity. Qed.

(** The lower test of the quick accept is the test of the plane with
    [s = -1]. *)
Lemma lower_test (h x : float) :
  (- h - Clipper.EPS <=? x) = (-1 * x <=? h + Clipper.EPS).
Proof.
  rewrite mul_m1_l, !FloatAxioms.leb_spec, sub_spec, add_spec, !opp_spec.
  unfold SFleb.
  assert (E : exists mE eE, Prim2SF Clipper.EPS = S754_finite false mE eE)
    by (eexists; eexists; reflexivity).
  destruct E as (mE & eE & ->).
  unfold SF64sub, SF64add.
  rewrite (SFcompare_sameValue _ _ _ (SFsub_opp_add (Prim2SF h) mE eE)).
  now rewrite SFcompare_opp_swap.
Qed.
End SignFacts.

Section QuickTest.
Import Clipper.
Local Open Scope float_scope.

Lemma quick_test_planes (half : Vector3.t) (p : Vertex) :
  insideX half (pb p) && insideY half (pb p) && insideZ half (pb p) = true ->
  forall plane, In plane (planes half) -> isInside plane p = true.
Proof.
  unfold insideX, insideY, insideZ. rewrite !andb_true_iff.
  intros [[[X1 X2] [Y1 Y2]] [Z1 Z2]] plane H.
  unfold planes in H.
  destruct H as [<-|[<-|[<-|[<-|[<-|[<-|[]]]]]]];
    unfold isInside, getCoord; cbn [s axis limit component];
    first [ rewrite mul_1_l; assumption
          | change (-1) with (-1)%float; rewrite <- lower_test; assumption ].
Qed.

Lemma clipAll_all_inside (geom : BufferGeometry.t) (poly : Polygon) :
  forall ps : list Plane,
    (forall plane p, In plane ps -> In p poly -> isInside plane p = true) ->
    clipAll geom poly ps = poly.
Proof.
  induction ps as [|plane ps IH]; intros H; [reflexivity|].
  cbn [clipAll].
  assert (E : clipByPlane (hasUV geom) poly plane = poly).
  { rewrite clipByPlane_edges. rewrite <- (map_snd_edges poly) at 2.
    apply emission_all_inside, edges_all_inside.
    intros p Hp. apply H; [now left|exact Hp]. }
  rewrite E.
  destruct (length poly =? 0)%nat; [reflexivity|].
  apply IH. intros pl p Hpl Hp. apply H; [now right|exact Hp].
Qed.

Lemma allInside_clipAll (geom : BufferGeometry.t) (half : Vector3.t) (poly : Polygon) :
  allInside half poly = true -> clipAll geom poly (planes half) = poly.
Proof.
  intros A. apply clipAll_all_inside. intros plane p Hpl Hp.
  unfold allInside in A. rewrite forallb_forall in A.
  exact (quick_test_planes half p (A p Hp) plane Hpl).
Qed.
End QuickTest.

(** X26.  The quick test of [clipMeshKeepInside] is a shortcut and
    nothing more: a triangle that passes it would come out of the six
    clips unchanged, so the polygon that reaches the triangulation is
    in every case the one that clipping against the six planes gives.
    This rests on the products with [1] and [-1] being exact and on
    [-h - EPS] being the negation of [h + EPS]. *)
Theorem quick_test_agrees_with_the_six_clips :
  forall (geom : BufferGeometry.t) (localToWorld invBoxMatrixWorld : Matrix4.t)
         (half : Vector3.t) (i : nat),
    Clipper.clippedPolygon geom localToWorld invBoxMatrixWorld half i
    = Clipper.clipAll geom
        [Clipper.makeV geom localToWorld invBoxMatrixWorld i;
         Clipper.makeV geom localToWorld invBoxMatrixWorld (i + 1);
         Clipper.makeV geom localToWorld invBoxMatrixWorld (i + 2)]
        (Clipper.planes half).
Proof.
  intros geom localToWorld invBoxMatrixWorld half i.
  unfold Clipper.clippedPolygon. cbv zeta.
  destruct (Clipper.allInside half _) eqn:A; [|reflexivity].
  symmetry. now apply allInside_clipAll.
Qed.

(* ------------------------------------------------------------------ *)
(** ** Pointer-based paired rotation *)

Section PointerFacts.
Import PairedRotation PointerSpec.

Lemma step_orbit (st : State) (e : Event) :
  orbitEnabled st = Some (negb (dragging st)) ->
  orbitEnabled (step st e) = Some (negb (dragging (step st e))).
Proof.
  intros H. destruct e as [shiftKey button cx cy|cx cy|]; simpl.
  - unfold onDown. destruct (negb shiftKey || negb (button =? 0)%Z); [exact H|].
    simpl. now rewrite H.
  - unfold onMove. destruct (dragging st) eqn:D; simpl; rewrite ?D; exact H.
  - unfold onUp. destruct (dragging st) eqn:D; simpl; rewrite ?D, ?H; auto.
Qed.

Lemma step_cursor (st : State) (e : Event) :
  (dragging st = true -> cursor st = CursorGrabbing) ->
  dragging (step st e) = true -> cursor (step st e) = CursorGrabbing.
Proof.
  intros H. destruct e as [shiftKey button cx cy|cx cy|]; simpl.
  - unfold onDown. destruct (negb shiftKey || negb (button =? 0)%Z); [exact H|].
    reflexivity.
  - unfold onMove. destruct (dragging st) eqn:D; simpl; rewrite ?D; auto.
  - unfold onUp. destruct (dragging st) eqn:D; simpl; rewrite ?D; auto.
    discriminate.
Qed.

Lemma step_idle (st : State) (e : Event) :
  dragging st = false -> startsDrag e = false ->
  dragging (step st e) = false
  /\ rotation (step st e) = rotation st
  /\ helperRotation (step st e) = helperRotation st.
Proof.
  intros D S. destruct e as [shiftKey button cx cy|cx cy|]; simpl in *.
  - unfold onDown.
    replace (negb shiftKey || negb (button =? 0)%Z) with true; [auto|].
    destruct shiftKey, (button =? 0)%Z; simpl in *; congruence.
  - unfold onMove. rewrite D. simpl. auto.
  - unfold onUp. rewrite D. simpl. auto.
Qed.
End PointerFacts.

Section PointerTheorems.
Import PairedRotation PointerSpec.

(** X27.  While the effect listens, the orbit controls are disabled
    exactly while a drag is in progress, and during a drag the cursor
    is ['grabbing']: this holds after every sequence of mouse events,
    given that it holds when the effect starts. *)
Theorem orbit_controls_are_off_exactly_while_dragging :
  forall (st : State) (events : list Event),
    orbitEnabled st = Some (negb (dragging st)) ->
    (dragging st = true -> cursor st = CursorGrabbing) ->
    orbitEnabled (run st events) = Some (negb (dragging (run st events)))
    /\ (dragging (run st events) = true -> cursor (run st events) = CursorGrabbing).
Proof.
  intros st events. revert st. unfold run.
  induction events as [|e events IH]; intros st H1 H2; [auto|].
  simpl. apply IH; [now apply step_orbit|now apply step_cursor].
Qed.

Lemma orbit_controls_are_off_exactly_while_dragging_witness :
  orbitEnabled (run (start (mkEuler 0 0 0) None (Some true) CursorOther) session)
  = Some (negb (dragging (run (start (mkEuler 0 0 0) None (Some true) CursorOther)
                              session)))
  /\ (dragging (run (start (mkEuler 0 0 0) None (Some true) CursorOther) session)
      = true ->
      cursor (run (start (mkEuler 0 0 0) None (Some true) CursorOther) session)
      = CursorGrabbing).
Proof.
  apply (orbit_controls_are_off_exactly_while_dragging
           (start (mkEuler 0 0 0) None (Some true) CursorOther) session).
  - reflexivity.
  - intros H. discriminate H.
Defined.

(** X28.  Without a press of the left button with Shift held, nothing
    is rotated: whatever moves, releases and other presses arrive, the
    rotation of the group and that of the box helper stay as they
    were. *)
Theorem no_rotation_without_shift_press :
  forall (st : State) (events : list Event),
    dragging st = false ->
    forallb (fun e => negb (startsDrag e)) events = true ->
    rotation (run st events) = rotation st
    /\ helperRotation (run st events) = helperRotation st
    /\ dragging (run st events) = false.
Proof.
  intros st events. revert st. unfold run.
  induction events as [|e events IH]; intros st D H; [auto|].
  simpl in H. apply andb_true_iff in H. destruct H as [He H].
  apply negb_true_iff in He.
  destruct (step_idle st e D He) as (D' & R & Hr).
  simpl. destruct (IH (step st e) D' H) as (R' & Hr' & D'').
  rewrite R', Hr'. auto.
Qed.

Lemma no_rotation_without_shift_press_witness :
  rotation (run (start (mkEuler 0 0 0) (Some (mkEuler 0 0 0)) (Some true)
                       CursorEmpty) idle)
  = rotation (start (mkEuler 0 0 0) (Some (mkEuler 0 0 0)) (Some true) CursorEmpty)
  /\ helperRotation (run (start (mkEuler 0 0 0) (Some (mkEuler 0 0 0)) (Some true)
                                CursorEmpty) idle)
     = helperRotation (start (mkEuler 0 0 0) (Some (mkEuler 0 0 0)) (Some true)
                             CursorEmpty)
  /\ dragging (run (start (mkEuler 0 0 0) (Some (mkEuler 0 0 0)) (Some true)
                          CursorEmpty) idle)
     = false.
Proof.
  apply (no_rotation_without_shift_press
           (start (mkEuler 0 0 0) (Some (mkEuler 0 0 0)) (Some true) CursorEmpty)
           idle).
  - reflexivity.
  - reflexivity.
Defined.
End PointerTheorems.
